(** * local-echo: a shallow embedding of the line-editing engine

    The development follows the TypeScript sources:
    - [src/lib/utils.ts]                (module [Utils]),
    - [HistoryController]               (module [History]),
    - [src/lib/LocalEchoController.ts]  (module [Engine]).

    Data model.  A JavaScript string is a [string] of code units below 256;
    a JavaScript number that the program only ever uses as an integer is a
    [Z]; the results of the two divisions of [printWide], which can be
    infinite, NaN or the negative zero, are a [jsnum].  [undefined] and
    [null] are [None]. *)

From Stdlib Require Import String Ascii ZArith List Bool Lia Arith DecimalString.
From Equations Require Import Equations.
Import ListNotations.

Local Open Scope string_scope.
Local Open Scope Z_scope.

(* ===================================================================== *)
(** * JavaScript string primitives used by the sources                    *)
(* ===================================================================== *)

Module JS.

Definition LF : ascii := "010"%char.
Definition CR : ascii := "013"%char.
Definition TAB : ascii := "009"%char.
Definition ESC : ascii := "027"%char.
Definition DEL : ascii := "127"%char.
Definition ETX : ascii := "003"%char.
Definition SPACE : ascii := " "%char.
Definition BACKSLASH : ascii := "\"%char.
Definition QUOTE : ascii := "'"%char.
Definition DQUOTE : ascii := "034"%char.
Definition BAR : ascii := "|"%char.
Definition AMP : ascii := "&"%char.
Definition DOLLAR : ascii := "$"%char.
Definition BACKTICK : ascii := "`"%char.

Definition chr (c : ascii) : string := String c EmptyString.

(** [s.length] *)
Definition len (s : string) : Z := Z.of_nat (String.length s).

(** [s.charCodeAt(0)]; [None] stands for NaN (empty string). *)
Definition charCodeAt0 (s : string) : option Z :=
  match s with
  | EmptyString => None
  | String c _ => Some (Z.of_nat (nat_of_ascii c))
  end.

(** [s.substr(start, length)], with the clamping of the language:
    a negative start counts from the end, a missing length means "to the
    end", a negative length gives the empty string. *)
Definition substr (s : string) (start : Z) (length : option Z) : string :=
  let size := len s in
  let from := if start <? 0 then Z.max (size + start) 0 else Z.min start size in
  let count :=
    match length with
    | None => size - from
    | Some l => Z.min (Z.max l 0) (size - from)
    end in
  String.substring (Z.to_nat from) (Z.to_nat count) s.

(** [s.slice(a, b)] for non-negative [a] and [b]. *)
Definition slice (s : string) (a b : Z) : string :=
  let size := len s in
  let from := Z.min (Z.max a 0) size in
  let to := Z.min (Z.max b 0) size in
  String.substring (Z.to_nat from) (Z.to_nat (Z.max (to - from) 0)) s.

(** [s.startsWith(p)] *)
Definition startsWith (s p : string) : bool := String.prefix p s.

(** [s.endsWith(p)] *)
Definition endsWith (s p : string) : bool :=
  (String.length p <=? String.length s)%nat &&
  String.eqb (String.substring (String.length s - String.length p)
                               (String.length p) s) p.

(** The white space and line terminators that [trim] strips, among the
    code units below 256: TAB, LF, VT, FF, CR, SP and NBSP. *)
Definition isWhiteSpace (c : ascii) : bool :=
  let n := nat_of_ascii c in
  ((9 <=? n) && (n <=? 13) || (n =? 32) || (n =? 160))%nat.

Fixpoint trimStart (s : string) : string :=
  match s with
  | EmptyString => EmptyString
  | String c s' => if isWhiteSpace c then trimStart s' else s
  end.

Fixpoint trimEnd (s : string) : string :=
  match s with
  | EmptyString => EmptyString
  | String c s' =>
      match trimEnd s' with
      | EmptyString => if isWhiteSpace c then EmptyString else chr c
      | r => String c r
      end
  end.

(** [s.trim()] *)
Definition trim (s : string) : string := trimEnd (trimStart s).

(** [(s.match(/c/g) || []).length] for a one-character pattern. *)
Fixpoint countMatches (c : ascii) (s : string) : nat :=
  match s with
  | EmptyString => O
  | String d s' => ((if Ascii.eqb c d then 1 else 0) + countMatches c s')%nat
  end.

Definition isNewline (c : ascii) : bool := Ascii.eqb c LF || Ascii.eqb c CR.

(** Skip the rest of a run of CR and LF characters. *)
Fixpoint skipNewlines (s : string) : string :=
  match s with
  | String c s' => if isNewline c then skipNewlines s' else s
  | EmptyString => EmptyString
  end.

(** [s.replace(/[\r\n]+/g, by)]: every maximal run of CR and LF becomes one
    copy of [by].  The flag tells that the previous character belonged to a
    run that has been replaced already. *)
Fixpoint replaceRuns (by_ : string) (inRun : bool) (s : string) : string :=
  match s with
  | EmptyString => EmptyString
  | String c s' =>
      if isNewline c
      then (if inRun then replaceRuns by_ true s'
            else by_ ++ replaceRuns by_ true s')
      else String c (replaceRuns by_ false s')
  end.

Definition replaceNewlineRuns (s by_ : string) : string :=
  replaceRuns by_ false s.

(** What [String.prototype.replace] puts in place of a match, for a
    pattern without capture groups and a replacement given as a string:
    in the replacement, [$$] stands for [$], [$&] for the match, [$`] for
    the text in front of the match and [$'] for the text behind it; a [$]
    followed by anything else stands for itself. *)
Fixpoint getSubstitution (matched before after replacement : string) : string :=
  match replacement with
  | EmptyString => EmptyString
  | String c r =>
      if Ascii.eqb c DOLLAR then
        match r with
        | String d r' =>
            if Ascii.eqb d DOLLAR
            then String DOLLAR (getSubstitution matched before after r')
            else if Ascii.eqb d AMP
            then matched ++ getSubstitution matched before after r'
            else if Ascii.eqb d BACKTICK
            then before ++ getSubstitution matched before after r'
            else if Ascii.eqb d QUOTE
            then after ++ getSubstitution matched before after r'
            else String c (getSubstitution matched before after r)
        | EmptyString => String c EmptyString
        end
      else String c (getSubstitution matched before after r)
  end.

(** [s.replace(/\n/g, by)] from the place in [s] that has [before] in front
    of it. *)
Fixpoint replaceLFFrom (by_ before s : string) : string :=
  match s with
  | EmptyString => EmptyString
  | String c s' =>
      if Ascii.eqb c LF
      then getSubstitution (chr LF) before s' by_
           ++ replaceLFFrom by_ (before ++ chr c) s'
      else String c (replaceLFFrom by_ (before ++ chr c) s')
  end.

(** [s.replace(/\n/g, by)] *)
Definition replaceLF (s by_ : string) : string := replaceLFFrom by_ "" s.

(** [" ".repeat(n)] for a non-negative count. *)
Fixpoint repeatSpace (n : nat) : string :=
  match n with
  | O => EmptyString
  | S n' => String SPACE (repeatSpace n')
  end.

(** [Array.from(s)]: the characters of [s], one string each. *)
Fixpoint chars (s : string) : list string :=
  match s with
  | EmptyString => []
  | String c s' => chr c :: chars s'
  end.

(** [a[i]] for an integer index: [undefined] out of range. *)
Definition index {A} (a : list A) (i : Z) : option A :=
  if i <? 0 then None else nth_error a (Z.to_nat i).

(** Insertion of one string in a list sorted by code units. *)
Fixpoint insertSorted (x : string) (l : list string) : list string :=
  match l with
  | [] => [x]
  | y :: l' => if String.leb x y then x :: l else y :: insertSorted x l'
  end.

(** [a.sort()] with the default comparison, which orders strings by their
    code units.  Two strings that compare equal are the same string, so
    every sorting algorithm gives this list. *)
Definition sort (a : list string) : list string :=
  fold_right insertSorted [] a.

(** The numbers [printWide] computes with: integers (the zero of [Num] is
    the positive one), the negative zero, the two infinities and NaN. *)
Inductive jsnum : Type :=
| Num (z : Z)
| NegZero
| PosInf
| NegInf
| NaN.

(** [Math.floor(a / b)] for integers [a] and [b]: the quotient is the
    negative zero when [a] is 0 and [b] is negative. *)
Definition floorDiv (a b : Z) : jsnum :=
  if b =? 0 then
    (if 0 <? a then PosInf else if a <? 0 then NegInf else NaN)
  else if (a =? 0) && (b <? 0) then NegZero
  else Num (a / b).

(** [Math.ceil(a / b)] for an integer [a] and a number [b]: a quotient
    that is negative and above -1, or the negative zero, gives the negative
    zero. *)
Definition ceilDiv (a : Z) (b : jsnum) : jsnum :=
  match b with
  | Num d =>
      if d =? 0 then
        (if 0 <? a then PosInf else if a <? 0 then NegInf else NaN)
      else
        let c := - ((- a) / d) in
        if (c =? 0) && (if d <? 0 then 0 <=? a else a <? 0) then NegZero
        else Num c
  | NegZero => if 0 <? a then NegInf else if a <? 0 then PosInf else NaN
  | PosInf => if a <? 0 then NegZero else Num 0
  | NegInf => if a <? 0 then Num 0 else NegZero
  | NaN => NaN
  end.

(** [i < n] for an integer [i] and a number [n]. *)
Definition ltNum (i : Z) (n : jsnum) : bool :=
  match n with
  | Num z => i <? z
  | NegZero => i <? 0
  | PosInf => true
  | NegInf | NaN => false
  end.

End JS.

(** What running a piece of the program gives: a value, an exception, or
    no answer within the given number of loop iterations. *)
Inductive result (A : Type) : Type :=
| Ok (a : A)
| Throw (error : string)
| Timeout.
Arguments Ok {A} a.
Arguments Throw {A} error.
Arguments Timeout {A}.

Definition bind {A B} (r : result A) (k : A -> result B) : result B :=
  match r with
  | Ok a => k a
  | Throw e => Throw e
  | Timeout => Timeout
  end.

Notation "x <- r ;; k" := (bind r (fun x => k))
  (at level 61, r at next level, right associativity).

(* ===================================================================== *)
(** * src/lib/utils.ts                                                    *)
(* ===================================================================== *)

Module Utils.
Import JS.

Record ColRow := { row : Z; col : Z }.

(** The loop of [offsetToColRow]: [n] iterations remain, [input] is the
    part of the string from index [i] on, so that its head is
    [input.charAt(i)] (the empty string once past the end). *)
Fixpoint offsetLoop (n : nat) (input : string) (maxCols : Z) (row col : Z)
  : ColRow :=
  match n with
  | O => {| row := row; col := col |}
  | S n' =>
      let rest := match input with String _ r => r | EmptyString => EmptyString end in
      let isLF := match input with String c _ => Ascii.eqb c LF | EmptyString => false end in
      if isLF then offsetLoop n' rest maxCols (row + 1) 0
      else
        let col := col + 1 in
        if col >? maxCols then offsetLoop n' rest maxCols (row + 1) 0
        else offsetLoop n' rest maxCols row col
  end.

Definition offsetToColRow (input : string) (offset maxCols : Z) : ColRow :=
  offsetLoop (Z.to_nat offset) input maxCols 0 0.

Definition countLines (input : string) (maxCols : Z) : Z :=
  row (offsetToColRow input (len input) maxCols) + 1.

(** [\w]: a letter, a digit or the underscore. *)
Definition isWordChar (c : ascii) : bool :=
  let n := nat_of_ascii c in
  ((48 <=? n) && (n <=? 57) || (65 <=? n) && (n <=? 90)
   || (97 <=? n) && (n <=? 122) || (n =? 95))%nat.

(** The matches of [/\w+/g] in the part [s] of the input from index [i] on;
    [inWord] tells that the character before belongs to the current match.
    A match is pushed as its start when [leftSide], as its end otherwise. *)
Fixpoint wordScan (leftSide : bool) (inWord : bool) (i : Z) (s : string)
  : list Z :=
  match s with
  | EmptyString => if inWord && negb leftSide then [i] else []
  | String c s' =>
      if isWordChar c then
        (if negb inWord && leftSide then i :: wordScan leftSide true (i + 1) s'
         else wordScan leftSide true (i + 1) s')
      else
        (if inWord && negb leftSide then i :: wordScan leftSide false (i + 1) s'
         else wordScan leftSide false (i + 1) s')
  end.

Definition wordBoundaries (input : string) (leftSide : bool) : list Z :=
  wordScan leftSide false 0 input.

Definition closestLeftBoundary (input : string) (offset : Z) : Z :=
  let found := find (fun x => x <? offset) (rev (wordBoundaries input true)) in
  match found with Some x => x | None => 0 end.

Definition closestRightBoundary (input : string) (offset : Z) : Z :=
  let found := find (fun x => x >? offset) (wordBoundaries input false) in
  match found with Some x => x | None => len input end.

(** [input.split(/(\|\||\||&&)/g)]: the pieces between the operators and,
    because of the capturing group, the operators themselves.  At each
    position the alternatives are tried in the order of the pattern.
    [cur] is the piece read so far. *)
Fixpoint splitOperators (cur : string) (s : string) : list string :=
  match s with
  | EmptyString => [cur]
  | String c s' =>
      match s' with
      | String d s'' =>
          if Ascii.eqb c BAR && Ascii.eqb d BAR
          then cur :: "||" :: splitOperators EmptyString s''
          else if Ascii.eqb c BAR
          then cur :: "|" :: splitOperators EmptyString s'
          else if Ascii.eqb c AMP && Ascii.eqb d AMP
          then cur :: "&&" :: splitOperators EmptyString s''
          else splitOperators (cur ++ chr c) s'
      | EmptyString =>
          if Ascii.eqb c BAR
          then cur :: "|" :: splitOperators EmptyString s'
          else splitOperators (cur ++ chr c) s'
      end
  end.

(** [a.pop()]: the last element, [undefined] for an empty array. *)
Definition pop {A} (a : list A) : option A := List.last (map Some a) None.

Definition isIncompleteInput (input : string) : bool :=
  if String.eqb (trim input) "" then false
  else if negb (Nat.eqb (Nat.modulo (countMatches QUOTE input) 2) 0) then true
  else if negb (Nat.eqb (Nat.modulo (countMatches DQUOTE input) 2) 0) then true
  else if match pop (splitOperators "" input) with
          | Some seg => String.eqb (trim seg) ""
          | None => false
          end then true
  else endsWith input "\" && negb (endsWith input "\\").

Definition isSpaceOrTab (c : ascii) : bool :=
  Ascii.eqb c SPACE || Ascii.eqb c TAB.

(** Where [$] matches under the [m] flag: at the end of the input and before
    a line terminator. *)
Definition atLineEnd (s : string) : bool :=
  match s with
  | EmptyString => true
  | String c _ => isNewline c
  end.

(** [/[^\\][ \t]$/m.test(input)]: some character other than a backslash is
    followed by a space or a tab, itself followed by a line end. *)
Fixpoint hasTailingWhitespace (input : string) : bool :=
  match input with
  | String a ((String b rest) as s') =>
      (negb (Ascii.eqb a BACKSLASH) && isSpaceOrTab b && atLineEnd rest)
      || hasTailingWhitespace s'
  | _ => false
  end.

(** An autocomplete callback with its bound arguments applied: it receives
    the index and the tokens, and gives candidates or throws ([None]). *)
Record AutocompleteHandler := {
  fnId : nat;
  fn : Z -> list string -> option (list string)
}.

Section WithParse.

(** [parse] of the shell-quote package, which is not part of the
    repository; the sources use its result as an array of strings. *)
Variable parse : string -> list string.

Definition getLastToken (input : string) : string :=
  if String.eqb (trim input) "" || hasTailingWhitespace input then ""
  else
    let tokens := parse input in
    match pop tokens with Some t => t | None => "" end.

Definition collectAutocompleteCandidates
  (callbacks : list AutocompleteHandler) (input : string) : list string :=
  let tokens := parse input in
  let index := Z.of_nat (List.length tokens) - 1 in
  let expr := match JS.index tokens index with Some t => t | None => "" end in
  let '(index, expr) :=
    if String.eqb (trim input) "" then (0, "")
    else if hasTailingWhitespace input then (index + 1, "")
    else (index, expr) in
  filter (fun txt => startsWith txt expr)
    (fold_left
       (fun candidates h =>
          match fn h index tokens with
          | Some found => (candidates ++ found)%list
          | None => candidates
          end)
       callbacks []).

End WithParse.

(** The [for] loop of [getSharedFragment]: [Some r] when the loop returns
    [r], [None] when it runs to its end. *)
Fixpoint scanCandidates (oldFragment fragment : string)
  (candidates : list string) : option (option string) :=
  match candidates with
  | [] => None
  | c :: rest =>
      if negb (startsWith c oldFragment) then Some None
      else if negb (startsWith c fragment) then Some (Some oldFragment)
      else scanCandidates oldFragment fragment rest
  end.

Lemma length_append (a b : string) :
  String.length (a ++ b) = (String.length a + String.length b)%nat.
Proof. induction a as [|c a IH]; simpl; [reflexivity | now rewrite IH]. Qed.

Lemma length_substring_one (s : string) (n : nat) :
  (n < String.length s)%nat -> String.length (String.substring n 1 s) = 1%nat.
Proof.
  revert n. induction s as [|c s IH]; intros n Hn; simpl in Hn; [lia|].
  destruct n as [|n]; simpl.
  - destruct s; reflexivity.
  - apply IH. lia.
Qed.

Lemma length_next_char (fragment c0 : string) :
  (String.length fragment < String.length c0)%nat ->
  String.length (fragment ++ slice c0 (len fragment) (len fragment + 1))
  = S (String.length fragment).
Proof.
  intros H. rewrite length_append. unfold slice, len.
  replace (Z.to_nat (Z.min (Z.max (Z.of_nat (String.length fragment)) 0)
                           (Z.of_nat (String.length c0))))
    with (String.length fragment) by lia.
  replace (Z.to_nat _) with 1%nat by lia.
  rewrite length_substring_one by exact H. lia.
Qed.

(** Match on a value and keep the equation that it is that value. *)
Definition inspect {A : Type} (x : A) : {y : A | x = y} := exist _ x eq_refl.

(** [getSharedFragment]; reading [candidates[0].length] of an empty array
    throws.  The recursion ends because the fragment grows by one character
    of the first candidate at each call. *)
Equations? getSharedFragment (fragment : string) (candidates : list string)
  : result (option string)
  by wf (String.length (hd "" candidates) - String.length fragment)%nat lt :=
getSharedFragment fragment [] := Throw "TypeError";
getSharedFragment fragment (c0 :: rest)
  with inspect (len fragment >=? len c0) => {
  | exist _ true _ := Ok (Some fragment);
  | exist _ false Hlt
      with inspect (scanCandidates fragment
                      (fragment ++ slice c0 (len fragment) (len fragment + 1))
                      (c0 :: rest)) => {
      | exist _ (Some r) _ := Ok r;
      | exist _ None _ :=
          getSharedFragment
            (fragment ++ slice c0 (len fragment) (len fragment + 1))
            (c0 :: rest) } }.
Proof.
  unfold len in Hlt.
  assert (Hl : (String.length fragment < String.length c0)%nat).
  { destruct (Z.geb_spec (Z.of_nat (String.length fragment))
                         (Z.of_nat (String.length c0))); [discriminate | lia]. }
  rewrite (length_next_char _ _ Hl). lia.
Qed.

End Utils.

(* ===================================================================== *)
(** * HistoryController                                                   *)
(* ===================================================================== *)

Module History.
Import JS.

Record HistoryController := {
  size : Z;
  entries : list string;
  cursor : Z
}.

Definition constructor (size : Z) : HistoryController :=
  {| size := size; entries := []; cursor := 0 |}.

(** [entry === lastEntry], where [lastEntry] may be [undefined]. *)
Definition sameEntry (entry : string) (lastEntry : option string) : bool :=
  match lastEntry with
  | Some e => String.eqb entry e
  | None => false
  end.

(** [a.shift()]: the array without its first element. *)
Definition shift {A} (a : list A) : list A := List.tl a.

Definition push (entry : string) (h : HistoryController) : HistoryController :=
  if String.eqb (trim entry) "" then h
  else
    let lastEntry := index (entries h) (Z.of_nat (List.length (entries h)) - 1) in
    if sameEntry entry lastEntry then h
    else
      let pushed := (entries h ++ [entry])%list in
      let kept :=
        if Z.of_nat (List.length pushed) >? size h then shift pushed
        else pushed in
      {| size := size h; entries := kept;
         cursor := Z.of_nat (List.length kept) |}.

Definition rewind (h : HistoryController) : HistoryController :=
  {| size := size h; entries := entries h;
     cursor := Z.of_nat (List.length (entries h)) |}.

Definition getPrevious (h : HistoryController)
  : option string * HistoryController :=
  let idx := Z.max 0 (cursor h - 1) in
  (index (entries h) idx,
   {| size := size h; entries := entries h; cursor := idx |}).

Definition getNext (h : HistoryController)
  : option string * HistoryController :=
  let idx := Z.min (Z.of_nat (List.length (entries h))) (cursor h + 1) in
  (index (entries h) idx,
   {| size := size h; entries := entries h; cursor := idx |}).

(** The operations a client can apply to a history. *)
Inductive operation : Type :=
| Push (entry : string)
| Rewind
| GetPrevious
| GetNext.

Definition apply (op : operation) (h : HistoryController) : HistoryController :=
  match op with
  | Push entry => push entry h
  | Rewind => rewind h
  | GetPrevious => snd (getPrevious h)
  | GetNext => snd (getNext h)
  end.

(** The history after a sequence of operations, the first one first. *)
Definition run (ops : list operation) (h : HistoryController)
  : HistoryController :=
  fold_left (fun h op => apply op h) ops h.

End History.

(* ===================================================================== *)
(** * src/lib/LocalEchoController.ts                                      *)
(* ===================================================================== *)

Module Engine.
Import JS Utils.

(** The terminal surface, as far as the controller uses it: its size and
    the texts passed to [write], the first one first. *)
Record Terminal := {
  termCols : Z;
  termRows : Z;
  written : list string
}.

Record TermSize := { cols : Z; rows : Z }.

(** A promise handed to a caller is known by its number; resolving or
    rejecting it is recorded in [settled]. *)
Inductive Settlement : Type :=
| Resolved (value : string)
| Rejected (reason : string).

Record ActivePrompt := {
  prompt : string;
  continuationPrompt : string;
  linePromise : nat
}.

Record ActiveCharPrompt := {
  charPrompt : string;
  charPromise : nat
}.

(** What the TAB handler chains on the promise of its own [readChar]:
    print the candidates if the answer is [y] or [Y], then resume the
    prompt at the saved cursor. *)
Inductive Reaction : Type :=
| DisplayAll (candidates : list string) (cursor : Z).

Record LocalEchoController := {
  term : option Terminal;
  history : History.HistoryController;
  maxAutocompleteEntries : Z;
  _autocompleteHandlers : list AutocompleteHandler;
  _active : bool;
  _input : string;
  _cursor : Z;
  _activePrompt : option ActivePrompt;
  _activeCharPrompt : option ActiveCharPrompt;
  _termSize : TermSize;
  promises : nat;
  settled : list (nat * Settlement);
  reactions : list (nat * Reaction)
}.

(** Field updates. *)
Definition set_term (v : option Terminal) (s : LocalEchoController) :=
  {| term := v; history := history s;
     maxAutocompleteEntries := maxAutocompleteEntries s;
     _autocompleteHandlers := _autocompleteHandlers s; _active := _active s;
     _input := _input s; _cursor := _cursor s;
     _activePrompt := _activePrompt s;
     _activeCharPrompt := _activeCharPrompt s; _termSize := _termSize s;
     promises := promises s; settled := settled s; reactions := reactions s |}.

Definition set_history (v : History.HistoryController) (s : LocalEchoController) :=
  {| term := term s; history := v;
     maxAutocompleteEntries := maxAutocompleteEntries s;
     _autocompleteHandlers := _autocompleteHandlers s; _active := _active s;
     _input := _input s; _cursor := _cursor s;
     _activePrompt := _activePrompt s;
     _activeCharPrompt := _activeCharPrompt s; _termSize := _termSize s;
     promises := promises s; settled := settled s; reactions := reactions s |}.

Definition set_handlers (v : list AutocompleteHandler) (s : LocalEchoController) :=
  {| term := term s; history := history s;
     maxAutocompleteEntries := maxAutocompleteEntries s;
     _autocompleteHandlers := v; _active := _active s;
     _input := _input s; _cursor := _cursor s;
     _activePrompt := _activePrompt s;
     _activeCharPrompt := _activeCharPrompt s; _termSize := _termSize s;
     promises := promises s; settled := settled s; reactions := reactions s |}.

Definition set_active (v : bool) (s : LocalEchoController) :=
  {| term := term s; history := history s;
     maxAutocompleteEntries := maxAutocompleteEntries s;
     _autocompleteHandlers := _autocompleteHandlers s; _active := v;
     _input := _input s; _cursor := _cursor s;
     _activePrompt := _activePrompt s;
     _activeCharPrompt := _activeCharPrompt s; _termSize := _termSize s;
     promises := promises s; settled := settled s; reactions := reactions s |}.

Definition set_input (v : string) (s : LocalEchoController) :=
  {| term := term s; history := history s;
     maxAutocompleteEntries := maxAutocompleteEntries s;
     _autocompleteHandlers := _autocompleteHandlers s; _active := _active s;
     _input := v; _cursor := _cursor s;
     _activePrompt := _activePrompt s;
     _activeCharPrompt := _activeCharPrompt s; _termSize := _termSize s;
     promises := promises s; settled := settled s; reactions := reactions s |}.

Definition set_cursor (v : Z) (s : LocalEchoController) :=
  {| term := term s; history := history s;
     maxAutocompleteEntries := maxAutocompleteEntries s;
     _autocompleteHandlers := _autocompleteHandlers s; _active := _active s;
     _input := _input s; _cursor := v;
     _activePrompt := _activePrompt s;
     _activeCharPrompt := _activeCharPrompt s; _termSize := _termSize s;
     promises := promises s; settled := settled s; reactions := reactions s |}.

Definition set_activePrompt (v : option ActivePrompt) (s : LocalEchoController) :=
  {| term := term s; history := history s;
     maxAutocompleteEntries := maxAutocompleteEntries s;
     _autocompleteHandlers := _autocompleteHandlers s; _active := _active s;
     _input := _input s; _cursor := _cursor s;
     _activePrompt := v;
     _activeCharPrompt := _activeCharPrompt s; _termSize := _termSize s;
     promises := promises s; settled := settled s; reactions := reactions s |}.

Definition set_activeCharPrompt (v : option ActiveCharPrompt) (s : LocalEchoController) :=
  {| term := term s; history := history s;
     maxAutocompleteEntries := maxAutocompleteEntries s;
     _autocompleteHandlers := _autocompleteHandlers s; _active := _active s;
     _input := _input s; _cursor := _cursor s;
     _activePrompt := _activePrompt s;
     _activeCharPrompt := v; _termSize := _termSize s;
     promises := promises s; settled := settled s; reactions := reactions s |}.

Definition set_termSize (v : TermSize) (s : LocalEchoController) :=
  {| term := term s; history := history s;
     maxAutocompleteEntries := maxAutocompleteEntries s;
     _autocompleteHandlers := _autocompleteHandlers s; _active := _active s;
     _input := _input s; _cursor := _cursor s;
     _activePrompt := _activePrompt s;
     _activeCharPrompt := _activeCharPrompt s; _termSize := v;
     promises := promises s; settled := settled s; reactions := reactions s |}.

Definition set_promises (v : nat) (s : LocalEchoController) :=
  {| term := term s; history := history s;
     maxAutocompleteEntries := maxAutocompleteEntries s;
     _autocompleteHandlers := _autocompleteHandlers s; _active := _active s;
     _input := _input s; _cursor := _cursor s;
     _activePrompt := _activePrompt s;
     _activeCharPrompt := _activeCharPrompt s; _termSize := _termSize s;
     promises := v; settled := settled s; reactions := reactions s |}.

Definition set_settled (v : list (nat * Settlement)) (s : LocalEchoController) :=
  {| term := term s; history := history s;
     maxAutocompleteEntries := maxAutocompleteEntries s;
     _autocompleteHandlers := _autocompleteHandlers s; _active := _active s;
     _input := _input s; _cursor := _cursor s;
     _activePrompt := _activePrompt s;
     _activeCharPrompt := _activeCharPrompt s; _termSize := _termSize s;
     promises := promises s; settled := v; reactions := reactions s |}.

Definition set_reactions (v : list (nat * Reaction)) (s : LocalEchoController) :=
  {| term := term s; history := history s;
     maxAutocompleteEntries := maxAutocompleteEntries s;
     _autocompleteHandlers := _autocompleteHandlers s; _active := _active s;
     _input := _input s; _cursor := _cursor s;
     _activePrompt := _activePrompt s;
     _activeCharPrompt := _activeCharPrompt s; _termSize := _termSize s;
     promises := promises s; settled := settled s; reactions := v |}.

(** [if (this.term) this.term.write(text)] *)
Definition write (text : string) (s : LocalEchoController) : LocalEchoController :=
  match term s with
  | Some t =>
      set_term (Some {| termCols := termCols t; termRows := termRows t;
                        written := (written t ++ [text])%list |}) s
  | None => s
  end.

(** [for (let i = 0; i < n; ++i) write(text)] *)
Definition writeTimes (n : Z) (text : string) (s : LocalEchoController)
  : LocalEchoController :=
  Nat.iter (Z.to_nat n) (write text) s.

(** [resolve(value)] and [reject(reason)] of promise [p]. *)
Definition settle (p : nat) (outcome : Settlement) (s : LocalEchoController) :=
  set_settled (settled s ++ [(p, outcome)])%list s.

(** [x || d] for a number option: [undefined] and 0 give the default. *)
Definition orDefault (x : option Z) (d : Z) : Z :=
  match x with
  | Some v => if v =? 0 then d else v
  | None => d
  end.

(** The constructor, followed by [attach] when a terminal is given. *)
Definition constructor (term : option Terminal)
  (historySize maxAutocompleteEntries : option Z) : LocalEchoController :=
  {| term := term;
     history := History.constructor (orDefault historySize 10);
     maxAutocompleteEntries := orDefault maxAutocompleteEntries 100;
     _autocompleteHandlers := [];
     _active := false;
     _input := "";
     _cursor := 0;
     _activePrompt := None;
     _activeCharPrompt := None;
     _termSize :=
       match term with
       | Some t => {| cols := termCols t; rows := termRows t |}
       | None => {| cols := 0; rows := 0 |}
       end;
     promises := 0;
     settled := [];
     reactions := [] |}.

Definition addAutocompleteHandler (h : AutocompleteHandler) (s : LocalEchoController) :=
  set_handlers (_autocompleteHandlers s ++ [h])%list s.

(** [splice(idx, 1)] at the first handler with the given function. *)
Fixpoint removeFirst (id : nat) (l : list AutocompleteHandler) :=
  match l with
  | [] => []
  | h :: l' => if Nat.eqb (fnId h) id then l' else h :: removeFirst id l'
  end.

Definition removeAutocompleteHandler (id : nat) (s : LocalEchoController) :=
  set_handlers (removeFirst id (_autocompleteHandlers s)) s.

(** [read]: the promise it returns, and the state. *)
Definition read (prompt_ continuationPrompt_ : string) (s : LocalEchoController)
  : nat * LocalEchoController :=
  let p := promises s in
  let s := set_promises (S p) s in
  let s := write prompt_ s in
  let s := set_activePrompt
             (Some {| prompt := prompt_;
                      continuationPrompt := continuationPrompt_;
                      linePromise := p |}) s in
  let s := set_input "" s in
  let s := set_cursor 0 s in
  (p, set_active true s).

Definition readChar (prompt_ : string) (s : LocalEchoController)
  : nat * LocalEchoController :=
  let p := promises s in
  let s := set_promises (S p) s in
  let s := write prompt_ s in
  (p, set_activeCharPrompt
        (Some {| charPrompt := prompt_; charPromise := p |}) s).

Definition abortRead (reason : string) (s : LocalEchoController) :=
  let s :=
    match _activePrompt s, _activeCharPrompt s with
    | None, None => s
    | _, _ => write (chr CR ++ chr LF) s
    end in
  let s :=
    match _activePrompt s with
    | Some a => set_activePrompt None (settle (linePromise a) (Rejected reason) s)
    | None => s
    end in
  let s :=
    match _activeCharPrompt s with
    | Some a =>
        set_activeCharPrompt None (settle (charPromise a) (Rejected reason) s)
    | None => s
    end in
  set_active false s.

Definition print (message : string) (s : LocalEchoController) :=
  let normInput := replaceNewlineRuns message (chr LF) in
  write (replaceLF normInput (chr CR ++ chr LF)) s.

Definition println (message : string) (s : LocalEchoController) :=
  print (message ++ chr LF) s.

(** The inner loop of [printWide], from column [col] on: the row text and
    the index of the next item.  [repeat] throws on a negative count. *)
Fixpoint printColumns (fuel : nat) (items : list string)
  (itemWidth : Z) (wideCols : jsnum) (col i : Z) (rowStr : string)
  : result (Z * string) :=
  if negb (ltNum col wideCols) then Ok (i, rowStr)
  else
    match fuel with
    | O => Timeout
    | S fuel' =>
        if i <? Z.of_nat (List.length items) then
          match index items i with
          | Some item =>
              if itemWidth - len item <? 0 then Throw "RangeError"
              else
                let item :=
                  item ++ repeatSpace (Z.to_nat (itemWidth - len item)) in
                printColumns fuel' items itemWidth wideCols (col + 1) (i + 1)
                  (rowStr ++ item)
          | None => Throw "TypeError"
          end
        else printColumns fuel' items itemWidth wideCols (col + 1) i rowStr
    end.

(** The outer loop of [printWide], from row [row] on. *)
Fixpoint printRows (fuel : nat) (items : list string)
  (itemWidth : Z) (wideCols wideRows : jsnum) (row i : Z)
  (s : LocalEchoController) : result LocalEchoController :=
  if negb (ltNum row wideRows) then Ok s
  else
    match fuel with
    | O => Timeout
    | S fuel' =>
        r <- printColumns fuel' items itemWidth wideCols 0 i "" ;;
        printRows fuel' items itemWidth wideCols wideRows (row + 1) (fst r)
          (println (snd r) s)
    end.

Definition printWide (fuel : nat) (items : list string) (padding : Z)
  (s : LocalEchoController) : result LocalEchoController :=
  if Z.of_nat (List.length items) =? 0 then Ok (println "" s)
  else
    let itemWidth :=
      fold_left (fun width item => Z.max width (len item)) items 0 + padding in
    let wideCols := floorDiv (cols (_termSize s)) itemWidth in
    let wideRows := ceilDiv (Z.of_nat (List.length items)) wideCols in
    printRows fuel items itemWidth wideCols wideRows 0 0 s.

Definition applyPrompts (input : string) (s : LocalEchoController) : string :=
  let prompt_ :=
    match _activePrompt s with Some a => prompt a | None => "" end in
  let continuationPrompt_ :=
    match _activePrompt s with Some a => continuationPrompt a | None => "" end in
  prompt_ ++ replaceLF input (chr LF ++ continuationPrompt_).

Definition applyPromptOffset (input : string) (offset : Z)
  (s : LocalEchoController) : Z :=
  let newInput := applyPrompts (substr input 0 (Some offset)) s in
  len newInput.

Definition clearInput (s : LocalEchoController) : LocalEchoController :=
  let currentPrompt := applyPrompts (_input s) s in
  let allRows := countLines currentPrompt (cols (_termSize s)) in
  let promptCursor := applyPromptOffset (_input s) (_cursor s) s in
  let pos := offsetToColRow currentPrompt promptCursor (cols (_termSize s)) in
  let moveRows := allRows - row pos - 1 in
  let s := writeTimes moveRows (chr ESC ++ "[E") s in
  let s := write (chr CR ++ chr ESC ++ "[K") s in
  writeTimes (allRows - 1) (chr ESC ++ "[F" ++ chr ESC ++ "[K") s.

Definition setInput (newInput : string) (clearInput_ : bool)
  (s : LocalEchoController) : LocalEchoController :=
  let s := if clearInput_ then clearInput s else s in
  let newPrompt := applyPrompts newInput s in
  let s := print newPrompt s in
  let s := if _cursor s >? len newInput then set_cursor (len newInput) s else s in
  let newCursor := applyPromptOffset newInput (_cursor s) s in
  let newLines := countLines newPrompt (cols (_termSize s)) in
  let pos := offsetToColRow newPrompt newCursor (cols (_termSize s)) in
  let moveUpRows := newLines - row pos - 1 in
  let s := write (chr CR) s in
  let s := writeTimes moveUpRows (chr ESC ++ "[F") s in
  let s := writeTimes (col pos) (chr ESC ++ "[C") s in
  set_input newInput s.

Definition setCursor (newCursor : Z) (s : LocalEchoController)
  : LocalEchoController :=
  let newCursor := if newCursor <? 0 then 0 else newCursor in
  let newCursor :=
    if newCursor >? len (_input s) then len (_input s) else newCursor in
  let inputWithPrompt := applyPrompts (_input s) s in
  let prevPromptOffset := applyPromptOffset (_input s) (_cursor s) s in
  let prev := offsetToColRow inputWithPrompt prevPromptOffset (cols (_termSize s)) in
  let newPromptOffset := applyPromptOffset (_input s) newCursor s in
  let new := offsetToColRow inputWithPrompt newPromptOffset (cols (_termSize s)) in
  let s :=
    if row new >? row prev
    then writeTimes (row new - row prev) (chr ESC ++ "[B") s
    else writeTimes (row prev - row new) (chr ESC ++ "[A") s in
  let s :=
    if col new >? col prev
    then writeTimes (col new - col prev) (chr ESC ++ "[C") s
    else writeTimes (col prev - col new) (chr ESC ++ "[D") s in
  set_cursor newCursor s.

(** The [resume] closure of [printAndRestartPrompt]. *)
Definition resume (cursor : Z) (s : LocalEchoController) : LocalEchoController :=
  let s := set_cursor cursor s in
  setInput (_input s) true s.

(** The two callbacks that the TAB handler passes to
    [printAndRestartPrompt]. *)
Inductive Callback : Type :=
| PrintCandidates (candidates : list string)
| ConfirmThenPrint (candidates : list string).

Definition confirmQuestion (candidates : list string) : string :=
  "Display all " ++ NilZero.string_of_uint (Nat.to_uint (List.length candidates))
  ++ " possibilities? (y or n)".

(** [printAndRestartPrompt]: a callback that returns nothing is followed by
    [resume] at once; the promise of the other one gets [resume] chained. *)
Definition printAndRestartPrompt (fuel : nat) (callback : Callback)
  (s : LocalEchoController) : result LocalEchoController :=
  let cursor := _cursor s in
  let s := setCursor (len (_input s)) s in
  let s := write (chr CR ++ chr LF) s in
  match callback with
  | PrintCandidates candidates =>
      s <- printWide fuel candidates 2 s ;;
      Ok (resume cursor s)
  | ConfirmThenPrint candidates =>
      let '(p, s) := readChar (confirmQuestion candidates) s in
      Ok (set_reactions (reactions s ++ [(p, DisplayAll candidates cursor)])%list s)
  end.

Definition handleCursorMove (dir : Z) (s : LocalEchoController) :=
  if dir >? 0 then
    let num := Z.min dir (len (_input s) - _cursor s) in
    setCursor (_cursor s + num) s
  else if dir <? 0 then
    let num := Z.max dir (- _cursor s) in
    setCursor (_cursor s + num) s
  else s.

Definition handleCursorErase (backspace : bool) (s : LocalEchoController) :=
  let cursor := _cursor s in
  let input := _input s in
  if backspace then
    if cursor <=? 0 then s
    else
      let newInput :=
        substr input 0 (Some (cursor - 1)) ++ substr input cursor None in
      let s := clearInput s in
      let s := set_cursor (_cursor s - 1) s in
      setInput newInput false s
  else
    let newInput :=
      substr input 0 (Some cursor) ++ substr input (cursor + 1) None in
    setInput newInput true s.

Definition handleCursorInsert (data : string) (s : LocalEchoController) :=
  let cursor := _cursor s in
  let input := _input s in
  let newInput :=
    substr input 0 (Some cursor) ++ data ++ substr input cursor None in
  let s := set_cursor (_cursor s + len data) s in
  setInput newInput true s.

Definition handleReadComplete (s : LocalEchoController) :=
  let s := set_history (History.push (_input s) (history s)) s in
  let s :=
    match _activePrompt s with
    | Some a =>
        set_activePrompt None (settle (linePromise a) (Resolved (_input s)) s)
    | None => s
    end in
  let s := write (chr CR ++ chr LF) s in
  set_active false s.

Definition handleTermResize (rows_ cols_ : Z) (s : LocalEchoController) :=
  let s := clearInput s in
  let s := set_termSize {| cols := cols_; rows := rows_ |} s in
  setInput (_input s) false s.

(** The ANSI escape sequences, after the escape character. *)
Definition handleEscape (seq : string) (s : LocalEchoController)
  : LocalEchoController :=
  if String.eqb seq "[A" then
    let '(value, h) := History.getPrevious (history s) in
    let s := set_history h s in
    match value with
    | Some v =>
        if String.eqb v "" then s
        else setCursor (len v) (setInput v true s)
    | None => s
    end
  else if String.eqb seq "[B" then
    let '(value, h) := History.getNext (history s) in
    let s := set_history h s in
    let value := match value with Some v => v | None => "" end in
    setCursor (len value) (setInput value true s)
  else if String.eqb seq "[D" then handleCursorMove (-1) s
  else if String.eqb seq "[C" then handleCursorMove 1 s
  else if String.eqb seq "[3~" then handleCursorErase false s
  else if String.eqb seq "[F" then setCursor (len (_input s)) s
  else if String.eqb seq "[H" then setCursor 0 s
  else if String.eqb seq "b" then
    let ofs := closestLeftBoundary (_input s) (_cursor s) in
    setCursor ofs s
  else if String.eqb seq "f" then
    let ofs := closestRightBoundary (_input s) (_cursor s) in
    setCursor ofs s
  else if String.eqb seq (chr DEL) then
    let ofs := closestLeftBoundary (_input s) (_cursor s) in
    let s :=
      setInput (substr (_input s) 0 (Some ofs) ++ substr (_input s) (_cursor s) None)
        true s in
    setCursor ofs s
  else s.

(** CTRL+C *)
Definition handleInterrupt (s : LocalEchoController) : LocalEchoController :=
  let s := setCursor (len (_input s)) s in
  let s :=
    write ("^C" ++ chr CR ++ chr LF ++
           match _activePrompt s with Some a => prompt a | None => "" end) s in
  let s := set_input "" s in
  let s := set_cursor 0 s in
  set_history (History.rewind (history s)) s.

(** A string is truthy unless it is empty; [null] is not. *)
Definition truthy (x : option string) : bool :=
  match x with
  | Some v => negb (String.eqb v "")
  | None => false
  end.

Section WithParse.

Variable parse : string -> list string.

(** TAB *)
Definition handleTab (fuel : nat) (s : LocalEchoController)
  : result LocalEchoController :=
  if Z.of_nat (List.length (_autocompleteHandlers s)) >? 0 then
    let inputFragment := substr (_input s) 0 (Some (_cursor s)) in
    let hasTailingSpace := hasTailingWhitespace inputFragment in
    let candidates :=
      sort (collectAutocompleteCandidates parse (_autocompleteHandlers s)
              inputFragment) in
    if Z.of_nat (List.length candidates) =? 0 then
      if negb hasTailingSpace then Ok (handleCursorInsert " " s) else Ok s
    else if Z.of_nat (List.length candidates) =? 1 then
      let lastToken := getLastToken parse inputFragment in
      match index candidates 0 with
      | Some c0 =>
          Ok (handleCursorInsert (substr c0 (len lastToken) None ++ " ") s)
      | None => Throw "TypeError"
      end
    else if Z.of_nat (List.length candidates) <=? maxAutocompleteEntries s then
      sharedFragment <- getSharedFragment inputFragment candidates ;;
      let s :=
        if truthy sharedFragment then
          let lastToken := getLastToken parse inputFragment in
          match sharedFragment with
          | Some shared =>
              handleCursorInsert (substr shared (len lastToken) None) s
          | None => s
          end
        else s in
      printAndRestartPrompt fuel (PrintCandidates candidates) s
    else
      printAndRestartPrompt fuel (ConfirmThenPrint candidates) s
  else Ok (handleCursorInsert "    " s).

Definition handleData (fuel : nat) (data : string) (s : LocalEchoController)
  : result LocalEchoController :=
  if negb (_active s) then Ok s
  else
    let ord := charCodeAt0 data in
    if match ord with Some o => o =? 27 | None => false end then
      Ok (handleEscape (substr data 1 None) s)
    else if match ord with Some o => (o <? 32) || (o =? 127) | None => false end
    then
      if String.eqb data (chr CR) then
        if isIncompleteInput (_input s)
        then Ok (handleCursorInsert (chr LF) s)
        else Ok (handleReadComplete s)
      else if String.eqb data (chr DEL) then Ok (handleCursorErase true s)
      else if String.eqb data (chr TAB) then handleTab fuel s
      else if String.eqb data (chr ETX) then Ok (handleInterrupt s)
      else Ok s
    else Ok (handleCursorInsert data s).

(** [forEach((c) => this.handleData(c))] *)
Fixpoint handleEach (fuel : nat) (pieces : list string)
  (s : LocalEchoController) : result LocalEchoController :=
  match pieces with
  | [] => Ok s
  | c :: rest => s <- handleData fuel c s ;; handleEach fuel rest s
  end.

(** The reactions chained on promise [p] run once it is resolved with
    [value], after the handler that resolved it has returned. *)
Fixpoint runReactions (fuel : nat) (p : nat) (value : string)
  (pending : list (nat * Reaction)) (s : LocalEchoController)
  : result LocalEchoController :=
  match pending with
  | [] => Ok s
  | (q, DisplayAll candidates cursor) :: rest =>
      if Nat.eqb q p then
        s <- (if String.eqb value "y" || String.eqb value "Y"
              then printWide fuel candidates 2 s else Ok s) ;;
        runReactions fuel p value rest (resume cursor s)
      else runReactions fuel p value rest s
  end.

Definition handleTermData (fuel : nat) (data : string)
  (s : LocalEchoController) : result LocalEchoController :=
  if negb (_active s) then Ok s
  else
    match _activeCharPrompt s with
    | Some a =>
        let s := settle (charPromise a) (Resolved data) s in
        let s := set_activeCharPrompt None s in
        let s := write (chr CR ++ chr LF) s in
        let pending := reactions s in
        let s :=
          set_reactions
            (filter (fun r => negb (Nat.eqb (fst r) (charPromise a))) pending) s in
        runReactions fuel (charPromise a) data pending s
    | None =>
        if (len data >? 3)
           && negb (match charCodeAt0 data with
                    | Some o => o =? 27
                    | None => false
                    end)
        then
          let normData := replaceNewlineRuns data (chr CR) in
          handleEach fuel (chars normData) s
        else handleData fuel data s
    end.

(** The data chunks that the terminal delivers, one after the other. *)
Fixpoint deliver (fuel : nat) (chunks : list string)
  (s : LocalEchoController) : result LocalEchoController :=
  match chunks with
  | [] => Ok s
  | data :: rest => s <- handleTermData fuel data s ;; deliver fuel rest s
  end.

(** What happens to a controller: the calls of its client and the events
    of the terminal. *)
Inductive Call : Type :=
| CallRead (prompt_ continuationPrompt_ : string)
| CallReadChar (prompt_ : string)
| CallAbortRead (reason : string)
| CallPrint (message : string)
| CallPrintln (message : string)
| CallPrintWide (items : list string) (padding : Z)
| CallAddAutocompleteHandler (h : AutocompleteHandler)
| CallRemoveAutocompleteHandler (id : nat)
| TermData (data : string)
| TermResize (rows_ cols_ : Z).

Definition perform (fuel : nat) (call : Call) (s : LocalEchoController)
  : result LocalEchoController :=
  match call with
  | CallRead p c => Ok (snd (read p c s))
  | CallReadChar p => Ok (snd (readChar p s))
  | CallAbortRead reason => Ok (abortRead reason s)
  | CallPrint message => Ok (print message s)
  | CallPrintln message => Ok (println message s)
  | CallPrintWide items padding => printWide fuel items padding s
  | CallAddAutocompleteHandler h => Ok (addAutocompleteHandler h s)
  | CallRemoveAutocompleteHandler id => Ok (removeAutocompleteHandler id s)
  | TermData data => handleTermData fuel data s
  | TermResize rows_ cols_ => Ok (handleTermResize rows_ cols_ s)
  end.

Fixpoint performAll (fuel : nat) (calls : list Call) (s : LocalEchoController)
  : result LocalEchoController :=
  match calls with
  | [] => Ok s
  | call :: rest => s <- perform fuel call s ;; performAll fuel rest s
  end.

End WithParse.

End Engine.

(* ===================================================================== *)
(** * The notions of the specification and the examples                    *)
(* ===================================================================== *)

Module Spec.
Import JS Utils Engine.

(** ** Utilities *)

(** The conditions of the specification, in its words. *)
Definition blankInput (input : string) : Prop := trim input = "".

Definition oddNumberOf (c : ascii) (input : string) : Prop :=
  Nat.Odd (count_occ ascii_dec (list_ascii_of_string input) c).

Definition emptyTrailingSegment (input : string) : Prop :=
  exists segments seg,
    splitOperators "" input = (segments ++ [seg])%list /\ trim seg = "".

(** A backslash at the end that is not preceded by another one. *)
Definition unescapedTrailingBackslash (input : string) : Prop :=
  (exists pre, input = pre ++ "\") /\ ~ (exists pre, input = pre ++ "\\").

(** The last line of an input: what follows its last line terminator. *)
Fixpoint lastLineFrom (cur : string) (s : string) : string :=
  match s with
  | EmptyString => cur
  | String c s' =>
      if isNewline c then lastLineFrom EmptyString s'
      else lastLineFrom (cur ++ chr c) s'
  end.

Definition lastLine (input : string) : string := lastLineFrom "" input.

(** The text ends in a space or a tab that a character other than a
    backslash precedes. *)
Fixpoint endsInUnescapedBlank (l : string) : bool :=
  match l with
  | String a ((String b rest) as l') =>
      match rest with
      | EmptyString => negb (Ascii.eqb a BACKSLASH) && isSpaceOrTab b
      | String _ _ => endsInUnescapedBlank l'
      end
  | _ => false
  end.

Fixpoint noLineTerminator (s : string) : bool :=
  match s with
  | EmptyString => true
  | String c s' => negb (isNewline c) && noLineTerminator s'
  end.

(** The position of [offsetLoop] written with the number [k] of characters
    since the last line feed and the row [b] that line started on. *)
Definition tracks (m b k r c : Z) : Prop :=
  r = b + k / (m + 1) /\ c = k mod (m + 1).

(** The [reduce] of [collectAutocompleteCandidates]. *)
Definition gather (index : Z) (tokens : list string)
  (callbacks : list AutocompleteHandler) (start : list string) : list string :=
  fold_left
    (fun candidates h =>
       match fn h index tokens with
       | Some found => (candidates ++ found)%list
       | None => candidates
       end)
    callbacks start.

(** ** History *)

(** The entries once [entry] is stored in a history of capacity [n]:
    appended, and the oldest entry dropped on overflow. *)
Definition stored (n : Z) (old : list string) (entry : string) : list string :=
  if Z.of_nat (List.length old) + 1 >? n
  then List.tl (old ++ [entry])%list
  else (old ++ [entry])%list.

(** The browse cursor lies between 0 and the number of entries. *)
Definition cursorInRange (h : History.HistoryController) : Prop :=
  0 <= History.cursor h <= Z.of_nat (List.length (History.entries h)).

(** [k] calls of [getPrevious], resp. [getNext], in a row. *)
Definition previousTimes (k : nat) (h : History.HistoryController)
  : History.HistoryController :=
  Nat.iter k (fun h => snd (History.getPrevious h)) h.

Definition nextTimes (k : nat) (h : History.HistoryController)
  : History.HistoryController :=
  Nat.iter k (fun h => snd (History.getNext h)) h.

(** No entry equals the entry before it. *)
Fixpoint noAdjacentDuplicates (l : list string) : Prop :=
  match l with
  | a :: ((b :: _) as t) => a <> b /\ noAdjacentDuplicates t
  | _ => True
  end.

(** What the entries of a history of capacity [n] satisfy. *)
Definition healthyEntries (n : Z) (l : list string) : Prop :=
  Forall (fun e => trim e <> "") l /\
  noAdjacentDuplicates l /\
  Z.of_nat (List.length l) <= Z.max 0 n.

(** ** Engine *)

(** A tokenizer for the examples: the words between spaces, which is what
    [parse] gives on plain words separated by spaces. *)
Fixpoint splitSpaces (cur : string) (s : string) : list string :=
  match s with
  | EmptyString => if String.eqb cur "" then [] else [cur]
  | String c s' =>
      if Ascii.eqb c SPACE
      then (if String.eqb cur "" then splitSpaces "" s'
            else cur :: splitSpaces "" s')
      else splitSpaces (cur ++ chr c) s'
  end.

Definition words (input : string) : list string := splitSpaces "" input.

(** A terminal of 80 columns and 24 rows that has received nothing yet. *)
Definition xterm : Terminal :=
  {| termCols := 80; termRows := 24; written := [] |}.

(** The claim about [readChar]: the chunk that follows the call resolves
    the promise of the call and clears the char prompt. *)
Definition resolvedByNextChunk (parse : string -> list string)
  (s : LocalEchoController) (prompt_ data : string) : Prop :=
  let p := fst (readChar prompt_ s) in
  let s1 := snd (readChar prompt_ s) in
  exists fuel s2,
    handleTermData parse fuel data s1 = Ok s2 /\
    In (p, Resolved data) (settled s2) /\
    _activeCharPrompt s2 = None.

(** No reaction is chained on a promise that does not exist yet. *)
Definition reactionsOnCreated (s : LocalEchoController) : Prop :=
  Forall (fun r => (fst r < promises s)%nat) (reactions s).

(** The width of a column: the longest item plus the padding. *)
Definition columnWidth (items : list string) (padding : Z) : Z :=
  fold_left (fun width item => Z.max width (len item)) items 0 + padding.

(** A terminal of 4 columns. *)
Definition narrowTerm : Terminal :=
  {| termCols := 4; termRows := 24; written := [] |}.

(** An item filled with spaces up to the column width. *)
Definition padItem (w : Z) (item : string) : string :=
  item ++ repeatSpace (Z.to_nat (w - len item)).

(** The text of a row. *)
Definition rowText (w : Z) (r : list string) : string :=
  fold_left (fun acc item => acc ++ padItem w item) r "".

(** The items cut in rows of [c] items (of one item if [c] is 0), the last
    row holding what remains. *)
Equations? grid (c : nat) (items : list string) : list (list string)
  by wf (List.length items) lt :=
grid c [] := [];
grid c (x :: l) :=
  firstn (Nat.max 1 c) (x :: l) :: grid c (skipn (Nat.max 1 c) (x :: l)).
Proof.
  rewrite length_skipn. simpl List.length. destruct c; lia.
Qed.

(** A handler that offers [help] and [hello] for every token. *)
Definition helpHandler : AutocompleteHandler :=
  {| fnId := 0; fn := fun _ _ => Some ["help"; "hello"] |}.

(** A terminal of 6 columns, on which a line is being read with the
    handler above, and the user has typed [he]. *)
Definition smallTerm : Terminal :=
  {| termCols := 6; termRows := 24; written := [] |}.

Definition readingOnSmallTerm : LocalEchoController :=
  snd (read "$ " "> "
         (addAutocompleteHandler helpHandler
            (constructor (Some smallTerm) None None))).

Definition typedHe : LocalEchoController :=
  handleCursorInsert "e" (handleCursorInsert "h" readingOnSmallTerm).

(** A handler for the sub-commands of [git]. *)
Definition gitHandler : AutocompleteHandler :=
  {| fnId := 1; fn := fun _ _ => Some ["status"; "stash"; "show"] |}.

Definition typedGitSt : LocalEchoController :=
  handleCursorInsert "git st"
    (snd (read "$ " "> "
            (addAutocompleteHandler gitHandler
               (constructor (Some xterm) None None)))).

(** The same with at most one candidate listed without asking. *)
Definition typedGitStAsking : LocalEchoController :=
  handleCursorInsert "git st"
    (snd (read "$ " "> "
            (addAutocompleteHandler gitHandler
               (constructor (Some xterm) None (Some 1))))).

(** The continuation prompt of the line read in flight holds no [$], the
    character that starts a pattern in the replacement text of
    [replace]. *)
Definition plainContinuation (s : LocalEchoController) : Prop :=
  match _activePrompt s with
  | Some a => countMatches DOLLAR (continuationPrompt a) = 0%nat
  | None => True
  end.

(** The controller without its terminal. *)
Definition rest (s : LocalEchoController) : LocalEchoController :=
  set_term None s.

(** The terminal once it has received one more text. *)
Definition received (text : string) (t : Terminal) : Terminal :=
  {| termCols := termCols t; termRows := termRows t;
     written := (written t ++ [text])%list |}.

(** The cursor that [setCursor] sets. *)
Definition clampCursor (newCursor : Z) (s : LocalEchoController) : Z :=
  let newCursor := if newCursor <? 0 then 0 else newCursor in
  if newCursor >? len (_input s) then len (_input s) else newCursor.

(** A view of the controller that neither the terminal nor the input, the
    cursor and the history enter. *)
Record Kept {A : Type} (f : LocalEchoController -> A) : Prop := {
  kept_rest : forall s, f s = f (rest s);
  kept_cursor : forall v s, f (set_cursor v s) = f s;
  kept_input : forall v s, f (set_input v s) = f s;
  kept_history : forall v s, f (set_history v s) = f s
}.

(** The promises created and the reactions chained on them. *)
Definition ledger (s : LocalEchoController) : nat * list (nat * Reaction) :=
  (promises s, reactions s).

(** Whether the engine is active, and the line read in flight. *)
Definition mode (s : LocalEchoController) : bool * option ActivePrompt :=
  (_active s, _activePrompt s).

(** The engine is active exactly while a line read is in flight. *)
Definition activeWhileReading (s : LocalEchoController) : Prop :=
  (_active s = true /\ _activePrompt s <> None) \/
  (_active s = false /\ _activePrompt s = None).

(** The cursor is an offset of the input buffer. *)
Definition cursorInBuffer (s : LocalEchoController) : Prop :=
  0 <= _cursor s <= len (_input s).

(** The cursors saved in the pending reactions are not negative. *)
Definition savedCursors (s : LocalEchoController) : Prop :=
  Forall (fun r => match snd r with DisplayAll _ c => 0 <= c end)
    (reactions s).

Definition inputState (s : LocalEchoController) : Prop :=
  cursorInBuffer s /\ savedCursors s.

(** Line editing is reached: the engine is active and no char prompt is
    pending. *)
Definition editing (s : LocalEchoController) : Prop :=
  _active s = true /\ _activeCharPrompt s = None.

(** The input with [data] inserted at the cursor. *)
Definition inserted (data : string) (s : LocalEchoController) : string :=
  substr (_input s) 0 (Some (_cursor s)) ++ data
  ++ substr (_input s) (_cursor s) None.

(** The controller with another input and cursor, without its terminal. *)
Definition edited (input : string) (cursor : Z) (s : LocalEchoController)
  : LocalEchoController :=
  rest (set_input input (set_cursor cursor s)).

(** Only the terminal and the cursor change, the cursor to [cursor]. *)
Definition movesCursorTo (cursor : Z) (s s' : LocalEchoController) : Prop :=
  rest s' = edited (_input s) cursor s.

(** An example: a line [git status] is being read on an
    80-column terminal, with the cursor at its end. *)
Definition typedGitStatus : LocalEchoController :=
  handleCursorInsert "git status"
    (snd (read "$ " "> " (constructor (Some xterm) None None))).

(** The answers on which the candidates are listed. *)
Definition yes (answer : string) : bool :=
  String.eqb answer "y" || String.eqb answer "Y".

(** The controller once a promise has been created and resolved with
    [answer]. *)
Definition answered (answer : string) (s : LocalEchoController)
  : LocalEchoController :=
  set_settled (settled s ++ [(promises s, Resolved answer)])%list
    (set_promises (S (promises s)) s).

(** The controller with other promise records, which drawing on the
    terminal does not read. *)
Definition bookkeeping (r : list (nat * Reaction)) (a : option ActiveCharPrompt)
  (l : list (nat * Settlement)) (s : LocalEchoController) : LocalEchoController :=
  set_reactions r (set_activeCharPrompt a (set_settled l s)).

(** The rows printed one after the other with [println]. *)
Definition listed (w : Z) (rows : list (list string)) (s : LocalEchoController)
  : LocalEchoController :=
  fold_left (fun s r => println (rowText w r) s) rows s.

(** A character that is neither a control character nor DEL. *)
Definition printableChar (c : ascii) : bool :=
  (32 <=? nat_of_ascii c)%nat && negb (Nat.eqb (nat_of_ascii c) 127).

Fixpoint printable (s : string) : bool :=
  match s with
  | EmptyString => true
  | String c s' => printableChar c && printable s'
  end.

(** What holds of a controller whatever its client and its terminal do. *)
Definition wellFormed (s : LocalEchoController) : Prop :=
  activeWhileReading s /\ reactionsOnCreated s.

Section WithParse.

Variable parse : string -> list string.

(** The input up to the cursor and the sorted candidates for it. *)
Definition inputFragment (s : LocalEchoController) : string :=
  substr (_input s) 0 (Some (_cursor s)).

Definition tabCandidates (s : LocalEchoController) : list string :=
  sort (collectAutocompleteCandidates parse (_autocompleteHandlers s)
          (inputFragment s)).

(** The text that TAB inserts when there are several candidates: the shared
    fragment from the length of the last token on, if the shared fragment
    is a string that is not empty. *)
Definition tabInsertion (s : LocalEchoController) : option string :=
  match getSharedFragment (inputFragment s) (tabCandidates s) with
  | Ok (Some shared) =>
      if String.eqb shared "" then None
      else Some (substr shared (len (getLastToken parse (inputFragment s))) None)
  | _ => None
  end.

Definition afterInsertion (s : LocalEchoController) : LocalEchoController :=
  match tabInsertion s with
  | Some text => handleCursorInsert text s
  | None => s
  end.

(** TAB is pressed while a line is read, with a handler registered, and
    gives between 2 and [maxAutocompleteEntries] candidates. *)
Definition severalCandidates (s : LocalEchoController) : Prop :=
  _active s = true /\
  _autocompleteHandlers s <> [] /\
  2 <= Z.of_nat (List.length (tabCandidates s)) <= maxAutocompleteEntries s.

(** TAB is pressed while a line is read, with a handler registered, and
    gives at least two candidates and more than [maxAutocompleteEntries]. *)
Definition manyCandidates (s : LocalEchoController) : Prop :=
  _active s = true /\
  _autocompleteHandlers s <> [] /\
  2 <= Z.of_nat (List.length (tabCandidates s)) /\
  maxAutocompleteEntries s < Z.of_nat (List.length (tabCandidates s)).

(** The text and the place of the cursor once TAB has inserted what the
    candidates share. *)
Definition insertedText (s : LocalEchoController) : string :=
  match tabInsertion s with Some text => text | None => "" end.

End WithParse.

End Spec.

(* ===================================================================== *)
(** * Theorems                                                            *)
(* ===================================================================== *)

Module UtilsFacts.
Import JS Utils Spec.

(** One more character on a line that holds [k] characters already, at wrap
    width [m]: the column either advances or wraps to a new row. *)
Lemma wrap_step (m k : Z) :
  0 <= m -> 0 <= k ->
  if (k mod (m + 1) + 1 >? m)
  then (k + 1) / (m + 1) = k / (m + 1) + 1 /\ (k + 1) mod (m + 1) = 0
  else (k + 1) / (m + 1) = k / (m + 1) /\ (k + 1) mod (m + 1) = k mod (m + 1) + 1.
Proof.
  intros Hm Hk.
  pose proof (Z.div_mod k (m + 1) ltac:(lia)) as Hdm.
  pose proof (Z.mod_pos_bound k (m + 1) ltac:(lia)) as Hb.
  destruct (k mod (m + 1) + 1 >? m) eqn:E.
  - apply Z.gtb_lt in E.
    assert (Hr : k mod (m + 1) = m) by lia.
    split.
    + symmetry. apply (Z.div_unique _ _ _ 0); lia.
    + symmetry. apply (Z.mod_unique _ _ (k / (m + 1) + 1)); lia.
  - assert (Hr : k mod (m + 1) + 1 <= m).
    { destruct (Z.gtb_spec (k mod (m + 1) + 1) m); [discriminate | lia]. }
    split.
    + symmetry. apply (Z.div_unique _ _ _ (k mod (m + 1) + 1)); lia.
    + symmetry. apply (Z.mod_unique _ _ (k / (m + 1))); lia.
Qed.

Lemma tracks_start (m r : Z) : 0 <= m -> tracks m r 0 r 0.
Proof.
  intros Hm. unfold tracks.
  rewrite Z.div_0_l, Z.mod_0_l by lia. lia.
Qed.

Lemma offsetLoop_mono (n : nat) :
  forall input m1 m2 b1 b2 k r1 c1 r2 c2,
    0 < m2 <= m1 -> 0 <= k -> b1 <= b2 ->
    tracks m1 b1 k r1 c1 -> tracks m2 b2 k r2 c2 ->
    row (offsetLoop n input m1 r1 c1) <= row (offsetLoop n input m2 r2 c2).
Proof.
  induction n as [|n IH]; intros input m1 m2 b1 b2 k r1 c1 r2 c2 Hm Hk Hb T1 T2.
  - simpl. destruct T1 as [-> _], T2 as [-> _].
    assert (k / (m1 + 1) <= k / (m2 + 1)) by (apply Z.div_le_compat_l; lia).
    lia.
  - assert (Hrows : r1 <= r2).
    { destruct T1 as [-> _], T2 as [-> _].
      assert (k / (m1 + 1) <= k / (m2 + 1)) by (apply Z.div_le_compat_l; lia).
      lia. }
    cbn [offsetLoop].
    set (rest := match input with String _ r => r | EmptyString => EmptyString end).
    destruct (match input with String c _ => Ascii.eqb c LF | EmptyString => false end).
    + apply (IH rest m1 m2 (r1 + 1) (r2 + 1) 0); try lia;
        apply tracks_start; lia.
    + pose proof (wrap_step m1 k ltac:(lia) Hk) as W1.
      pose proof (wrap_step m2 k ltac:(lia) Hk) as W2.
      destruct T1 as [-> ->], T2 as [-> ->].
      destruct (k mod (m1 + 1) + 1 >? m1), (k mod (m2 + 1) + 1 >? m2);
        destruct W1 as [Wd1 Wm1], W2 as [Wd2 Wm2].
      * apply (IH rest m1 m2 (b1 + k / (m1 + 1) + 1) (b2 + k / (m2 + 1) + 1) 0);
          try lia; apply tracks_start; lia.
      * apply (IH rest m1 m2 b1 b2 (k + 1)); try lia; unfold tracks.
        -- rewrite Wd1, Wm1. lia.
        -- rewrite Wd2, Wm2. lia.
      * apply (IH rest m1 m2 b1 b2 (k + 1)); try lia; unfold tracks.
        -- rewrite Wd1, Wm1. lia.
        -- rewrite Wd2, Wm2. lia.
      * apply (IH rest m1 m2 b1 b2 (k + 1)); try lia; unfold tracks.
        -- rewrite Wd1, Wm1. lia.
        -- rewrite Wd2, Wm2. lia.
Qed.

Lemma offsetLoop_row_lower (n : nat) :
  forall input m r c, r <= row (offsetLoop n input m r c).
Proof.
  induction n as [|n IH]; intros input m r c; cbn [offsetLoop].
  - simpl. lia.
  - destruct (match input with String c0 _ => Ascii.eqb c0 LF | EmptyString => false end).
    + etransitivity; [|apply IH]. lia.
    + destruct (c + 1 >? m).
      * etransitivity; [|apply IH]. lia.
      * apply IH.
Qed.

(** C8. For every string [s] and every wrap width [maxCols > 0],
    [countLines s maxCols >= 1]; and a smaller width never gives fewer
    lines: for [0 < maxCols2 <= maxCols1],
    [countLines s maxCols2 >= countLines s maxCols1]. *)
Theorem countLines_positive_and_monotone (s : string) (maxCols1 maxCols2 : Z) :
  0 < maxCols2 <= maxCols1 ->
  countLines s maxCols1 >= 1 /\
  countLines s maxCols2 >= countLines s maxCols1.
Proof.
  intros Hm. unfold countLines, offsetToColRow. split.
  - pose proof (offsetLoop_row_lower (Z.to_nat (len s)) s maxCols1 0 0). lia.
  - pose proof (offsetLoop_mono (Z.to_nat (len s)) s maxCols1 maxCols2 0 0 0 0 0 0 0
                  Hm ltac:(lia) ltac:(lia)
                  (tracks_start maxCols1 0 ltac:(lia))
                  (tracks_start maxCols2 0 ltac:(lia))).
    lia.
Qed.

Lemma countLines_positive_and_monotone_witness :
  countLines "abcdefg" 5 >= 1 /\ countLines "abcdefg" 2 >= countLines "abcdefg" 5.
Proof.
  apply (countLines_positive_and_monotone "abcdefg" 5 2). lia.
Defined.

(** ** getSharedFragment *)

(** C2, as the claim states its second half: the result on
    ["cat"; "dog"] would be [null].  It is not: the loop returns the old
    fragment, the empty string. *)
Lemma getSharedFragment_cat_dog_is_not_null :
  getSharedFragment "" ["cat"; "dog"] <> Ok None.
Proof. vm_compute. discriminate. Qed.

(** C2, amended. [getSharedFragment "" ["list"; "load"; "ls"]] is ["l"] and
    [getSharedFragment "" ["cat"; "dog"]] is the empty string, not [null]. *)
Theorem getSharedFragment_examples :
  getSharedFragment "" ["list"; "load"; "ls"] = Ok (Some "l") /\
  getSharedFragment "" ["cat"; "dog"] = Ok (Some "").
Proof. split; vm_compute; reflexivity. Qed.

Lemma scanCandidates_common_prefix (old frag : string) (cs : list string) :
  Forall (fun c => startsWith c old = true) cs ->
  scanCandidates old frag cs <> Some None.
Proof.
  induction cs as [|c cs IH]; intros H; simpl; [discriminate|].
  inversion H as [|? ? Hc Hcs]; subst. rewrite Hc. simpl.
  destruct (startsWith c frag); simpl; [apply IH, Hcs | discriminate].
Qed.

Lemma scanCandidates_extends (old frag : string) (cs : list string) :
  scanCandidates old frag cs = None ->
  Forall (fun c => startsWith c frag = true) cs.
Proof.
  induction cs as [|c cs IH]; simpl; intros H; [constructor|].
  destruct (startsWith c old); simpl in H; [|discriminate].
  destruct (startsWith c frag) eqn:E; simpl in H; [|discriminate].
  constructor; [exact E | apply IH, H].
Qed.

(** [null] is only for a fragment that some candidate does not start with:
    on a fragment that is a prefix of every candidate the result is a
    string. *)
Lemma getSharedFragment_never_null (fragment : string) (candidates : list string) :
  candidates <> [] ->
  Forall (fun c => startsWith c fragment = true) candidates ->
  exists shared, getSharedFragment fragment candidates = Ok (Some shared).
Proof.
  funelim (getSharedFragment fragment candidates); intros Hne Hall.
  - contradiction.
  - eexists. reflexivity.
  - destruct r as [shared|]; [eexists; reflexivity|].
    exfalso. eapply scanCandidates_common_prefix; eauto.
  - match goal with IH : _ -> _ -> exists _, _ |- _ => apply IH end;
      [discriminate|].
    eapply scanCandidates_extends; eauto.
Qed.

(** ** isIncompleteInput *)

Lemma mod2_odd (n : nat) : Nat.eqb (n mod 2) 0 = false <-> Nat.Odd n.
Proof.
  pose proof (Nat.div_mod_eq n 2) as Hd.
  pose proof (Nat.mod_upper_bound n 2 ltac:(lia)) as Hb.
  rewrite Nat.eqb_neq. split.
  - intros H. exists (n / 2)%nat. lia.
  - intros [m Hm] H0. lia.
Qed.

Lemma countMatches_count_occ (c : ascii) (s : string) :
  countMatches c s = count_occ ascii_dec (list_ascii_of_string s) c.
Proof.
  induction s as [|d s IH]; simpl; [reflexivity|].
  rewrite IH. destruct (ascii_dec d c) as [->|Hn].
  - rewrite Ascii.eqb_refl. reflexivity.
  - destruct (Ascii.eqb_spec c d); [congruence | reflexivity].
Qed.

Lemma substring_all (p : string) : String.substring 0 (String.length p) p = p.
Proof. induction p as [|c p IH]; simpl; [reflexivity | now rewrite IH]. Qed.

Lemma substring_skip (pre p : string) :
  String.substring (String.length pre) (String.length p) (pre ++ p) = p.
Proof.
  induction pre as [|c pre IH]; simpl; [apply substring_all | exact IH].
Qed.

Lemma substring_split (s : string) :
  forall n m, (n + m = String.length s)%nat ->
    s = String.substring 0 n s ++ String.substring n m s.
Proof.
  induction s as [|c s IH]; intros n m H; simpl in H.
  - assert (n = 0%nat) by lia. assert (m = 0%nat) by lia. subst. reflexivity.
  - destruct n as [|n].
    + simpl in H. subst m. simpl. rewrite substring_all. reflexivity.
    + simpl. rewrite <- (IH n m) by lia. reflexivity.
Qed.

Lemma endsWith_suffix (s p : string) :
  endsWith s p = true <-> exists pre, s = pre ++ p.
Proof.
  unfold endsWith. rewrite andb_true_iff, Nat.leb_le, String.eqb_eq. split.
  - intros [Hl He].
    exists (String.substring 0 (String.length s - String.length p) s).
    pose proof (substring_split s (String.length s - String.length p)
                  (String.length p) ltac:(lia)) as H.
    rewrite He in H. exact H.
  - intros [pre ->]. rewrite length_append. split; [lia|].
    replace (String.length pre + String.length p - String.length p)%nat
      with (String.length pre) by lia.
    apply substring_skip.
Qed.

Lemma pop_last {A} (l : list A) (x : A) : pop (l ++ [x]) = Some x.
Proof.
  unfold pop. rewrite map_app. simpl. apply last_last.
Qed.

Lemma pop_inv {A} (l : list A) (x : A) :
  pop l = Some x -> exists l', l = (l' ++ [x])%list.
Proof.
  destruct l as [|a l] using rev_ind; [discriminate|].
  rewrite pop_last. intros [= ->]. eauto.
Qed.

Lemma emptyTrailingSegment_pop (input : string) :
  match pop (splitOperators "" input) with
  | Some seg => String.eqb (trim seg) ""
  | None => false
  end = true <-> emptyTrailingSegment input.
Proof.
  unfold emptyTrailingSegment. split.
  - destruct (pop (splitOperators "" input)) as [seg|] eqn:E; [|discriminate].
    intros H. apply String.eqb_eq in H.
    destruct (pop_inv _ _ E) as [l' Hl]. eauto.
  - intros (segments & seg & Hs & Ht).
    rewrite Hs, pop_last. apply String.eqb_eq, Ht.
Qed.

Lemma unescapedTrailingBackslash_endsWith (input : string) :
  endsWith input "\" && negb (endsWith input "\\") = true
  <-> unescapedTrailingBackslash input.
Proof.
  unfold unescapedTrailingBackslash.
  rewrite andb_true_iff, negb_true_iff, endsWith_suffix.
  rewrite <- not_true_iff_false, endsWith_suffix. reflexivity.
Qed.

(** C4. On an input that is not blank, [isIncompleteInput] is true exactly
    when the input has an odd number of single quotes, or an odd number of
    double quotes, or its split on [||], [|] and [&&] ends in a segment that
    trims to the empty string, or it ends with a backslash that no
    backslash precedes; on a blank input it is false.  It is true on
    [echo 'hello], [echo a &&] and [foo \] (one backslash), and false on
    [echo hello] and on [foo] followed by two backslashes. *)
Theorem isIncompleteInput_spec :
  (forall input : string,
     (blankInput input -> isIncompleteInput input = false) /\
     (~ blankInput input ->
      (isIncompleteInput input = true <->
       oddNumberOf QUOTE input \/ oddNumberOf DQUOTE input \/
       emptyTrailingSegment input \/ unescapedTrailingBackslash input))) /\
  isIncompleteInput "echo 'hello" = true /\
  isIncompleteInput "echo a &&" = true /\
  isIncompleteInput "foo \" = true /\
  isIncompleteInput "echo hello" = false /\
  isIncompleteInput "foo \\" = false.
Proof.
  split; [|repeat split; vm_compute; reflexivity].
  intros input. unfold blankInput, oddNumberOf, isIncompleteInput. split.
  - intros ->. reflexivity.
  - intros Hb. apply String.eqb_neq in Hb. rewrite Hb.
    rewrite <- !countMatches_count_occ, <- !mod2_odd.
    rewrite <- emptyTrailingSegment_pop, <- unescapedTrailingBackslash_endsWith.
    destruct (Nat.eqb (countMatches QUOTE input mod 2) 0); cbn [negb];
      [|intuition congruence].
    destruct (Nat.eqb (countMatches DQUOTE input mod 2) 0); cbn [negb];
      [|intuition congruence].
    destruct (match pop (splitOperators "" input) with
              | Some seg => String.eqb (trim seg) ""
              | None => false
              end); intuition congruence.
Qed.

Lemma isIncompleteInput_spec_witness :
  isIncompleteInput "ls |" = true /\ isIncompleteInput "   " = false.
Proof.
  destruct isIncompleteInput_spec as [H _]. split.
  - apply (proj2 (H "ls |")); [vm_compute; discriminate|].
    right. right. left. exists ["ls "; "|"], "". split; reflexivity.
  - apply (proj1 (H "   ")). reflexivity.
Defined.

(** ** hasTailingWhitespace *)

(** On an input of one line the pattern tests the end of the input. *)
Lemma hasTailingWhitespace_one_line (input : string) :
  noLineTerminator input = true ->
  hasTailingWhitespace input = endsInUnescapedBlank input.
Proof.
  induction input as [|a s IH]; [reflexivity|].
  intros H. simpl in H. apply andb_true_iff in H. destruct H as [_ Hs].
  specialize (IH Hs).
  destruct s as [|b rest]; [reflexivity|].
  cbn [hasTailingWhitespace endsInUnescapedBlank] in *.
  destruct rest as [|c r].
  - simpl. rewrite andb_true_r, orb_false_r. reflexivity.
  - rewrite <- IH.
    simpl in Hs. apply andb_true_iff in Hs. destruct Hs as [_ Hs].
    apply andb_true_iff in Hs. destruct Hs as [Hc _].
    apply negb_true_iff in Hc. cbn [atLineEnd]. rewrite Hc.
    rewrite andb_false_r. reflexivity.
Qed.

(** C7, the input on which the code leaves the claim: the first line of
    [ls ], line feed, [cat] ends in a space, the last line [cat] does not,
    and [hasTailingWhitespace] is true. *)
Theorem hasTailingWhitespace_earlier_line :
  let input := "ls " ++ chr LF ++ "cat" in
  hasTailingWhitespace input = true /\
  lastLine input = "cat" /\
  endsInUnescapedBlank (lastLine input) = false /\
  endsInUnescapedBlank input = false.
Proof. repeat split. Qed.

End UtilsFacts.

Module HistoryFacts.
Import JS History Spec.

Lemma index_last {A} (l : list A) :
  index l (Z.of_nat (List.length l) - 1) = List.last (map Some l) None.
Proof.
  unfold index. destruct l as [|a l]; [reflexivity|].
  destruct (Z.ltb_spec (Z.of_nat (List.length (a :: l)) - 1) 0) as [H|H];
    [simpl List.length in H; lia|].
  replace (Z.to_nat (Z.of_nat (List.length (a :: l)) - 1)) with (List.length l)
    by (simpl List.length; lia).
  clear H. revert a. induction l as [|b l IH]; intros a; [reflexivity|].
  simpl List.length. simpl nth_error. rewrite (IH b). reflexivity.
Qed.

(** C5. For a history of any capacity, [push entry] changes neither the
    entries nor the browse cursor when [entry] trims to the empty string or
    equals the last stored entry; otherwise it appends [entry], drops the
    oldest entry when the length would exceed the capacity, and sets the
    browse cursor to the new length of the entries. *)
Theorem push_spec (h : HistoryController) (entry : string) :
  (trim entry = "" \/ List.last (map Some (entries h)) None = Some entry ->
   push entry h = h) /\
  (trim entry <> "" /\ List.last (map Some (entries h)) None <> Some entry ->
   entries (push entry h) = stored (size h) (entries h) entry /\
   cursor (push entry h) = Z.of_nat (List.length (entries (push entry h))) /\
   size (push entry h) = size h).
Proof.
  unfold push. rewrite index_last. split.
  - intros [Ht | Hl].
    + rewrite Ht. reflexivity.
    + rewrite Hl. simpl. rewrite String.eqb_refl.
      destruct (String.eqb (trim entry) ""); reflexivity.
  - intros [Ht Hl].
    apply String.eqb_neq in Ht. rewrite Ht.
    assert (Hs : sameEntry entry (List.last (map Some (entries h)) None) = false).
    { destruct (List.last (map Some (entries h)) None) as [e|]; [|reflexivity].
      simpl. apply String.eqb_neq. intros ->. apply Hl. reflexivity. }
    rewrite Hs. cbn [entries cursor size]. unfold stored, shift.
    rewrite length_app. simpl List.length.
    rewrite Nat2Z.inj_add. auto.
Qed.

Lemma push_spec_witness :
  push " " (constructor 2) = constructor 2 /\
  entries (push "c" (push "b" (push "a" (constructor 2)))) = ["b"; "c"] /\
  cursor (push "c" (push "b" (push "a" (constructor 2)))) = 2.
Proof.
  split.
  - apply (push_spec (constructor 2) " "). left. reflexivity.
  - destruct (push_spec (push "b" (push "a" (constructor 2))) "c") as [_ H].
    destruct H as (He & Hc & _).
    + split; vm_compute; discriminate.
    + split; [rewrite He; reflexivity | rewrite Hc, He; reflexivity].
Defined.

Lemma cursorInRange_apply (op : operation) (h : HistoryController) :
  cursorInRange h -> cursorInRange (apply op h).
Proof.
  unfold cursorInRange. intros H. destruct op as [entry| | |]; simpl.
  - unfold push.
    destruct (String.eqb (trim entry) ""); [exact H|].
    destruct (sameEntry entry _); [exact H|].
    cbn [cursor entries]. lia.
  - lia.
  - lia.
  - lia.
Qed.

Lemma cursorInRange_run (ops : list operation) :
  forall h, cursorInRange h -> cursorInRange (run ops h).
Proof.
  unfold run. induction ops as [|op ops IH]; intros h H; simpl.
  - exact H.
  - apply IH, cursorInRange_apply, H.
Qed.

Lemma index_past_end {A} (l : list A) : index l (Z.of_nat (List.length l)) = None.
Proof.
  unfold index.
  destruct (Z.ltb_spec (Z.of_nat (List.length l)) 0); [reflexivity|].
  rewrite Nat2Z.id. apply nth_error_None. lia.
Qed.

Lemma previousTimes_at_zero (h : HistoryController) (k : nat) :
  cursor h = 0 -> previousTimes k h = h.
Proof.
  intros H0.
  assert (Hp : snd (getPrevious h) = h).
  { unfold getPrevious. simpl. rewrite H0. destruct h; simpl in *; subst.
    reflexivity. }
  induction k as [|k IH]; [reflexivity|].
  unfold previousTimes in *. rewrite Nat.iter_succ, IH. exact Hp.
Qed.

Lemma nextTimes_at_end (h : HistoryController) (k : nat) :
  cursor h = Z.of_nat (List.length (entries h)) -> nextTimes k h = h.
Proof.
  intros He.
  assert (Hn : snd (getNext h) = h).
  { unfold getNext. simpl. rewrite He.
    replace (Z.min _ _) with (Z.of_nat (List.length (entries h))) by lia.
    destruct h; simpl in *; subst. reflexivity. }
  induction k as [|k IH]; [reflexivity|].
  unfold nextTimes in *. rewrite Nat.iter_succ, IH. exact Hn.
Qed.

Lemma getNext_at_end (h : HistoryController) :
  cursor h = Z.of_nat (List.length (entries h)) -> fst (getNext h) = None.
Proof.
  intros He. unfold getNext. simpl. rewrite He.
  replace (Z.min _ _) with (Z.of_nat (List.length (entries h))) by lia.
  apply index_past_end.
Qed.

(** C9. After every sequence of [push], [rewind], [getPrevious] and
    [getNext] on a fresh history, the browse cursor lies in
    [0 .. length entries]; at cursor 0 any number of [getPrevious] calls
    leaves the history as it is, with the cursor at 0; at the cursor past
    the end any number of [getNext] calls leaves it as it is, and [getNext]
    returns [undefined] there. *)
Theorem cursor_bounds_and_idempotence (n : Z) (ops : list operation) :
  let h := run ops (constructor n) in
  0 <= cursor h <= Z.of_nat (List.length (entries h)) /\
  (cursor h = 0 ->
   forall k, previousTimes k h = h /\ cursor (previousTimes k h) = 0) /\
  (cursor h = Z.of_nat (List.length (entries h)) ->
   fst (getNext h) = None /\
   forall k, nextTimes k h = h /\
             cursor (nextTimes k h) = Z.of_nat (List.length (entries h))).
Proof.
  intros h. split; [|split].
  - apply cursorInRange_run. unfold cursorInRange. simpl. lia.
  - intros H0 k. rewrite (previousTimes_at_zero h k H0). auto.
  - intros He. split; [apply getNext_at_end, He|].
    intros k. rewrite (nextTimes_at_end h k He). auto.
Qed.

Lemma cursor_bounds_and_idempotence_witness :
  cursor (previousTimes 3 (run [GetPrevious] (constructor 10))) = 0 /\
  fst (getNext (run [Push "ls"; Push "cd"] (constructor 10))) = None /\
  cursor (nextTimes 3 (run [Push "ls"; Push "cd"] (constructor 10))) = 2.
Proof.
  destruct (cursor_bounds_and_idempotence 10 [GetPrevious]) as (_ & Hp & _).
  destruct (cursor_bounds_and_idempotence 10 [Push "ls"; Push "cd"])
    as (_ & _ & Hn).
  specialize (Hp eq_refl 3%nat). specialize (Hn eq_refl).
  destruct Hn as [Hu Hn]. specialize (Hn 3%nat).
  split; [apply Hp | split; [exact Hu | apply Hn]].
Defined.

End HistoryFacts.

Module EngineFacts.
Import JS Utils Engine Spec.

(** ** What the terminal output operations leave alone *)

Lemma rest_write (text : string) (s : LocalEchoController) :
  rest (write text s) = rest s.
Proof. unfold write. destruct (term s); reflexivity. Qed.

Lemma rest_writeTimes (n : Z) (text : string) (s : LocalEchoController) :
  rest (writeTimes n text s) = rest s.
Proof.
  unfold writeTimes. induction (Z.to_nat n) as [|k IH]; [reflexivity|].
  rewrite Nat.iter_succ, rest_write. exact IH.
Qed.

Lemma rest_print (message : string) (s : LocalEchoController) :
  rest (print message s) = rest s.
Proof. unfold print. apply rest_write. Qed.

Lemma rest_println (message : string) (s : LocalEchoController) :
  rest (println message s) = rest s.
Proof. unfold println. apply rest_print. Qed.

Lemma rest_clearInput (s : LocalEchoController) : rest (clearInput s) = rest s.
Proof.
  unfold clearInput. rewrite rest_writeTimes, rest_write, rest_writeTimes.
  reflexivity.
Qed.

Lemma term_write (text : string) (s : LocalEchoController) :
  term (write text s) = option_map (received text) (term s).
Proof. unfold write. destruct (term s) eqn:E; cbn; [reflexivity | exact E]. Qed.

(** A function that does not look at the terminal gives the same on two
    controllers that differ by their terminals only. *)
Lemma through_rest {A : Type} (f : LocalEchoController -> A)
  (Hf : forall s, f s = f (rest s)) (s s' : LocalEchoController) :
  rest s = rest s' -> f s = f s'.
Proof. intros H. rewrite (Hf s), (Hf s'), H. reflexivity. Qed.

(** Drop the output operations under a field projection. *)
Ltac frame :=
  repeat match goal with
  | |- context [?f (write ?x ?s)] =>
      rewrite (through_rest f (fun _ => eq_refl) (write x s) s (rest_write x s))
  | |- context [?f (writeTimes ?n ?x ?s)] =>
      rewrite (through_rest f (fun _ => eq_refl) (writeTimes n x s) s
                 (rest_writeTimes n x s))
  | |- context [?f (print ?x ?s)] =>
      rewrite (through_rest f (fun _ => eq_refl) (print x s) s (rest_print x s))
  | |- context [?f (println ?x ?s)] =>
      rewrite (through_rest f (fun _ => eq_refl) (println x s) s
                 (rest_println x s))
  | |- context [?f (clearInput ?s)] =>
      rewrite (through_rest f (fun _ => eq_refl) (clearInput s) s
                 (rest_clearInput s))
  end.

(** A controller and its terminal-less part have the same fields. *)
Lemma rest_fields (s s' : LocalEchoController) :
  rest s = rest s' ->
  history s = history s' /\
  maxAutocompleteEntries s = maxAutocompleteEntries s' /\
  _autocompleteHandlers s = _autocompleteHandlers s' /\
  _active s = _active s' /\
  _input s = _input s' /\
  _cursor s = _cursor s' /\
  _activePrompt s = _activePrompt s' /\
  _activeCharPrompt s = _activeCharPrompt s' /\
  _termSize s = _termSize s' /\
  promises s = promises s' /\
  settled s = settled s' /\
  reactions s = reactions s'.
Proof.
  unfold rest, set_term. intros H. injection H. intros. repeat split; assumption.
Qed.

Lemma rest_printColumns_rows (fuel : nat) (items : list string) (w : Z)
  (wideCols wideRows : jsnum) :
  forall row i s s',
    printRows fuel items w wideCols wideRows row i s = Ok s' ->
    rest s' = rest s.
Proof.
  induction fuel as [|fuel IH]; intros row i s s'; cbn [printRows].
  - destruct (negb (ltNum row wideRows)); [|discriminate].
    intros [= ->]. reflexivity.
  - destruct (negb (ltNum row wideRows)); [intros [= ->]; reflexivity|].
    destruct (printColumns fuel items w wideCols 0 i "") as [r| |];
      cbn [bind]; try discriminate.
    intros H. apply IH in H. rewrite H. apply rest_println.
Qed.

Lemma rest_printWide (fuel : nat) (items : list string) (padding : Z)
  (s s' : LocalEchoController) :
  printWide fuel items padding s = Ok s' -> rest s' = rest s.
Proof.
  unfold printWide. destruct (Z.of_nat (List.length items) =? 0).
  - intros [= <-]. apply rest_println.
  - apply rest_printColumns_rows.
Qed.

(** ** Data received while no line read is active *)

Lemma deliver_inactive (parse : string -> list string) (fuel : nat)
  (chunks : list string) (s : LocalEchoController) :
  _active s = false -> deliver parse fuel chunks s = Ok s.
Proof.
  intros Ha. induction chunks as [|data chunks IH]; [reflexivity|].
  cbn [deliver]. unfold handleTermData. rewrite Ha. cbn [negb bind]. exact IH.
Qed.

(** C10. While the engine is not active, a data chunk from the terminal
    changes nothing: the whole controller (input, cursor, history,
    handlers, pending char prompt, terminal output, promises) is as
    before.  So a [readChar] issued while no [read] is active stays pending
    whatever chunks arrive: its promise is not settled. *)
Theorem inactive_engine_discards_data (parse : string -> list string)
  (fuel : nat) (s : LocalEchoController) :
  _active s = false ->
  (forall data, handleTermData parse fuel data s = Ok s) /\
  (forall prompt_ chunks,
     let s1 := snd (readChar prompt_ s) in
     deliver parse fuel chunks s1 = Ok s1 /\
     _activeCharPrompt s1
       = Some {| charPrompt := prompt_; charPromise := promises s |} /\
     settled s1 = settled s).
Proof.
  intros Ha. split.
  - intros data. unfold handleTermData. rewrite Ha. reflexivity.
  - intros prompt_ chunks. cbv zeta.
    remember (snd (readChar prompt_ s)) as s1 eqn:E.
    assert (Hrest : rest s1
                    = rest (set_activeCharPrompt
                              (Some {| charPrompt := prompt_;
                                       charPromise := promises s |})
                              (set_promises (S (promises s)) s))).
    { subst s1. unfold readChar. cbn [snd].
      unfold write. cbn [term set_promises].
      destruct (term s); reflexivity. }
    apply rest_fields in Hrest. cbn in Hrest.
    destruct Hrest as (_ & _ & _ & Hact & _ & _ & _ & Hchar & _ & _ & Hset & _).
    split; [|split].
    + apply deliver_inactive. rewrite Hact. exact Ha.
    + exact Hchar.
    + exact Hset.
Qed.

Lemma inactive_engine_discards_data_witness :
  let s := constructor (Some xterm) None None in
  handleTermData words 0 "y" s = Ok s /\
  deliver words 0 ["y"; "n"] (snd (readChar "(y or n)" s))
  = Ok (snd (readChar "(y or n)" s)).
Proof.
  destruct (inactive_engine_discards_data words 0
              (constructor (Some xterm) None None) eq_refl) as [Hd Hc].
  split; [apply Hd | apply (Hc "(y or n)" ["y"; "n"])].
Defined.

(** ** readChar *)

(** C3. [readChar] on a controller that has just been built, with no
    [read] in flight: the chunk that follows is dropped by the guard of
    [handleTermData], whatever the number of loop iterations; the char
    prompt stays installed and nothing is settled.  So the next chunk does
    not resolve the promise, which the claim and the documentation of
    [readChar] say it does, with or without a line read. *)
Theorem readChar_alone_is_not_resolved :
  let s1 := snd (readChar "(y or n)" (constructor (Some xterm) None None)) in
  (forall fuel, handleTermData words fuel "y" s1 = Ok s1) /\
  _activeCharPrompt s1
  = Some {| charPrompt := "(y or n)"; charPromise := 0 |} /\
  settled s1 = [] /\
  ~ resolvedByNextChunk words (constructor (Some xterm) None None)
      "(y or n)" "y".
Proof.
  cbv zeta.
  split; [intros fuel; reflexivity|].
  split; [reflexivity|].
  split; [reflexivity|].
  unfold resolvedByNextChunk. intros (fuel & s2 & Hd & _ & Hc).
  pose proof (deliver_inactive words fuel ["y"]
                (snd (readChar "(y or n)" (constructor (Some xterm) None None)))
                eq_refl) as Hdel.
  cbn [deliver] in Hdel. rewrite Hd in Hdel. cbn [bind deliver] in Hdel.
  injection Hdel as Hdel. subst s2. cbn in Hc. discriminate.
Qed.

Lemma runReactions_none (fuel : nat) (p : nat) (value : string) (pending : list (nat * Reaction))
  (s : LocalEchoController) :
  Forall (fun r => fst r <> p) pending ->
  runReactions fuel p value pending s = Ok s.
Proof.
  induction 1 as [|[q [cands cur]] pending Hq _ IH]; [reflexivity|].
  cbn [runReactions]. cbn [fst] in Hq.
  apply Nat.eqb_neq in Hq. rewrite Hq. exact IH.
Qed.

(** While a line read is in flight, the chunk that directly follows a call
    of [readChar] resolves the promise of the call with exactly that chunk
    and clears the char prompt, and no line editing takes place: input,
    cursor, history and the line prompt are as before, and the terminal
    only receives the prompt of [readChar] and a line break. *)
Theorem readChar_resolved_by_next_chunk (parse : string -> list string)
  (fuel : nat) (s : LocalEchoController) (prompt_ data : string) :
  _active s = true ->
  reactionsOnCreated s ->
  let p := fst (readChar prompt_ s) in
  let s1 := snd (readChar prompt_ s) in
  _activeCharPrompt s1 = Some {| charPrompt := prompt_; charPromise := p |} /\
  exists s2,
    handleTermData parse fuel data s1 = Ok s2 /\
    settled s2 = (settled s ++ [(p, Resolved data)])%list /\
    _activeCharPrompt s2 = None /\
    _input s2 = _input s /\ _cursor s2 = _cursor s /\
    history s2 = history s /\ _activePrompt s2 = _activePrompt s /\
    _active s2 = true /\
    term s2 = term (write (chr CR ++ chr LF) (write prompt_ s)).
Proof.
  intros Ha Hr. cbv zeta. unfold readChar. cbn [fst snd].
  split.
  { cbn [_activeCharPrompt set_activeCharPrompt]. reflexivity. }
  unfold handleTermData.
  cbn [_active set_activeCharPrompt _activeCharPrompt charPromise].
  frame. cbn [_active set_promises]. rewrite Ha. cbn [negb].
  rewrite runReactions_none.
  2: { cbn [reactions set_reactions]. apply Forall_forall.
       intros r Hin. revert Hin. cbn. frame. cbn. intros Hin.
       unfold reactionsOnCreated in Hr. rewrite Forall_forall in Hr.
       specialize (Hr r Hin). lia. }
  eexists. split; [reflexivity|].
  cbn [settled set_reactions _activeCharPrompt _input _cursor history
       _activePrompt _active term].
  frame. cbn. frame. cbn. rewrite Ha.
  repeat split; try reflexivity.
  rewrite !term_write. cbn. rewrite !term_write. reflexivity.
Qed.

Lemma readChar_resolved_by_next_chunk_witness :
  let s := snd (read "$ " "> " (constructor (Some xterm) None None)) in
  exists s2,
    handleTermData words 0 "y" (snd (readChar "(y or n)" s)) = Ok s2 /\
    settled s2 = [(1%nat, Resolved "y")] /\
    _activeCharPrompt s2 = None.
Proof.
  cbv zeta.
  destruct (readChar_resolved_by_next_chunk words 0
              (snd (read "$ " "> " (constructor (Some xterm) None None)))
              "(y or n)" "y" eq_refl (Forall_nil _))
    as (_ & s2 & Hd & Hs & Hc & _).
  exists s2. split; [exact Hd | split; [exact Hs | exact Hc]].
Defined.

(** A second [readChar] before the chunk takes the place of the first: the
    chunk resolves the promise of the second call (promise 2, the line read
    being promise 0), and the promise of the first call (promise 1) is left
    pending with no char prompt that holds it. *)
Lemma readChar_twice_resolves_the_second :
  let s := snd (read "$ " "> " (constructor (Some xterm) None None)) in
  let s1 := snd (readChar "second" (snd (readChar "first" s))) in
  exists s2,
    handleTermData words 0 "y" s1 = Ok s2 /\
    settled s2 = [(2%nat, Resolved "y")] /\
    _activeCharPrompt s2 = None.
Proof.
  cbv zeta. eexists. split; [vm_compute; reflexivity|].
  split; reflexivity.
Qed.

(** ** printWide *)

(** With no column the row loop never ends: every iteration prints an empty
    row and the bound is infinite. *)
Lemma printRows_no_column (fuel : nat) (items : list string) (w : Z) :
  forall row i s, printRows fuel items w (Num 0) PosInf row i s = Timeout.
Proof.
  induction fuel as [|fuel IH]; intros row i s; cbn [printRows ltNum negb].
  - reflexivity.
  - destruct fuel; cbn [printColumns ltNum negb bind fst snd]; apply IH.
Qed.

(** On a terminal narrower than a column [printWide] does not return. *)
Lemma printWide_narrow (fuel : nat) (items : list string) (padding : Z)
  (s : LocalEchoController) :
  items <> [] ->
  0 <= cols (_termSize s) < columnWidth items padding ->
  printWide fuel items padding s = Timeout.
Proof.
  intros Hne Hc. unfold printWide. fold (columnWidth items padding).
  destruct items as [|item items]; [contradiction|].
  replace (Z.of_nat (List.length (item :: items)) =? 0) with false
    by (symmetry; apply Z.eqb_neq; simpl List.length; lia).
  unfold floorDiv.
  replace (columnWidth (item :: items) padding =? 0) with false
    by (symmetry; apply Z.eqb_neq; lia).
  replace (columnWidth (item :: items) padding <? 0) with false
    by (symmetry; apply Z.ltb_ge; lia).
  rewrite andb_false_r, Z.div_small by lia.
  unfold ceilDiv. rewrite Z.eqb_refl.
  replace (0 <? Z.of_nat (List.length (item :: items))) with true
    by (symmetry; apply Z.ltb_lt; simpl List.length; lia).
  apply printRows_no_column.
Qed.

(** C6, the input on which the code leaves the claim: one item of three
    characters, padding 2, a terminal of 4 columns.  The column count is
    [floor(4 / 5) = 0], the row count [ceil(1 / 0)] is infinite, and the
    row loop never ends, whatever the number of iterations allowed. *)
Theorem printWide_narrow_terminal_never_returns :
  forall fuel : nat,
    printWide fuel ["abc"] 2 (constructor (Some narrowTerm) None None) = Timeout.
Proof.
  intros fuel. apply printWide_narrow; [discriminate | vm_compute].
  split; [discriminate | reflexivity].
Qed.

(** *** The grid on a terminal that holds at least one column *)

Lemma printColumns_row (items : list string) (w c : Z) :
  Forall (fun item => len item <= w) items ->
  forall (k fuel : nat) (col : Z) (j : nat) (rowStr : string),
    (k <= fuel)%nat -> col = c - Z.of_nat k ->
    printColumns fuel items w (Num c) col (Z.of_nat j) rowStr
    = Ok (Z.of_nat (j + List.length (firstn k (skipn j items))),
          fold_left (fun acc item => acc ++ padItem w item)
            (firstn k (skipn j items)) rowStr).
Proof.
  intros Hfit. induction k as [|k IH]; intros fuel col j rowStr Hk Hcol.
  - replace col with c by lia.
    destruct fuel; cbn [printColumns ltNum]; rewrite Z.ltb_irrefl;
      cbn [negb firstn List.length fold_left]; rewrite Nat.add_0_r; reflexivity.
  - destruct fuel as [|fuel]; [lia|].
    cbn [printColumns ltNum].
    replace (col <? c) with true by (symmetry; apply Z.ltb_lt; lia).
    cbn [negb].
    destruct (skipn j items) as [|item rem] eqn:E.
    + apply skipn_all_iff in E.
      replace (Z.of_nat j <? Z.of_nat (List.length items)) with false
        by (symmetry; apply Z.ltb_ge; lia).
      rewrite (IH fuel (col + 1) j rowStr) by lia.
      apply skipn_all_iff in E. rewrite E. destruct k; reflexivity.
    + assert (Hn : nth_error items j = Some item).
      { rewrite <- hd_error_skipn, E. reflexivity. }
      assert (Hj : (j < List.length items)%nat).
      { apply nth_error_Some. rewrite Hn. discriminate. }
      replace (Z.of_nat j <? Z.of_nat (List.length items)) with true
        by (symmetry; apply Z.ltb_lt; lia).
      unfold index.
      replace (Z.of_nat j <? 0) with false by (symmetry; apply Z.ltb_ge; lia).
      rewrite Nat2Z.id, Hn.
      assert (Hw : len item <= w).
      { rewrite Forall_forall in Hfit. apply Hfit.
        eapply nth_error_In; eauto. }
      replace (w - len item <? 0) with false by (symmetry; apply Z.ltb_ge; lia).
      replace (Z.of_nat j + 1) with (Z.of_nat (S j)) by lia.
      rewrite (IH fuel (col + 1) (S j)) by lia.
      assert (Hs : skipn (S j) items = rem).
      { replace (S j) with (1 + j)%nat by lia.
        rewrite <- skipn_skipn, E. reflexivity. }
      rewrite Hs. cbn [firstn List.length fold_left]. unfold padItem.
      rewrite Nat.add_succ_r. reflexivity.
Qed.

Lemma ceil_rows (n c row : Z) :
  0 < c -> (row <? - ((- n) / c)) = (row * c <? n).
Proof.
  intros Hc.
  pose proof (Z.mul_div_le (- n) c Hc).
  pose proof (Z.mul_succ_div_gt (- n) c Hc).
  destruct (Z.ltb_spec row (- (- n / c))), (Z.ltb_spec (row * c) n);
    try reflexivity; nia.
Qed.

(** The row loop on a grid of [c >= 1] columns, from row [row] on, when
    [j] items are printed already. *)
Lemma printRows_grid (items : list string) (w c : Z) :
  Forall (fun item => len item <= w) items ->
  0 < c ->
  forall (m fuel : nat) (row : Z) (j : nat) (s : LocalEchoController),
    (List.length items - j <= m)%nat ->
    Z.of_nat j = Z.min (row * c) (Z.of_nat (List.length items)) ->
    (m + Z.to_nat c + 1 <= fuel)%nat ->
    printRows fuel items w (Num c)
      (Num (- ((- Z.of_nat (List.length items)) / c))) row (Z.of_nat j) s
    = Ok (fold_left (fun s r => println (rowText w r) s)
            (grid (Z.to_nat c) (skipn j items)) s).
Proof.
  intros Hfit Hc.
  induction m as [|m IH]; intros fuel row j s Hm Hj Hfuel.
  - assert (Hend : (List.length items <= j)%nat) by lia.
    destruct fuel as [|fuel]; [lia|].
    cbn [printRows ltNum]. rewrite ceil_rows by exact Hc.
    replace (row * c <? Z.of_nat (List.length items)) with false
      by (symmetry; apply Z.ltb_ge; lia).
    cbn [negb]. rewrite (skipn_all2 items Hend). simp grid. reflexivity.
  - destruct (Nat.le_gt_cases (List.length items) j) as [Hend|Hlt].
    + destruct fuel as [|fuel]; [lia|].
      cbn [printRows ltNum]. rewrite ceil_rows by exact Hc.
      replace (row * c <? Z.of_nat (List.length items)) with false
        by (symmetry; apply Z.ltb_ge; lia).
      cbn [negb]. rewrite (skipn_all2 items Hend). simp grid. reflexivity.
    + destruct fuel as [|fuel]; [lia|].
      cbn [printRows ltNum]. rewrite ceil_rows by exact Hc.
      replace (row * c <? Z.of_nat (List.length items)) with true
        by (symmetry; apply Z.ltb_lt; lia).
      cbn [negb].
      rewrite (printColumns_row items w c Hfit (Z.to_nat c) fuel 0 j "")
        by lia.
      cbn [bind fst snd].
      set (k := Z.to_nat c).
      assert (Hk : (1 <= k)%nat) by (unfold k; lia).
      assert (HL : List.length (firstn k (skipn j items))
                   = Nat.min k (List.length items - j)).
      { rewrite length_firstn, length_skipn. reflexivity. }
      rewrite (IH fuel (row + 1) (j + List.length (firstn k (skipn j items)))%nat).
      2: { rewrite HL. lia. }
      2: { rewrite HL. unfold k. lia. }
      2: { fold k. lia. }
      destruct (skipn j items) as [|x l] eqn:E.
      { apply skipn_all_iff in E. lia. }
      simp grid. replace (Nat.max 1 k) with k by lia.
      cbn [fold_left]. fold (rowText w (firstn k (x :: l))).
      f_equal. f_equal.
      rewrite HL, <- E, skipn_skipn.
      destruct (Nat.le_gt_cases k (List.length items - j)) as [Hfull|Hpart].
      * replace (j + Nat.min k (List.length items - j))%nat with (k + j)%nat
          by lia.
        reflexivity.
      * rewrite !(skipn_all2 items) by lia. reflexivity.
Qed.

Lemma fold_max_le (items : list string) :
  forall (acc : Z) (item : string),
    In item items ->
    len item <= fold_left (fun width item => Z.max width (len item)) items acc.
Proof.
  assert (Hmono : forall l acc,
             acc <= fold_left (fun width item => Z.max width (len item)) l acc).
  { induction l as [|x l IH]; intros acc; simpl; [lia|].
    etransitivity; [|apply IH]. lia. }
  induction items as [|x items IH]; intros acc item Hin; [contradiction|].
  simpl. destruct Hin as [->|Hin].
  - etransitivity; [|apply Hmono]. lia.
  - apply IH, Hin.
Qed.

(** On a terminal that holds [c >= 1] columns, [printWide] returns, having
    printed the items row by row, [c] items a row, each filled with spaces
    to the column width. *)
Lemma printWide_layout (fuel : nat) (items : list string) (padding : Z)
  (s : LocalEchoController) :
  items <> [] ->
  0 <= padding ->
  let w := columnWidth items padding in
  0 < w <= cols (_termSize s) ->
  let c := cols (_termSize s) / w in
  (List.length items + Z.to_nat c + 1 <= fuel)%nat ->
  printWide fuel items padding s
  = Ok (fold_left (fun s r => println (rowText w r) s)
          (grid (Z.to_nat c) items) s).
Proof.
  intros Hne Hp w Hw c Hfuel. unfold printWide. fold (columnWidth items padding).
  fold w.
  replace (Z.of_nat (List.length items) =? 0) with false.
  2: { symmetry. apply Z.eqb_neq. destruct items; [contradiction|].
       simpl List.length. lia. }
  unfold floorDiv. replace (w =? 0) with false by (symmetry; apply Z.eqb_neq; lia).
  replace (w <? 0) with false by (symmetry; apply Z.ltb_ge; lia).
  rewrite andb_false_r. fold c.
  assert (Hc : 0 < c).
  { unfold c. apply Z.div_str_pos. lia. }
  unfold ceilDiv. replace (c =? 0) with false by (symmetry; apply Z.eqb_neq; lia).
  cbv zeta.
  replace (c <? 0) with false by (symmetry; apply Z.ltb_ge; lia).
  replace (Z.of_nat (List.length items) <? 0) with false
    by (symmetry; apply Z.ltb_ge; lia).
  rewrite andb_false_r.
  apply (printRows_grid items w c) with (m := List.length items) (j := 0%nat);
    try lia.
  apply Forall_forall. intros item Hin.
  pose proof (fold_max_le items 0 item Hin). unfold w, columnWidth. lia.
Qed.

(** ** Redrawing and the controller fields *)

Lemma rest_set_cursor (v : Z) (s s' : LocalEchoController) :
  rest s = rest s' -> rest (set_cursor v s) = rest (set_cursor v s').
Proof.
  intros H. apply rest_fields in H.
  destruct H as (H1 & H2 & H3 & H4 & H5 & H6 & H7 & H8 & H9 & H10 & H11 & H12).
  unfold rest, set_term, set_cursor. cbn. congruence.
Qed.

Lemma rest_set_input (v : string) (s s' : LocalEchoController) :
  rest s = rest s' -> rest (set_input v s) = rest (set_input v s').
Proof.
  intros H. apply rest_fields in H.
  destruct H as (H1 & H2 & H3 & H4 & H5 & H6 & H7 & H8 & H9 & H10 & H11 & H12).
  unfold rest, set_term, set_input. cbn. congruence.
Qed.

(** [setCursor] moves the terminal cursor and sets the cursor field. *)
Lemma rest_setCursor (newCursor : Z) (s : LocalEchoController) :
  rest (setCursor newCursor s) = rest (set_cursor (clampCursor newCursor s) s).
Proof.
  unfold setCursor. fold (clampCursor newCursor s).
  apply rest_set_cursor.
  repeat match goal with
         | |- context [if ?b then _ else _] => destruct b
         end; rewrite !rest_writeTimes; reflexivity.
Qed.

(** [setInput] redraws, trims the cursor and sets the input field. *)
Lemma rest_setInput (newInput : string) (clear : bool) (s : LocalEchoController) :
  rest (setInput newInput clear s)
  = rest (set_input newInput
            (set_cursor (if _cursor s >? len newInput then len newInput
                         else _cursor s) s)).
Proof.
  unfold setInput. apply rest_set_input.
  rewrite !rest_writeTimes, rest_write.
  assert (Hp : rest (print (applyPrompts newInput (if clear then clearInput s else s))
                       (if clear then clearInput s else s)) = rest s).
  { rewrite rest_print. destruct clear; [apply rest_clearInput | reflexivity]. }
  pose proof (rest_fields _ _ Hp) as (_ & _ & _ & _ & _ & Hc & _).
  rewrite Hc.
  destruct (_cursor s >? len newInput).
  - apply rest_set_cursor, Hp.
  - rewrite Hp. destruct s; reflexivity.
Qed.

Lemma rest_handleCursorInsert (data : string) (s : LocalEchoController) :
  rest (handleCursorInsert data s)
  = rest (set_input
            (substr (_input s) 0 (Some (_cursor s)) ++ data
             ++ substr (_input s) (_cursor s) None)
            (set_cursor
               (let newInput :=
                  substr (_input s) 0 (Some (_cursor s)) ++ data
                  ++ substr (_input s) (_cursor s) None in
                if _cursor s + len data >? len newInput then len newInput
                else _cursor s + len data) s)).
Proof.
  unfold handleCursorInsert. rewrite rest_setInput.
  cbn [_cursor set_cursor]. cbv zeta.
  destruct (_ >? _); reflexivity.
Qed.

(** Drop the redrawing operations under a field projection. *)
Ltac redraw :=
  repeat first
    [ progress frame
    | match goal with
      | |- context [?f (setCursor ?n ?s)] =>
          rewrite (through_rest f (fun _ => eq_refl) _ _ (rest_setCursor n s))
      | |- context [?f (setInput ?i ?c ?s)] =>
          rewrite (through_rest f (fun _ => eq_refl) _ _ (rest_setInput i c s))
      | |- context [?f (handleCursorInsert ?d ?s)] =>
          rewrite (through_rest f (fun _ => eq_refl) _ _
                     (rest_handleCursorInsert d s))
      end ].

(** ** TAB with several candidates *)

Lemma getSharedFragment_returns (fragment : string) (candidates : list string) :
  candidates <> [] ->
  exists r, getSharedFragment fragment candidates = Ok r.
Proof.
  funelim (getSharedFragment fragment candidates); intros Hne.
  - contradiction.
  - eexists. reflexivity.
  - eexists. reflexivity.
  - match goal with IH : _ -> exists _, _ |- _ => apply IH end. discriminate.
Qed.

Section Tab.

Variable parse : string -> list string.

Lemma handleData_tab_several (fuel : nat) (s : LocalEchoController) :
  severalCandidates parse s ->
  handleData parse fuel (chr TAB) s
  = printAndRestartPrompt fuel (PrintCandidates (tabCandidates parse s))
      (afterInsertion parse s).
Proof.
  intros (Ha & Hh & Hn). unfold handleData. rewrite Ha.
  cbn [negb charCodeAt0 chr]. change (Z.of_nat (nat_of_ascii TAB)) with 9.
  cbn -[handleTab]. unfold handleTab.
  replace (Z.of_nat (List.length (_autocompleteHandlers s)) >? 0) with true.
  2: { symmetry. apply Z.gtb_lt. destruct (_autocompleteHandlers s);
       [contradiction | simpl List.length; lia]. }
  fold (inputFragment s). fold (tabCandidates parse s).
  replace (Z.of_nat (List.length (tabCandidates parse s)) =? 0) with false
    by (symmetry; apply Z.eqb_neq; lia).
  replace (Z.of_nat (List.length (tabCandidates parse s)) =? 1) with false
    by (symmetry; apply Z.eqb_neq; lia).
  replace (Z.of_nat (List.length (tabCandidates parse s)) <=? maxAutocompleteEntries s)
    with true by (symmetry; apply Z.leb_le; lia).
  unfold afterInsertion, tabInsertion.
  destruct (getSharedFragment_returns (inputFragment s) (tabCandidates parse s))
    as [r Hr].
  { intros E. rewrite E in Hn. simpl in Hn. lia. }
  rewrite Hr. cbn [bind]. destruct r as [shared|]; cbn [truthy]; [|reflexivity].
  destruct (String.eqb shared ""); reflexivity.
Qed.

Lemma termSize_afterInsertion (s : LocalEchoController) :
  _termSize (afterInsertion parse s) = _termSize s.
Proof.
  unfold afterInsertion. destruct (tabInsertion parse s) as [text|]; [|reflexivity].
  redraw. reflexivity.
Qed.

(** On a terminal narrower than the column of the candidates, TAB with
    several candidates does not return: the prompt is never restored. *)
Lemma tab_narrow (fuel : nat) (s : LocalEchoController) :
  severalCandidates parse s ->
  0 <= cols (_termSize s) < columnWidth (tabCandidates parse s) 2 ->
  handleData parse fuel (chr TAB) s = Timeout.
Proof.
  intros Hs Hc. rewrite (handleData_tab_several fuel s Hs).
  unfold printAndRestartPrompt.
  rewrite printWide_narrow; [reflexivity | |].
  - destruct Hs as (_ & _ & Hn). intros E. rewrite E in Hn. simpl in Hn. lia.
  - redraw. cbn [_termSize set_cursor].
    rewrite termSize_afterInsertion. exact Hc.
Qed.

Lemma len_append (a b : string) : len (a ++ b) = len a + len b.
Proof. unfold len. rewrite length_append. lia. Qed.

Lemma length_substring_prefix (s : string) :
  forall n, (n <= String.length s)%nat ->
    String.length (String.substring 0 n s) = n.
Proof.
  induction s as [|c s IH]; intros n Hn; simpl in Hn.
  - assert (n = 0%nat) by lia. subst. reflexivity.
  - destruct n as [|n]; [reflexivity|]. simpl. rewrite IH by lia. reflexivity.
Qed.

(** The input cut at the cursor. *)
Lemma substr_cut (input : string) (cursor : Z) :
  0 <= cursor <= len input ->
  substr input 0 (Some cursor) ++ substr input cursor None = input /\
  len (substr input 0 (Some cursor)) = cursor /\
  len (substr input cursor None) = len input - cursor.
Proof.
  intros Hc. unfold substr. cbn [Z.ltb Z.compare].
  replace (cursor <? 0) with false by (symmetry; apply Z.ltb_ge; lia).
  replace (Z.min 0 (len input)) with 0 by (unfold len; lia).
  replace (Z.min (Z.max cursor 0) (len input - 0)) with cursor by lia.
  replace (Z.min cursor (len input)) with cursor by lia.
  cbn [Z.to_nat].
  pose proof (UtilsFacts.substring_split input (Z.to_nat cursor)
                (Z.to_nat (len input - cursor))
                ltac:(unfold len in *; lia)) as Hsplit.
  assert (Hl : len (String.substring 0 (Z.to_nat cursor) input) = cursor).
  { unfold len. rewrite length_substring_prefix by (unfold len in Hc; lia). lia. }
  split; [symmetry; exact Hsplit | split; [exact Hl|]].
  pose proof (f_equal len Hsplit) as Hlen. rewrite len_append in Hlen. lia.
Qed.

Lemma afterInsertion_input_cursor (s : LocalEchoController) :
  0 <= _cursor s <= len (_input s) ->
  _input (afterInsertion parse s)
  = substr (_input s) 0 (Some (_cursor s)) ++ insertedText parse s
    ++ substr (_input s) (_cursor s) None /\
  _cursor (afterInsertion parse s) = _cursor s + len (insertedText parse s).
Proof.
  intros Hc. destruct (substr_cut (_input s) (_cursor s) Hc) as (Hcut & Hl & Hr).
  unfold afterInsertion, insertedText.
  destruct (tabInsertion parse s) as [text|].
  - redraw. cbn [_input _cursor set_input set_cursor]. split; [reflexivity|].
    rewrite !len_append, Hl, Hr.
    destruct (Z.gtb_spec (_cursor s + len text)
                (_cursor s + (len text + (len (_input s) - _cursor s))));
      [lia | reflexivity].
  - cbn [append]. rewrite Hcut. change (len "") with 0.
    split; [reflexivity | lia].
Qed.

Lemma columnWidth_positive (items : list string) :
  0 < columnWidth items 2.
Proof.
  unfold columnWidth.
  assert (H : forall l acc, acc <= fold_left
                 (fun width item => Z.max width (len item)) l acc).
  { induction l as [|x l IH]; intros acc; simpl; [lia|].
    etransitivity; [|apply IH]. lia. }
  specialize (H items 0). lia.
Qed.

(** On a terminal that holds a column of the candidates, TAB with several
    candidates returns: it has inserted at the cursor what the shared
    fragment has beyond the length of the last token (when the shared
    fragment is a string that is not empty), printed the candidates in
    rows, and redrawn the prompt with the input and the cursor it had after
    the insertion. *)
Lemma tab_partial_completion (s : LocalEchoController) :
  severalCandidates parse s ->
  0 <= _cursor s <= len (_input s) ->
  columnWidth (tabCandidates parse s) 2 <= cols (_termSize s) ->
  let w := columnWidth (tabCandidates parse s) 2 in
  let c := Z.to_nat (cols (_termSize s) / w) in
  let s1 := afterInsertion parse s in
  let printed :=
    fold_left (fun s r => println (rowText w r) s) (grid c (tabCandidates parse s))
      (write (chr CR ++ chr LF) (setCursor (len (_input s1)) s1)) in
  exists fuel,
    handleData parse fuel (chr TAB) s = Ok (resume (_cursor s1) printed) /\
    _input (resume (_cursor s1) printed)
    = substr (_input s) 0 (Some (_cursor s)) ++ insertedText parse s
      ++ substr (_input s) (_cursor s) None /\
    _cursor (resume (_cursor s1) printed) = _cursor s + len (insertedText parse s) /\
    _activePrompt (resume (_cursor s1) printed) = _activePrompt s /\
    _active (resume (_cursor s1) printed) = true.
Proof.
  intros Hs Hc Hw w c s1 printed.
  pose proof (columnWidth_positive (tabCandidates parse s)) as Hpos. fold w in Hpos.
  destruct (afterInsertion_input_cursor s Hc) as [Hin Hcur].
  fold s1 in Hin, Hcur.
  set (s3 := write (chr CR ++ chr LF) (setCursor (len (_input s1)) s1)).
  assert (Hsize : _termSize s3 = _termSize s).
  { unfold s3. redraw. cbn [_termSize set_cursor].
    apply termSize_afterInsertion. }
  assert (Hne : tabCandidates parse s <> []).
  { destruct Hs as (_ & _ & Hn). intros E. rewrite E in Hn. simpl in Hn. lia. }
  exists (List.length (tabCandidates parse s) + c + 1)%nat.
  assert (Hprint : printWide (List.length (tabCandidates parse s) + c + 1)
                     (tabCandidates parse s) 2 s3 = Ok printed).
  { rewrite printWide_layout; try assumption; try lia.
    - rewrite Hsize. reflexivity.
    - rewrite Hsize. fold w. lia.
    - rewrite Hsize. fold w. fold c. lia. }
  pose proof (rest_printWide _ _ _ _ _ Hprint) as Hrest.
  assert (Hrest1 : rest printed
                   = rest (set_cursor (clampCursor (len (_input s1)) s1) s1)).
  { rewrite Hrest. unfold s3. rewrite rest_write. apply rest_setCursor. }
  pose proof (rest_fields _ _ Hrest1) as F. cbn in F.
  destruct F as (_ & _ & _ & Fa & Fi & _ & Fp & _).
  split; [|split; [|split; [|split]]].
    rewrite handleData_tab_several by exact Hs.
    unfold printAndRestartPrompt. fold s1. fold s3.
    rewrite Hprint. reflexivity.
  - unfold resume. redraw. cbn [_input set_input set_cursor].
    rewrite Fi. exact Hin.
  - unfold resume. redraw. cbn [_input _cursor set_input set_cursor].
    rewrite Fi, Hin, Hcur, !len_append.
    destruct (substr_cut (_input s) (_cursor s) Hc) as (_ & Hl & Hr).
    rewrite Hl, Hr.
    destruct (Z.gtb_spec (_cursor s + len (insertedText parse s))
                (_cursor s + (len (insertedText parse s) + (len (_input s) - _cursor s))));
      [lia | reflexivity].
  - unfold resume. redraw. cbn [_activePrompt set_input set_cursor].
    rewrite Fp. unfold s1, afterInsertion.
    destruct (tabInsertion parse s); [redraw|]; reflexivity.
  - unfold resume. redraw. cbn [_active set_input set_cursor].
    rewrite Fa. unfold s1, afterInsertion.
    destruct Hs as (Ha & _).
    destruct (tabInsertion parse s); [redraw; cbn|]; exact Ha.
Qed.

End Tab.

Lemma typedHe_reached (fuel : nat) :
  deliver words fuel ["h"; "e"] readingOnSmallTerm = Ok typedHe /\
  _input typedHe = "he" /\ _cursor typedHe = 2 /\
  tabCandidates words typedHe = ["hello"; "help"] /\
  tabInsertion words typedHe = Some "l".
Proof.
  split; [|split; [|split; [|split]]]; vm_compute; reflexivity.
Qed.

(** C1, the input on which the code leaves the claim: the buffer is [he],
    the cursor at its end, the candidates are [hello] and [help], and the
    terminal has 6 columns.  The shared fragment [hel] gives the insertion
    of [l], but the candidate list needs columns of 7: [printWide] loops
    for ever and the prompt is never restored, whatever the number of
    iterations allowed. *)
Theorem tab_on_narrow_terminal_never_returns :
  forall fuel : nat, handleTermData words fuel (chr TAB) typedHe = Timeout.
Proof.
  intros fuel.
  change (handleTermData words fuel (chr TAB) typedHe)
    with (handleData words fuel (chr TAB) typedHe).
  apply tab_narrow.
  - unfold severalCandidates. vm_compute.
    repeat split; discriminate.
  - vm_compute. split; [discriminate | reflexivity].
Qed.

(** *** A second token *)

(** When the input up to the cursor has more than one token, the fragment
    passed to [getSharedFragment] is the whole input and not its last
    token: on [git st] with the candidates [stash] and [status] the result
    is the input itself, and TAB inserts its tail [t st]. *)
Lemma tab_after_first_token :
  tabCandidates words typedGitSt = ["stash"; "status"] /\
  getLastToken words (inputFragment typedGitSt) = "st" /\
  getSharedFragment (inputFragment typedGitSt) (tabCandidates words typedGitSt)
  = Ok (Some "git st") /\
  tabInsertion words typedGitSt = Some "t st" /\
  exists s', handleTermData words 100 (chr TAB) typedGitSt = Ok s' /\
             _input s' = "git stt st" /\ _cursor s' = 10.
Proof.
  split; [|split; [|split; [|split]]]; try (vm_compute; reflexivity).
  eexists. split; [vm_compute; reflexivity|].
  split; reflexivity.
Qed.

(** *** The size of the grid *)

Lemma length_repeatSpace (n : nat) : String.length (repeatSpace n) = n.
Proof. induction n as [|n IH]; simpl; [reflexivity | now rewrite IH]. Qed.

(** A padded item fills its column. *)
Lemma len_padItem (w : Z) (item : string) :
  len item <= w -> len (padItem w item) = w.
Proof.
  intros H. unfold padItem. rewrite len_append. unfold len in *.
  rewrite length_repeatSpace. lia.
Qed.

(** The grid has [ceil(n / c)] rows. *)
Lemma grid_rows (c : nat) (items : list string) :
  (1 <= c)%nat ->
  List.length (grid c items) = ((List.length items + c - 1) / c)%nat.
Proof.
  intros Hc. funelim (grid c items).
  - simp grid. simpl List.length. symmetry. apply Nat.div_small. lia.
  - simp grid. cbn [List.length].
    match goal with IH : _ -> List.length (grid _ _) = _ |- _ => rewrite IH by exact Hc end.
    replace (Nat.max 1 c) with c by lia.
    rewrite length_skipn. cbn [List.length].
    destruct (Nat.le_gt_cases (S (List.length l)) c) as [Hsmall|Hbig].
    + replace (S (List.length l) - c + c - 1)%nat with (c - 1)%nat by lia.
      rewrite Nat.div_small by lia.
      apply (Nat.div_unique _ _ 1%nat (List.length l)); lia.
    + replace (S (List.length l) + c - 1)%nat
        with ((S (List.length l) - c + c - 1) + 1 * c)%nat by lia.
      rewrite Nat.div_add by lia. lia.
Qed.

(** ** What line editing leaves alone *)

Section Editing.

Context {A : Type} (f : LocalEchoController -> A) (K : Kept f).

Lemma kept_through (s s' : LocalEchoController) :
  rest s = rest s' -> f s = f s'.
Proof. apply through_rest, K. Qed.

Lemma kept_write (text : string) (s : LocalEchoController) :
  f (write text s) = f s.
Proof. apply kept_through, rest_write. Qed.

Lemma kept_print (message : string) (s : LocalEchoController) :
  f (print message s) = f s.
Proof. apply kept_through, rest_print. Qed.

Lemma kept_println (message : string) (s : LocalEchoController) :
  f (println message s) = f s.
Proof. apply kept_through, rest_println. Qed.

Lemma kept_clearInput (s : LocalEchoController) : f (clearInput s) = f s.
Proof. apply kept_through, rest_clearInput. Qed.

Lemma kept_printWide (fuel : nat) (items : list string) (padding : Z)
  (s s' : LocalEchoController) :
  printWide fuel items padding s = Ok s' -> f s' = f s.
Proof. intros H. apply kept_through. eapply rest_printWide, H. Qed.

Lemma kept_setCursor (n : Z) (s : LocalEchoController) :
  f (setCursor n s) = f s.
Proof.
  rewrite (kept_through _ _ (rest_setCursor n s)). apply K.
Qed.

Lemma kept_setInput (i : string) (c : bool) (s : LocalEchoController) :
  f (setInput i c s) = f s.
Proof.
  rewrite (kept_through _ _ (rest_setInput i c s)).
  rewrite (kept_input f K), (kept_cursor f K). reflexivity.
Qed.

Lemma kept_handleCursorInsert (d : string) (s : LocalEchoController) :
  f (handleCursorInsert d s) = f s.
Proof.
  unfold handleCursorInsert. rewrite kept_setInput. apply K.
Qed.

Lemma kept_handleCursorMove (dir : Z) (s : LocalEchoController) :
  f (handleCursorMove dir s) = f s.
Proof.
  unfold handleCursorMove.
  destruct (dir >? 0); [apply kept_setCursor|].
  destruct (dir <? 0); [apply kept_setCursor | reflexivity].
Qed.

Lemma kept_handleCursorErase (b : bool) (s : LocalEchoController) :
  f (handleCursorErase b s) = f s.
Proof.
  unfold handleCursorErase. destruct b.
  - destruct (_cursor s <=? 0); [reflexivity|].
    rewrite kept_setInput, (kept_cursor f K). apply kept_clearInput.
  - apply kept_setInput.
Qed.

Lemma kept_handleEscape (seq : string) (s : LocalEchoController) :
  f (handleEscape seq s) = f s.
Proof.
  unfold handleEscape.
  repeat match goal with
         | |- context [if String.eqb ?a ?b then _ else _] =>
             destruct (String.eqb a b)
         end;
    try reflexivity;
    try apply kept_handleCursorMove;
    try apply kept_handleCursorErase;
    try apply kept_setCursor.
  - destruct (History.getPrevious (history s)) as [[v|] h];
      [|apply K].
    destruct (String.eqb v ""); [apply K|].
    rewrite kept_setCursor, kept_setInput. apply K.
  - destruct (History.getNext (history s)) as [v h].
    rewrite kept_setCursor, kept_setInput. apply K.
  - rewrite kept_setCursor, kept_setInput. reflexivity.
Qed.

Lemma kept_handleInterrupt (s : LocalEchoController) :
  f (handleInterrupt s) = f s.
Proof.
  unfold handleInterrupt.
  rewrite (kept_history f K), (kept_cursor f K), (kept_input f K).
  rewrite kept_write. apply kept_setCursor.
Qed.

Lemma kept_resume (cursor : Z) (s : LocalEchoController) :
  f (resume cursor s) = f s.
Proof. unfold resume. rewrite kept_setInput. apply K. Qed.

Lemma kept_handleTermResize (rows_ cols_ : Z) (s : LocalEchoController) :
  (forall v s, f (set_termSize v s) = f s) ->
  f (handleTermResize rows_ cols_ s) = f s.
Proof.
  intros Hsize. unfold handleTermResize.
  rewrite kept_setInput, Hsize. apply kept_clearInput.
Qed.

(** The callback that prints the candidates at once. *)
Lemma kept_printCandidates (fuel : nat) (candidates : list string)
  (s s' : LocalEchoController) :
  printAndRestartPrompt fuel (PrintCandidates candidates) s = Ok s' ->
  f s' = f s.
Proof.
  unfold printAndRestartPrompt.
  destruct (printWide fuel candidates 2 _) as [s2| |] eqn:E;
    cbn [bind]; try discriminate.
  intros [= <-]. rewrite kept_resume, (kept_printWide _ _ _ _ _ E).
  rewrite kept_write. apply kept_setCursor.
Qed.

End Editing.

Lemma mode_kept : Kept mode.
Proof. split; reflexivity. Qed.

Lemma ledger_kept : Kept ledger.
Proof. split; reflexivity. Qed.

Lemma active_kept : Kept _active.
Proof. split; reflexivity. Qed.

Lemma activePrompt_kept : Kept _activePrompt.
Proof. split; reflexivity. Qed.

Lemma promises_kept : Kept promises.
Proof. split; reflexivity. Qed.

Lemma reactions_kept : Kept reactions.
Proof. split; reflexivity. Qed.

(** ** The active flag, the line read in flight and the reactions *)

Lemma wellFormed_kept (s s' : LocalEchoController) :
  mode s' = mode s -> ledger s' = ledger s -> wellFormed s -> wellFormed s'.
Proof.
  unfold mode, ledger, wellFormed, activeWhileReading, reactionsOnCreated.
  intros [= Ha Hp] [= Hn Hr]. rewrite Ha, Hp, Hn, Hr. tauto.
Qed.

(** The callback that asks before it prints: a promise is created and a
    reaction chained on it. *)
Lemma wellFormed_confirmThenPrint (fuel : nat) (candidates : list string)
  (s s' : LocalEchoController) :
  printAndRestartPrompt fuel (ConfirmThenPrint candidates) s = Ok s' ->
  wellFormed s -> wellFormed s'.
Proof.
  unfold printAndRestartPrompt, readChar. intros [= <-] [Ha Hr].
  split.
  - unfold activeWhileReading in *.
    cbn [_active _activePrompt set_reactions set_activeCharPrompt].
    rewrite ?(kept_write _active active_kept).
    rewrite ?(kept_write _activePrompt activePrompt_kept).
    cbn [_active _activePrompt set_promises].
    rewrite ?(kept_write _active active_kept).
    rewrite ?(kept_write _activePrompt activePrompt_kept).
    rewrite (kept_setCursor _active active_kept).
    rewrite (kept_setCursor _activePrompt activePrompt_kept).
    exact Ha.
  - unfold reactionsOnCreated in *.
    cbn [promises reactions set_reactions set_activeCharPrompt].
    rewrite ?(kept_write promises promises_kept).
    rewrite ?(kept_write reactions reactions_kept).
    cbn [promises reactions set_promises].
    rewrite ?(kept_write promises promises_kept).
    rewrite ?(kept_write reactions reactions_kept).
    rewrite (kept_setCursor promises promises_kept).
    rewrite (kept_setCursor reactions reactions_kept).
    apply Forall_app. split.
    + eapply Forall_impl; [|exact Hr]. cbn. intros r Hlt. lia.
    + constructor; [cbn; lia | constructor].
Qed.

Lemma wellFormed_handleReadComplete (s : LocalEchoController) :
  wellFormed s -> wellFormed (handleReadComplete s).
Proof.
  intros [_ Hr]. split.
  - right. unfold handleReadComplete. cbn [_active set_active _activePrompt].
    split; [reflexivity|].
    redraw. cbn [_activePrompt set_history].
    destruct (_activePrompt s) eqn:E; cbn; [reflexivity | exact E].
  - unfold reactionsOnCreated, handleReadComplete in *.
    cbn [promises reactions set_active]. redraw.
    cbn [_activePrompt set_history].
    destruct (_activePrompt s); cbn; exact Hr.
Qed.

Section Invariant.

Variable parse : string -> list string.

Lemma wellFormed_handleTab (fuel : nat) (s s' : LocalEchoController) :
  handleTab parse fuel s = Ok s' -> wellFormed s -> wellFormed s'.
Proof.
  unfold handleTab.
  assert (Hins : forall d, wellFormed s -> wellFormed (handleCursorInsert d s)).
  { intros d. apply wellFormed_kept.
    - apply (kept_handleCursorInsert mode mode_kept).
    - apply (kept_handleCursorInsert ledger ledger_kept). }
  destruct (_ >? 0); [|intros [= <-]; apply Hins].
  destruct (_ =? 0).
  { destruct (negb _); intros [= <-]; [apply Hins | auto]. }
  destruct (_ =? 1).
  { destruct (index _ 0); [|discriminate]. intros [= <-]. apply Hins. }
  destruct (_ <=? _).
  - destruct (getSharedFragment _ _) as [r| |]; cbn [bind]; try discriminate.
    intros H Hs.
    apply (wellFormed_kept _ _
             (kept_printCandidates mode mode_kept _ _ _ _ H)
             (kept_printCandidates ledger ledger_kept _ _ _ _ H)).
    destruct (truthy r); [|exact Hs].
    destruct r; [apply Hins, Hs | exact Hs].
  - apply wellFormed_confirmThenPrint.
Qed.

Lemma wellFormed_handleData (fuel : nat) (data : string)
  (s s' : LocalEchoController) :
  handleData parse fuel data s = Ok s' -> wellFormed s -> wellFormed s'.
Proof.
  unfold handleData. destruct (negb (_active s)); [intros [= <-]; auto|].
  destruct (match charCodeAt0 data with Some o => o =? 27 | None => false end).
  { intros [= <-]. apply wellFormed_kept.
    - apply (kept_handleEscape mode mode_kept).
    - apply (kept_handleEscape ledger ledger_kept). }
  destruct (match charCodeAt0 data with
            | Some o => (o <? 32) || (o =? 127) | None => false end).
  2: { intros [= <-]. apply wellFormed_kept.
       - apply (kept_handleCursorInsert mode mode_kept).
       - apply (kept_handleCursorInsert ledger ledger_kept). }
  destruct (String.eqb data (chr CR)).
  { destruct (isIncompleteInput (_input s)); intros [= <-].
    - apply wellFormed_kept.
      + apply (kept_handleCursorInsert mode mode_kept).
      + apply (kept_handleCursorInsert ledger ledger_kept).
    - apply wellFormed_handleReadComplete. }
  destruct (String.eqb data (chr DEL)).
  { intros [= <-]. apply wellFormed_kept.
    - exact (kept_handleCursorErase mode mode_kept true s).
    - exact (kept_handleCursorErase ledger ledger_kept true s). }
  destruct (String.eqb data (chr TAB)); [apply wellFormed_handleTab|].
  destruct (String.eqb data (chr ETX)).
  { intros [= <-]. apply wellFormed_kept.
    - apply (kept_handleInterrupt mode mode_kept).
    - apply (kept_handleInterrupt ledger ledger_kept). }
  intros [= <-]. auto.
Qed.

Lemma wellFormed_handleEach (fuel : nat) (pieces : list string) :
  forall s s',
    handleEach parse fuel pieces s = Ok s' -> wellFormed s -> wellFormed s'.
Proof.
  induction pieces as [|c pieces IH]; intros s s'; cbn [handleEach].
  - intros [= <-]. auto.
  - destruct (handleData parse fuel c s) as [s1| |] eqn:E; cbn [bind];
      try discriminate.
    intros H Hs. eapply IH; [exact H|].
    eapply wellFormed_handleData; eauto.
Qed.

Lemma kept_runReactions {A : Type} (f : LocalEchoController -> A) (K : Kept f)
  (fuel : nat) (p : nat) (value : string) (pending : list (nat * Reaction)) :
  forall s s', runReactions fuel p value pending s = Ok s' -> f s' = f s.
Proof.
  induction pending as [|[q [candidates cursor]] pending IH]; intros s s';
    cbn [runReactions].
  - intros [= <-]. reflexivity.
  - destruct (Nat.eqb q p); [|apply IH].
    destruct (String.eqb value "y" || String.eqb value "Y").
    + destruct (printWide fuel candidates 2 s) as [s1| |] eqn:E; cbn [bind];
        try discriminate.
      intros H. apply IH in H.
      rewrite H, (kept_resume f K). eapply kept_printWide; eauto.
    + cbn [bind]. intros H. apply IH in H. rewrite H. apply (kept_resume f K).
Qed.

Lemma wellFormed_handleTermData (fuel : nat) (data : string)
  (s s' : LocalEchoController) :
  handleTermData parse fuel data s = Ok s' -> wellFormed s -> wellFormed s'.
Proof.
  unfold handleTermData. destruct (negb (_active s)); [intros [= <-]; auto|].
  destruct (_activeCharPrompt s) as [a|].
  - intros H [Ha Hr].
    pose proof (kept_runReactions mode mode_kept _ _ _ _ _ _ H) as Hm.
    pose proof (kept_runReactions ledger ledger_kept _ _ _ _ _ _ H) as Hl.
    injection Hm as Hact Hprompt. injection Hl as Hprom Hreac.
    revert Hact Hprompt Hprom Hreac.
    cbn [_active _activePrompt promises reactions set_reactions].
    redraw.
    cbn [_active _activePrompt promises reactions set_activeCharPrompt settle
         set_settled].
    intros Hact Hprompt Hprom Hreac. split.
    + unfold activeWhileReading in *. rewrite Hact, Hprompt. exact Ha.
    + unfold reactionsOnCreated in *. rewrite Hprom, Hreac.
      apply Forall_forall. intros r Hin. apply filter_In in Hin.
      rewrite Forall_forall in Hr. apply Hr, Hin.
  - destruct (_ && _).
    + apply wellFormed_handleEach.
    + apply wellFormed_handleData.
Qed.

Lemma wellFormed_perform (fuel : nat) (call : Call)
  (s s' : LocalEchoController) :
  perform parse fuel call s = Ok s' -> wellFormed s -> wellFormed s'.
Proof.
  destruct call; cbn [perform].
  - intros [= <-] [_ Hr]. split.
    + left. unfold read. cbn. split; [reflexivity | discriminate].
    + unfold reactionsOnCreated, read in *.
      cbn [snd promises reactions set_active set_cursor set_input
           set_activePrompt].
      redraw. cbn [promises reactions set_promises].
      eapply Forall_impl; [|exact Hr]. cbn. intros r Hlt. lia.
  - intros [= <-] [Ha Hr]. split.
    + unfold activeWhileReading, readChar in *.
      cbn [snd _active _activePrompt set_activeCharPrompt].
      redraw. cbn [_active _activePrompt set_promises]. exact Ha.
    + unfold reactionsOnCreated, readChar in *.
      cbn [snd promises reactions set_activeCharPrompt].
      redraw. cbn [promises reactions set_promises].
      eapply Forall_impl; [|exact Hr]. cbn. intros r Hlt. lia.
  - intros [= <-] [_ Hr]. split.
    + right. unfold abortRead. cbn [_active set_active _activePrompt].
      split; [reflexivity|].
      destruct (_activePrompt s) as [a|] eqn:E,
               (_activeCharPrompt s) as [b|] eqn:F.
      all: redraw; cbn; redraw; rewrite ?E, ?F; cbn; redraw; rewrite ?E, ?F; cbn.
      all: redraw; rewrite ?E; reflexivity.
    + unfold reactionsOnCreated, abortRead in *.
      cbn [promises reactions set_active].
      destruct (_activePrompt s) as [a|] eqn:E,
               (_activeCharPrompt s) as [b|] eqn:F.
      all: redraw; cbn; redraw; rewrite ?E, ?F; cbn; redraw; rewrite ?E, ?F; cbn.
      all: redraw; exact Hr.
  - intros [= <-]. apply wellFormed_kept.
    + apply (kept_print mode mode_kept).
    + apply (kept_print ledger ledger_kept).
  - intros [= <-]. apply wellFormed_kept.
    + apply (kept_println mode mode_kept).
    + apply (kept_println ledger ledger_kept).
  - intros H. apply wellFormed_kept.
    + apply (kept_printWide mode mode_kept _ _ _ _ _ H).
    + apply (kept_printWide ledger ledger_kept _ _ _ _ _ H).
  - intros [= <-]. apply wellFormed_kept; reflexivity.
  - intros [= <-]. apply wellFormed_kept; reflexivity.
  - apply wellFormed_handleTermData.
  - intros [= <-]. apply wellFormed_kept.
    + apply (kept_handleTermResize mode mode_kept). reflexivity.
    + apply (kept_handleTermResize ledger ledger_kept). reflexivity.
Qed.

Lemma wellFormed_constructor (term : option Terminal)
  (historySize maxEntries : option Z) :
  wellFormed (constructor term historySize maxEntries).
Proof.
  split; [right; split; reflexivity | constructor].
Qed.

(** Whatever its client and its terminal have done since its
    construction, the engine is active exactly while a line read is in
    flight, and its reactions are chained on promises that exist. *)
Lemma wellFormed_performAll (fuel : nat) (calls : list Call) :
  forall s s',
    performAll parse fuel calls s = Ok s' -> wellFormed s -> wellFormed s'.
Proof.
  induction calls as [|call calls IH]; intros s s'; cbn [performAll].
  - intros [= <-]. auto.
  - destruct (perform parse fuel call s) as [s1| |] eqn:E; cbn [bind];
      try discriminate.
    intros H Hs. eapply IH; [exact H|].
    eapply wellFormed_perform; eauto.
Qed.

End Invariant.

End EngineFacts.

(* ===================================================================== *)
(** * Further properties of src/lib/utils.ts                              *)
(* ===================================================================== *)

Module UtilsMore.
Import JS Utils Spec.

(** ** offsetToColRow and countLines *)

Lemma offsetLoop_bounds (n : nat) :
  forall input m r c,
    0 <= m -> 0 <= c <= m ->
    0 <= col (offsetLoop n input m r c) <= m /\
    r <= row (offsetLoop n input m r c) <= r + Z.of_nat n.
Proof.
  induction n as [|n IH]; intros input m r c Hm Hc; cbn [offsetLoop].
  - simpl. lia.
  - set (rest := match input with String _ t => t | EmptyString => EmptyString end).
    destruct (match input with String c0 _ => Ascii.eqb c0 LF | EmptyString => false end).
    + destruct (IH rest m (r + 1) 0 Hm ltac:(lia)) as [H1 H2]. lia.
    + destruct (Z.gtb_spec (c + 1) m).
      * destruct (IH rest m (r + 1) 0 Hm ltac:(lia)) as [H1 H2]. lia.
      * destruct (IH rest m r (c + 1) Hm ltac:(lia)) as [H1 H2]. lia.
Qed.

(** X1. For a wrap width [maxCols >= 0] the position that [offsetToColRow]
    gives has a column between 0 and [maxCols] and a row between 0 and the
    offset (0 for a negative offset). *)
Theorem offsetToColRow_bounds (input : string) (offset maxCols : Z) :
  0 <= maxCols ->
  0 <= col (offsetToColRow input offset maxCols) <= maxCols /\
  0 <= row (offsetToColRow input offset maxCols) <= Z.max 0 offset.
Proof.
  intros Hm. unfold offsetToColRow.
  destruct (offsetLoop_bounds (Z.to_nat offset) input maxCols 0 0 Hm ltac:(lia))
    as [H1 H2].
  split; [exact H1 | lia].
Qed.

Lemma offsetToColRow_bounds_witness :
  0 <= col (offsetToColRow "hello world" 11 4) <= 4 /\
  0 <= row (offsetToColRow "hello world" 11 4) <= Z.max 0 11.
Proof. apply (offsetToColRow_bounds "hello world" 11 4). lia. Defined.

Lemma offsetLoop_one_line (n : nat) :
  forall input m b k r c,
    0 <= m -> 0 <= k ->
    noLineTerminator input = true ->
    tracks m b k r c ->
    tracks m b (k + Z.of_nat n)
      (row (offsetLoop n input m r c)) (col (offsetLoop n input m r c)).
Proof.
  induction n as [|n IH]; intros input m b k r c Hm Hk Hline T;
    cbn [offsetLoop].
  - simpl. rewrite Z.add_0_r. exact T.
  - assert (Hrest : noLineTerminator
                      match input with String _ t => t | EmptyString => EmptyString end
                    = true).
    { destruct input as [|a t]; [reflexivity|].
      simpl in Hline. apply andb_true_iff in Hline. tauto. }
    assert (Hlf : match input with String c0 _ => Ascii.eqb c0 LF | EmptyString => false end
                  = false).
    { destruct input as [|a t]; [reflexivity|].
      simpl in Hline. apply andb_true_iff in Hline. destruct Hline as [Ha _].
      apply negb_true_iff in Ha. unfold isNewline in Ha.
      apply orb_false_iff in Ha. tauto. }
    rewrite Hlf.
    pose proof (UtilsFacts.wrap_step m k Hm Hk) as W.
    destruct T as [-> ->].
    replace (k + Z.of_nat (S n)) with ((k + 1) + Z.of_nat n) by lia.
    destruct (k mod (m + 1) + 1 >? m); destruct W as [Wd Wm].
    + apply IH; try assumption; try lia.
      unfold tracks. rewrite Wd, Wm. lia.
    + apply IH; try assumption; try lia.
      unfold tracks. rewrite Wd, Wm. lia.
Qed.

(** X2. On a text without line terminator, and for a wrap width
    [maxCols >= 0], the position of offset [offset >= 0] is the quotient
    and the remainder of the offset by [maxCols + 1]: a row holds
    [maxCols + 1] positions.  So the text takes
    [floor(length / (maxCols + 1)) + 1] lines. *)
Theorem offsetToColRow_one_line (input : string) (offset maxCols : Z) :
  0 <= maxCols -> 0 <= offset ->
  noLineTerminator input = true ->
  row (offsetToColRow input offset maxCols) = offset / (maxCols + 1) /\
  col (offsetToColRow input offset maxCols) = offset mod (maxCols + 1) /\
  countLines input maxCols = len input / (maxCols + 1) + 1.
Proof.
  intros Hm Ho Hline.
  assert (H : forall o, 0 <= o ->
            tracks maxCols 0 o (row (offsetToColRow input o maxCols))
              (col (offsetToColRow input o maxCols))).
  { intros o Hpos. unfold offsetToColRow.
    pose proof (offsetLoop_one_line (Z.to_nat o) input maxCols 0 0 0 0 Hm
                  ltac:(lia) Hline (UtilsFacts.tracks_start maxCols 0 Hm)) as T.
    rewrite Z2Nat.id in T by lia. exact T. }
  destruct (H offset Ho) as [Hr Hc].
  split; [lia | split; [exact Hc|]].
  unfold countLines. destruct (H (len input)) as [Hr' _]; [unfold len; lia|].
  lia.
Qed.

Lemma offsetToColRow_one_line_witness :
  row (offsetToColRow "hello world" 7 4) = 7 / (4 + 1) /\
  col (offsetToColRow "hello world" 7 4) = 7 mod (4 + 1) /\
  countLines "hello world" 4 = len "hello world" / (4 + 1) + 1.
Proof.
  apply (offsetToColRow_one_line "hello world" 7 4); [lia | lia | reflexivity].
Defined.

(** ** Word boundaries *)

Lemma len_String (c : ascii) (s : string) : len (String c s) = 1 + len s.
Proof. unfold len. simpl String.length. lia. Qed.

Lemma len_nonneg (s : string) : 0 <= len s.
Proof. unfold len. lia. Qed.

Lemma wordScan_left_bounds (s : string) :
  forall inWord i,
    Forall (fun x => i <= x < i + len s) (wordScan true inWord i s).
Proof.
  induction s as [|c s IH]; intros inWord i; cbn [wordScan].
  - destruct inWord; constructor.
  - rewrite len_String. pose proof (len_nonneg s) as Hl.
    assert (Hrec : forall b, Forall (fun x => i <= x < i + (1 + len s))
                               (wordScan true b (i + 1) s)).
    { intros b.
      apply Forall_impl with (P := fun x => i + 1 <= x < i + 1 + len s);
        [|apply IH].
      intros x Hx. cbv beta in *. lia. }
    destruct (isWordChar c), inWord; cbn [negb andb];
      try (constructor; [lia|]); apply Hrec.
Qed.

Lemma wordScan_right_bounds (s : string) :
  forall (inWord : bool) (i : Z),
    Forall (fun x => i + (if inWord then 0 else 1) <= x <= i + len s)
      (wordScan false inWord i s).
Proof.
  induction s as [|c s IH]; intros inWord i; cbn [wordScan].
  - destruct inWord; cbn [andb negb]; constructor; [|constructor].
    change (len "") with 0. lia.
  - rewrite len_String. pose proof (len_nonneg s) as Hl.
    assert (Hrec : forall b : bool,
               Forall (fun x => i + (if inWord then 0 else 1) <= x
                                <= i + (1 + len s))
                 (wordScan false b (i + 1) s)).
    { intros b.
      apply Forall_impl
        with (P := fun x => i + 1 + (if b then 0 else 1) <= x
                            <= i + 1 + len s);
        [|apply IH].
      intros x Hx. cbv beta in *. destruct b, inWord; lia. }
    destruct (isWordChar c), inWord; cbn [negb andb];
      try (constructor; [lia|]); apply Hrec.
Qed.

Lemma closestLeftBoundary_range (input : string) (offset : Z) :
  0 <= closestLeftBoundary input offset <= len input /\
  (0 < offset -> closestLeftBoundary input offset < offset).
Proof.
  unfold closestLeftBoundary, wordBoundaries.
  pose proof (len_nonneg input) as Hl.
  destruct (find (fun x => x <? offset) (rev (wordScan true false 0 input)))
    as [x|] eqn:E.
  - apply find_some in E. destruct E as [Hin Hlt].
    apply in_rev in Hin. apply Z.ltb_lt in Hlt.
    pose proof (wordScan_left_bounds input false 0) as Hb.
    rewrite Forall_forall in Hb. specialize (Hb x Hin). lia.
  - lia.
Qed.

(** X3. [closestLeftBoundary input offset] lies between 0 and the length of
    the input, and strictly below [offset] when [offset] is positive:
    ALT+LEFT and the word kill never leave the input and always move
    left. *)
Theorem closestLeftBoundary_bounds (input : string) (offset : Z) :
  0 <= closestLeftBoundary input offset <= len input /\
  (0 < offset -> closestLeftBoundary input offset < offset).
Proof.
  exact (closestLeftBoundary_range input offset).
Qed.

Lemma closestLeftBoundary_bounds_witness :
  closestLeftBoundary "git commit" 7 < 7.
Proof. apply (closestLeftBoundary_bounds "git commit" 7). lia. Defined.

Lemma closestRightBoundary_range (input : string) (offset : Z) :
  0 <= closestRightBoundary input offset <= len input /\
  (offset < len input -> offset < closestRightBoundary input offset).
Proof.
  unfold closestRightBoundary, wordBoundaries.
  pose proof (len_nonneg input) as Hl.
  destruct (find (fun x => x >? offset) (wordScan false false 0 input))
    as [x|] eqn:E.
  - apply find_some in E. destruct E as [Hin Hgt].
    apply Z.gtb_lt in Hgt.
    pose proof (wordScan_right_bounds input false 0) as Hb.
    rewrite Forall_forall in Hb. specialize (Hb x Hin). cbn in Hb. lia.
  - lia.
Qed.

(** X4. [closestRightBoundary input offset] lies between 0 and the length
    of the input, and strictly above [offset] when [offset] is below the
    length: ALT+RIGHT never leaves the input and always moves right. *)
Theorem closestRightBoundary_bounds (input : string) (offset : Z) :
  0 <= closestRightBoundary input offset <= len input /\
  (offset < len input -> offset < closestRightBoundary input offset).
Proof.
  exact (closestRightBoundary_range input offset).
Qed.

Lemma closestRightBoundary_bounds_witness :
  3 < closestRightBoundary "git commit" 3.
Proof. apply (closestRightBoundary_bounds "git commit" 3). reflexivity. Defined.

(** ** collectAutocompleteCandidates *)

Section Collect.

Variable parse : string -> list string.

Lemma gather_start (index : Z) (tokens : list string)
  (callbacks : list AutocompleteHandler) :
  forall start,
    gather index tokens callbacks start
    = (start ++ gather index tokens callbacks [])%list.
Proof.
  unfold gather. induction callbacks as [|h hs IH]; intros start; cbn [fold_left].
  - rewrite app_nil_r. reflexivity.
  - rewrite IH. rewrite (IH (match fn h index tokens with
                             | Some found => ([] ++ found)%list
                             | None => []
                             end)).
    destruct (fn h index tokens); cbn [app]; [rewrite app_assoc|]; reflexivity.
Qed.

Lemma candidates_app (hs1 hs2 : list AutocompleteHandler) (input : string) :
  collectAutocompleteCandidates parse (hs1 ++ hs2) input
  = (collectAutocompleteCandidates parse hs1 input
     ++ collectAutocompleteCandidates parse hs2 input)%list.
Proof.
  unfold collectAutocompleteCandidates.
  destruct (if String.eqb (trim input) "" then (0, "")
            else if hasTailingWhitespace input
                 then (Z.of_nat (List.length (parse input)) - 1 + 1, "")
                 else (Z.of_nat (List.length (parse input)) - 1,
                       match index (parse input)
                               (Z.of_nat (List.length (parse input)) - 1) with
                       | Some t => t
                       | None => ""
                       end)) as [i expr].
  fold (gather i (parse input) (hs1 ++ hs2) []).
  fold (gather i (parse input) hs1 []). fold (gather i (parse input) hs2 []).
  unfold gather at 1. rewrite fold_left_app.
  fold (gather i (parse input) hs1 []).
  fold (gather i (parse input) hs2 (gather i (parse input) hs1 [])).
  rewrite gather_start, filter_app. reflexivity.
Qed.

(** X5. The candidates of a list of handlers are those of its first part
    followed by those of its second part: the handlers contribute in the
    order of their registration, and no candidate is dropped or merged. *)
Theorem collectAutocompleteCandidates_app
  (hs1 hs2 : list AutocompleteHandler) (input : string) :
  collectAutocompleteCandidates parse (hs1 ++ hs2) input
  = (collectAutocompleteCandidates parse hs1 input
     ++ collectAutocompleteCandidates parse hs2 input)%list.
Proof.
  exact (candidates_app hs1 hs2 input).
Qed.

(** X6. A handler that throws is isolated: the candidates are those of the
    other handlers. *)
Theorem collectAutocompleteCandidates_throwing
  (hs1 hs2 : list AutocompleteHandler) (h : AutocompleteHandler)
  (input : string) :
  (forall index tokens, fn h index tokens = None) ->
  collectAutocompleteCandidates parse (hs1 ++ h :: hs2) input
  = collectAutocompleteCandidates parse (hs1 ++ hs2) input.
Proof.
  intros Hthrow.
  change (h :: hs2) with ([h] ++ hs2)%list.
  rewrite !candidates_app.
  assert (Hh : collectAutocompleteCandidates parse [h] input = []).
  { unfold collectAutocompleteCandidates.
    destruct (if String.eqb (trim input) "" then _ else _) as [i expr].
    cbn [fold_left]. rewrite Hthrow. reflexivity. }
  rewrite Hh. reflexivity.
Qed.

(** X7. Every candidate starts with the token that [getLastToken] gives for
    the same input: the token that the completion replaces. *)
Theorem collectAutocompleteCandidates_start_with_last_token
  (callbacks : list AutocompleteHandler) (input : string) :
  Forall (fun txt => startsWith txt (getLastToken parse input) = true)
    (collectAutocompleteCandidates parse callbacks input).
Proof.
  unfold collectAutocompleteCandidates, getLastToken.
  rewrite HistoryFacts.index_last. fold (pop (parse input)).
  destruct (String.eqb (trim input) ""); cbn [orb].
  - apply Forall_forall. intros txt Hin. apply filter_In in Hin. tauto.
  - destruct (hasTailingWhitespace input).
    + apply Forall_forall. intros txt Hin. apply filter_In in Hin. tauto.
    + apply Forall_forall. intros txt Hin. apply filter_In in Hin. tauto.
Qed.

End Collect.

(** ** getSharedFragment *)

Lemma startsWith_app (s p : string) :
  startsWith s p = true <-> exists t, s = p ++ t.
Proof.
  unfold startsWith. revert s. induction p as [|a p IH]; intros s.
  - destruct s; simpl; split; eauto.
  - destruct s as [|b s]; simpl;
      [split; [discriminate | intros [t Ht]; discriminate]|].
    destruct (ascii_dec a b) as [->|Hn].
    + rewrite IH. split; intros [t Ht]; exists t.
      * rewrite Ht. reflexivity.
      * injection Ht as Ht. exact Ht.
    + split; [discriminate|]. intros [t Ht]. injection Ht as Ha _.
      congruence.
Qed.

Lemma append_assoc (a b c : string) : (a ++ b) ++ c = a ++ (b ++ c).
Proof. induction a as [|x a IH]; cbn; [reflexivity | now rewrite IH]. Qed.

Lemma append_nil_r (a : string) : a ++ "" = a.
Proof. induction a as [|x a IH]; cbn; [reflexivity | now rewrite IH]. Qed.

Lemma append_inj_l (a b c : string) : a ++ b = a ++ c -> b = c.
Proof.
  induction a as [|x a IH]; cbn; [auto|]. intros [= H]. auto.
Qed.

Lemma startsWith_refl (s : string) : startsWith s s = true.
Proof. apply startsWith_app. exists "". symmetry. apply append_nil_r. Qed.

Lemma startsWith_trans (s p q : string) :
  startsWith s p = true -> startsWith p q = true -> startsWith s q = true.
Proof.
  rewrite !startsWith_app. intros [t ->] [u ->]. exists (u ++ t).
  apply append_assoc.
Qed.

Lemma slice_next (f : string) (ch : ascii) (t : string) :
  slice (f ++ String ch t) (len f) (len f + 1) = chr ch.
Proof.
  unfold slice, len. rewrite Utils.length_append. cbn [String.length].
  replace (Z.to_nat (Z.min (Z.max (Z.of_nat (String.length f)) 0)
                       (Z.of_nat (String.length f + S (String.length t)))))
    with (String.length f) by lia.
  replace (Z.to_nat _) with 1%nat by lia.
  induction f as [|x f IH]; cbn; [destruct t; reflexivity | exact IH].
Qed.

(** A proper extension of a fragment inside a candidate starts with the
    fragment extended by the next character of the candidate. *)
Lemma next_char_forced (fragment c0 p : string) :
  startsWith c0 p = true -> startsWith p fragment = true -> p <> fragment ->
  startsWith p (fragment ++ slice c0 (len fragment) (len fragment + 1)) = true.
Proof.
  rewrite !startsWith_app. intros [t ->] [u ->] Hne.
  destruct u as [|ch u]; [rewrite append_nil_r in Hne; contradiction|].
  rewrite append_assoc. cbn [append]. rewrite slice_next.
  exists u. rewrite append_assoc. reflexivity.
Qed.

Lemma scanCandidates_stops (old frag : string) (cs : list string) (r : string) :
  scanCandidates old frag cs = Some (Some r) ->
  r = old /\ exists c, In c cs /\ startsWith c frag = false.
Proof.
  induction cs as [|c cs IH]; cbn; [discriminate|].
  destruct (startsWith c old); cbn; [|discriminate].
  destruct (startsWith c frag) eqn:E; cbn.
  - intros H. destruct (IH H) as (Hr & c' & Hin & Hc). eauto.
  - intros [= <-]. eauto.
Qed.

(** X8. When every candidate starts with the fragment, [getSharedFragment]
    returns a string, never [null]; the string starts with the fragment,
    every candidate starts with it, and no longer string does: it is the
    longest common prefix of the candidates. *)
Theorem getSharedFragment_longest_common_prefix
  (fragment : string) (candidates : list string) :
  candidates <> [] ->
  Forall (fun c => startsWith c fragment = true) candidates ->
  exists shared,
    getSharedFragment fragment candidates = Ok (Some shared) /\
    startsWith shared fragment = true /\
    Forall (fun c => startsWith c shared = true) candidates /\
    (forall p, startsWith p shared = true ->
               Forall (fun c => startsWith c p = true) candidates ->
               p = shared).
Proof.
  funelim (getSharedFragment fragment candidates); intros Hne Hall.
  - contradiction.
  - exists fragment. split; [reflexivity|].
    split; [apply startsWith_refl|]. split; [exact Hall|].
    intros p Hp Hc. inversion Hc as [|? ? Hc0 _]; subst.
    apply startsWith_app in Hp. destruct Hp as [u ->].
    apply startsWith_app in Hc0. destruct Hc0 as [t ->].
    pose proof (proj1 (Z.geb_le _ _) e) as Hlen. unfold len in Hlen.
    rewrite !Utils.length_append in Hlen.
    destruct u as [|ch u]; [apply append_nil_r|].
    cbn [String.length] in Hlen. lia.
  - destruct r as [x|].
    2: { exfalso. eapply UtilsFacts.scanCandidates_common_prefix; eauto. }
    destruct (scanCandidates_stops _ _ _ _ e) as (-> & c & Hin & Hc).
    exists fragment. split; [reflexivity|].
    split; [apply startsWith_refl|]. split; [exact Hall|].
    intros p Hp Hcs. destruct (string_dec p fragment) as [Heq|Hneq]; [exact Heq|].
    exfalso.
    assert (Hc0 : startsWith c0 p = true) by (inversion Hcs; assumption).
    pose proof (next_char_forced fragment c0 p Hc0 Hp Hneq) as Hnext.
    rewrite Forall_forall in Hcs. specialize (Hcs c Hin).
    rewrite (startsWith_trans _ _ _ Hcs Hnext) in Hc. discriminate.
  - destruct H as (shared & Hs & Hpre & Hcommon & Hmax); [exact Hne | |].
    { eapply UtilsFacts.scanCandidates_extends; eauto. }
    exists shared. split; [exact Hs|]. split; [|split; assumption].
    eapply startsWith_trans; [exact Hpre|].
    apply startsWith_app. eexists. reflexivity.
Qed.

Lemma getSharedFragment_longest_common_prefix_witness :
  exists shared,
    getSharedFragment "s" ["stash"; "status"] = Ok (Some shared) /\
    startsWith shared "s" = true /\
    Forall (fun c => startsWith c shared = true) ["stash"; "status"] /\
    (forall p, startsWith p shared = true ->
               Forall (fun c => startsWith c p = true) ["stash"; "status"] ->
               p = shared).
Proof.
  apply (getSharedFragment_longest_common_prefix "s" ["stash"; "status"]).
  - discriminate.
  - repeat constructor.
Defined.

Lemma collectAutocompleteCandidates_throwing_witness :
  let good := {| fnId := 0; fn := fun _ _ => Some ["status"; "stash"] |} in
  let bad := {| fnId := 1; fn := fun _ _ => None |} in
  collectAutocompleteCandidates words [bad; good] "git st"
  = collectAutocompleteCandidates words [good] "git st".
Proof.
  cbv zeta.
  apply (collectAutocompleteCandidates_throwing words []
           [{| fnId := 0; fn := fun _ _ => Some ["status"; "stash"] |}]
           {| fnId := 1; fn := fun _ _ => None |} "git st").
  reflexivity.
Defined.

(** X12. On an input of one line (no line terminator) the pattern of
    [hasTailingWhitespace] tests the end of the input: the result is true
    exactly when the input ends in a space or a tab that follows a
    character other than a backslash. *)
Theorem hasTailingWhitespace_on_one_line (input : string) :
  noLineTerminator input = true ->
  hasTailingWhitespace input = endsInUnescapedBlank input.
Proof. apply UtilsFacts.hasTailingWhitespace_one_line. Qed.

Lemma hasTailingWhitespace_on_one_line_witness :
  hasTailingWhitespace "git commit " = endsInUnescapedBlank "git commit ".
Proof. apply (hasTailingWhitespace_on_one_line "git commit "). reflexivity. Defined.

End UtilsMore.

(* ===================================================================== *)
(** * Further properties of HistoryController                             *)
(* ===================================================================== *)

Module HistoryMore.
Import JS History Spec.

Lemma noAdjacentDuplicates_tl (l : list string) :
  noAdjacentDuplicates l -> noAdjacentDuplicates (List.tl l).
Proof.
  destruct l as [|a [|b l]]; cbn; tauto.
Qed.

Lemma noAdjacentDuplicates_snoc (l : list string) (e : string) :
  noAdjacentDuplicates l ->
  List.last (map Some l) None <> Some e ->
  noAdjacentDuplicates (l ++ [e]).
Proof.
  induction l as [|a l IH]; [cbn; tauto|].
  destruct l as [|b l].
  - cbn. intros _ H. split; [congruence | exact I].
  - intros [Hab Hl] Hlast. cbn [app noAdjacentDuplicates].
    split; [exact Hab|]. apply IH; [exact Hl | exact Hlast].
Qed.

Lemma healthyEntries_push (entry : string) (h : HistoryController) :
  healthyEntries (size h) (entries h) ->
  healthyEntries (size (push entry h)) (entries (push entry h)).
Proof.
  intros (Hb & Hd & Hl). unfold push.
  destruct (String.eqb (trim entry) "") eqn:Et; [repeat split; assumption|].
  rewrite HistoryFacts.index_last.
  destruct (sameEntry entry (List.last (map Some (entries h)) None)) eqn:Es;
    [repeat split; assumption|].
  cbn [size entries].
  assert (Hb' : Forall (fun e => trim e <> "") (entries h ++ [entry])).
  { apply Forall_app. split; [exact Hb|]. constructor; [|constructor].
    apply String.eqb_neq, Et. }
  assert (Hd' : noAdjacentDuplicates (entries h ++ [entry])).
  { apply noAdjacentDuplicates_snoc; [exact Hd|].
    intros E. rewrite E in Es. cbn in Es. rewrite String.eqb_refl in Es.
    discriminate. }
  assert (Hlen : List.length (entries h ++ [entry]) = S (List.length (entries h))).
  { rewrite length_app. simpl List.length. lia. }
  destruct (Z.gtb_spec (Z.of_nat (List.length (entries h ++ [entry]))) (size h))
    as [Hover|Hfit].
  - unfold shift. split; [|split].
    + destruct (entries h ++ [entry])%list; [constructor|].
      inversion Hb'; assumption.
    + apply noAdjacentDuplicates_tl, Hd'.
    + destruct (entries h ++ [entry])%list eqn:E; simpl List.length in *; lia.
  - split; [exact Hb' | split; [exact Hd' | lia]].
Qed.

Lemma healthyEntries_apply (op : operation) (h : HistoryController) :
  healthyEntries (size h) (entries h) ->
  healthyEntries (size (apply op h)) (entries (apply op h)).
Proof.
  destruct op; cbn [apply]; [apply healthyEntries_push | | |]; auto.
Qed.

Lemma size_apply (op : operation) (h : HistoryController) :
  size (apply op h) = size h.
Proof.
  destruct op; cbn; try reflexivity. unfold push.
  destruct (String.eqb _ _); [reflexivity|].
  destruct (sameEntry _ _); reflexivity.
Qed.

(** X9. After every sequence of [push], [rewind], [getPrevious] and
    [getNext] on a fresh history of capacity [n], no stored entry is blank,
    no entry equals the one stored just before it, and there are at most
    [n] entries (none for a negative [n]). *)
Theorem history_entries_invariant (n : Z) (ops : list operation) :
  healthyEntries n (entries (run ops (constructor n))) /\
  size (run ops (constructor n)) = n.
Proof.
  assert (H : forall h, healthyEntries (size h) (entries h) ->
            healthyEntries (size (run ops h)) (entries (run ops h)) /\
            size (run ops h) = size h).
  { unfold run. induction ops as [|op ops IH]; intros h Hh; cbn [fold_left].
    - auto.
    - destruct (IH (apply op h) (healthyEntries_apply op h Hh)) as [H1 H2].
      split; [exact H1|]. rewrite H2. apply size_apply. }
  destruct (H (constructor n)) as [H1 H2].
  - split; [apply Forall_nil | split; [exact I | cbn; lia]].
  - rewrite H2 in H1. auto.
Qed.

Lemma last_tl_snoc (l : list string) (e : string) :
  (1 <= List.length l)%nat ->
  List.last (map Some (List.tl (l ++ [e]))) None = Some e.
Proof.
  destruct l as [|a l]; [simpl; lia|]. intros _. cbn [app List.tl].
  rewrite map_app. apply last_last.
Qed.

Lemma push_stores (h : HistoryController) (entry : string) :
  trim entry <> "" ->
  List.last (map Some (entries h)) None <> Some entry ->
  entries (push entry h) = stored (size h) (entries h) entry /\
  cursor (push entry h) = Z.of_nat (List.length (entries (push entry h))).
Proof.
  intros Ht Hl. unfold push. rewrite HistoryFacts.index_last.
  apply String.eqb_neq in Ht. rewrite Ht.
  assert (Hs : sameEntry entry (List.last (map Some (entries h)) None) = false).
  { destruct (List.last (map Some (entries h)) None) as [e|]; [|reflexivity].
    simpl. apply String.eqb_neq. intros ->. apply Hl. reflexivity. }
  rewrite Hs. cbn [entries cursor]. unfold stored, shift.
  rewrite length_app. simpl List.length.
  rewrite Nat2Z.inj_add. auto.
Qed.

(** X10. On a history of capacity at least 1, an entry that is stored
    (not blank, not the last entry) is the one that the next [getPrevious]
    returns: Up-arrow recalls the line entered last. *)
Theorem push_then_getPrevious (entry : string) (h : HistoryController) :
  1 <= size h ->
  trim entry <> "" ->
  List.last (map Some (entries h)) None <> Some entry ->
  fst (getPrevious (push entry h)) = Some entry.
Proof.
  intros Hsize Ht Hl.
  destruct (push_stores h entry Ht Hl) as [He Hc].
  unfold getPrevious. cbn [fst]. rewrite Hc.
  assert (Hlast : List.last (map Some (entries (push entry h))) None = Some entry).
  { rewrite He. unfold stored.
    destruct (Z.gtb_spec (Z.of_nat (List.length (entries h)) + 1) (size h)).
    - apply last_tl_snoc. lia.
    - rewrite map_app. apply last_last. }
  assert (Hne : (1 <= List.length (entries (push entry h)))%nat).
  { destruct (entries (push entry h)); [discriminate | simpl; lia]. }
  replace (Z.max 0 (Z.of_nat (List.length (entries (push entry h))) - 1))
    with (Z.of_nat (List.length (entries (push entry h))) - 1) by lia.
  rewrite HistoryFacts.index_last. exact Hlast.
Qed.

Lemma push_then_getPrevious_witness :
  fst (getPrevious (push "ls -l" (push "cd /tmp" (constructor 10)))) = Some "ls -l".
Proof.
  apply (push_then_getPrevious "ls -l" (push "cd /tmp" (constructor 10)));
    [vm_compute; discriminate | vm_compute; discriminate
     | vm_compute; discriminate].
Defined.

(** X11. Inside the entries, [getNext] and [getPrevious] undo each other:
    below the end, [getNext] then [getPrevious] gives back the history and
    returns the entry under the cursor; above the start, [getPrevious]
    then [getNext] gives back the history. *)
Theorem getNext_getPrevious_round_trip (h : HistoryController) :
  (0 <= cursor h < Z.of_nat (List.length (entries h)) ->
   snd (getPrevious (snd (getNext h))) = h /\
   fst (getPrevious (snd (getNext h))) = index (entries h) (cursor h)) /\
  (0 < cursor h <= Z.of_nat (List.length (entries h)) ->
   snd (getNext (snd (getPrevious h))) = h).
Proof.
  destruct h as [n l c]. unfold getNext, getPrevious. cbn [snd fst cursor entries size].
  split; intros Hc.
  - replace (Z.min (Z.of_nat (List.length l)) (c + 1)) with (c + 1) by lia.
    replace (Z.max 0 (c + 1 - 1)) with c by lia. split; reflexivity.
  - replace (Z.max 0 (c - 1)) with (c - 1) by lia.
    replace (Z.min (Z.of_nat (List.length l)) (c - 1 + 1)) with c by lia.
    reflexivity.
Qed.

Lemma getNext_getPrevious_round_trip_witness :
  let h := snd (getPrevious (push "b" (push "a" (constructor 10)))) in
  snd (getPrevious (snd (getNext h))) = h /\
  fst (getPrevious (snd (getNext h))) = Some "b".
Proof.
  cbv zeta.
  apply (getNext_getPrevious_round_trip
           (snd (getPrevious (push "b" (push "a" (constructor 10)))))).
  vm_compute. split; [discriminate | reflexivity].
Defined.

End HistoryMore.

(* ===================================================================== *)
(** * Further properties of src/lib/LocalEchoController.ts                *)
(* ===================================================================== *)

Module EngineMore.
Import JS Utils Engine Spec EngineFacts.

(** ** print and println *)

Lemma getSubstitution_plain (matched before after : string) :
  forall replacement,
    countMatches DOLLAR replacement = 0%nat ->
    getSubstitution matched before after replacement = replacement.
Proof.
  induction replacement as [|c r IH]; [reflexivity|].
  cbn [countMatches getSubstitution].
  destruct (Ascii.eqb DOLLAR c) eqn:E.
  - discriminate.
  - rewrite Ascii.eqb_sym, E. intros H. rewrite (IH H). reflexivity.
Qed.

Lemma replaceLF_replaceRuns (by_ : string) (s : string) :
  countMatches DOLLAR by_ = 0%nat ->
  forall inRun before,
    replaceLFFrom by_ before (replaceRuns (chr LF) inRun s)
    = replaceRuns by_ inRun s.
Proof.
  intros Hby.
  induction s as [|c s IH]; intros inRun before; cbn [replaceRuns];
    [reflexivity|].
  destruct (isNewline c) eqn:E.
  - destruct inRun; [apply IH|].
    cbn [chr append replaceLFFrom]. rewrite Ascii.eqb_refl, IH.
    rewrite (getSubstitution_plain _ _ _ _ Hby). reflexivity.
  - cbn [replaceLFFrom].
    assert (Hc : Ascii.eqb c LF = false).
    { unfold isNewline in E. apply orb_false_iff in E. tauto. }
    rewrite Hc, IH. reflexivity.
Qed.

(** X13. [print message] passes one text to the terminal: the message in
    which every maximal run of carriage returns and line feeds is replaced
    by a single CR LF.  Nothing else of the controller changes.  (So blank
    lines in a message are not printed.) *)
Theorem print_writes_normalised (message : string) (s : LocalEchoController) :
  term (print message s)
  = option_map (received (replaceNewlineRuns message (chr CR ++ chr LF)))
      (term s) /\
  rest (print message s) = rest s.
Proof.
  split; [|apply rest_print].
  unfold print. rewrite term_write. unfold replaceNewlineRuns.
  unfold replaceLF. rewrite replaceLF_replaceRuns; reflexivity.
Qed.

(** ** applyPrompts *)

Lemma len_replaceLF (by_ : string) :
  countMatches DOLLAR by_ = 0%nat ->
  forall input before,
    len (replaceLFFrom by_ before input)
    = len input + Z.of_nat (countMatches LF input) * (len by_ - 1).
Proof.
  intros Hby.
  induction input as [|c input IH]; intros before;
    cbn [replaceLFFrom countMatches].
  - change (len "") with 0. lia.
  - destruct (Ascii.eqb_spec c LF) as [->|Hn].
    + rewrite Ascii.eqb_refl, len_append, IH, UtilsMore.len_String.
      rewrite (getSubstitution_plain _ _ _ _ Hby). lia.
    + assert (Hc : Ascii.eqb LF c = false)
        by (apply Ascii.eqb_neq; congruence).
      rewrite Hc, !UtilsMore.len_String, IH. lia.
Qed.

(** X14. While the continuation prompt holds no [$], the displayed text
    [applyPrompts input] has the length of the prompt, plus the length of
    the input, plus the length of the continuation prompt for every line
    feed of the input; when no line read is in flight it has the length of
    the input.  (A [$] in the continuation prompt is read as a replacement
    pattern by [replace], see [applyPrompts_dollar].) *)
Theorem applyPrompts_length (input : string) (s : LocalEchoController) :
  plainContinuation s ->
  len (applyPrompts input s)
  = match _activePrompt s with
    | Some a =>
        len (prompt a) + len input
        + Z.of_nat (countMatches LF input) * len (continuationPrompt a)
    | None => len input
    end.
Proof.
  unfold plainContinuation, applyPrompts, replaceLF. intros Hplain.
  rewrite len_append, len_replaceLF, len_append.
  - change (len (chr LF)) with 1.
    destruct (_activePrompt s); [lia|]. change (len "") with 0. lia.
  - cbn [chr append countMatches].
    change (Ascii.eqb DOLLAR LF) with false. cbv iota.
    destruct (_activePrompt s) as [a|]; [exact Hplain | reflexivity].
Qed.

Lemma applyPrompts_length_witness :
  let s := snd (read "$ " "> " (constructor (Some xterm) None None)) in
  plainContinuation s /\
  len (applyPrompts ("a" ++ chr LF ++ "b") s) = 7.
Proof.
  cbv zeta. split; [reflexivity|].
  apply (applyPrompts_length ("a" ++ chr LF ++ "b")
           (snd (read "$ " "> " (constructor (Some xterm) None None)))).
  reflexivity.
Defined.

(** With the continuation prompt [$$ ], [replace] writes [$ ] after every
    line feed: the text displayed for the two lines [a] and [b] has 7
    characters, not 8. *)
Lemma applyPrompts_dollar :
  applyPrompts ("a" ++ chr LF ++ "b")
    (snd (read "$ " "$$ " (constructor (Some xterm) None None)))
  = "$ a" ++ chr LF ++ "$ b".
Proof. reflexivity. Qed.

(** ** The cursor stays in the input buffer *)

Lemma setInput_fields (i : string) (c : bool) (s : LocalEchoController) :
  _input (setInput i c s) = i /\
  _cursor (setInput i c s)
  = (if _cursor s >? len i then len i else _cursor s).
Proof. split; redraw; reflexivity. Qed.

Lemma setCursor_fields (n : Z) (s : LocalEchoController) :
  _input (setCursor n s) = _input s /\
  _cursor (setCursor n s) = clampCursor n s.
Proof. split; redraw; reflexivity. Qed.

Lemma history_setCursor (n : Z) (s : LocalEchoController) :
  history (setCursor n s) = history s.
Proof. redraw. reflexivity. Qed.

Lemma history_setInput (i : string) (c : bool) (s : LocalEchoController) :
  history (setInput i c s) = history s.
Proof. redraw. reflexivity. Qed.

Lemma clampCursor_range (n : Z) (s : LocalEchoController) :
  0 <= clampCursor n s <= len (_input s).
Proof.
  unfold clampCursor. pose proof (UtilsMore.len_nonneg (_input s)).
  destruct (Z.ltb_spec n 0);
    match goal with |- context [?a >? ?b] => destruct (Z.gtb_spec a b) end; lia.
Qed.

Lemma inputState_setCursor (n : Z) (s : LocalEchoController) :
  savedCursors s -> inputState (setCursor n s).
Proof.
  intros Hr. destruct (setCursor_fields n s) as [Hi Hc]. split.
  - unfold cursorInBuffer. rewrite Hi, Hc. apply clampCursor_range.
  - unfold savedCursors. rewrite (kept_setCursor reactions reactions_kept).
    exact Hr.
Qed.

Lemma inputState_setInput (i : string) (c : bool) (s : LocalEchoController) :
  0 <= _cursor s -> savedCursors s -> inputState (setInput i c s).
Proof.
  intros Hpos Hr. destruct (setInput_fields i c s) as [Hi Hc]. split.
  - unfold cursorInBuffer. rewrite Hi, Hc.
    pose proof (UtilsMore.len_nonneg i).
    destruct (Z.gtb_spec (_cursor s) (len i)); lia.
  - unfold savedCursors. rewrite (kept_setInput reactions reactions_kept).
    exact Hr.
Qed.

Lemma inputState_handleCursorInsert (d : string) (s : LocalEchoController) :
  inputState s -> inputState (handleCursorInsert d s).
Proof.
  intros [Hc Hr]. unfold handleCursorInsert.
  apply inputState_setInput.
  - cbn [_cursor set_cursor]. pose proof (UtilsMore.len_nonneg d).
    unfold cursorInBuffer in Hc. lia.
  - exact Hr.
Qed.

Lemma inputState_handleCursorMove (dir : Z) (s : LocalEchoController) :
  inputState s -> inputState (handleCursorMove dir s).
Proof.
  intros Hs. unfold handleCursorMove.
  destruct (dir >? 0); [apply inputState_setCursor, Hs|].
  destruct (dir <? 0); [apply inputState_setCursor, Hs | exact Hs].
Qed.

Lemma inputState_handleCursorErase (b : bool) (s : LocalEchoController) :
  inputState s -> inputState (handleCursorErase b s).
Proof.
  intros [Hc Hr]. unfold handleCursorErase, cursorInBuffer in *. destruct b.
  - destruct (Z.leb_spec (_cursor s) 0); [split; assumption|].
    apply inputState_setInput.
    + cbn [_cursor set_cursor].
      redraw. lia.
    + unfold savedCursors. cbn [reactions set_cursor]. redraw. exact Hr.
  - apply inputState_setInput; [lia | exact Hr].
Qed.

Lemma savedCursors_same (s s' : LocalEchoController) :
  reactions s' = reactions s -> savedCursors s -> savedCursors s'.
Proof. unfold savedCursors. intros ->. auto. Qed.

Lemma inputState_handleEscape (seq : string) (s : LocalEchoController) :
  inputState s -> inputState (handleEscape seq s).
Proof.
  intros Hs. pose proof Hs as [Hc Hr]. unfold handleEscape.
  repeat match goal with
         | |- context [if String.eqb ?a ?b then _ else _] =>
             destruct (String.eqb a b)
         end;
    try exact Hs;
    try (apply inputState_handleCursorMove, Hs);
    try (apply inputState_handleCursorErase, Hs);
    try (apply inputState_setCursor, Hr).
  - destruct (History.getPrevious (history s)) as [[v|] h];
      [|exact Hs].
    destruct (String.eqb v ""); [exact Hs|].
    apply inputState_setCursor.
    apply (savedCursors_same s); [|exact Hr].
    rewrite (kept_setInput reactions reactions_kept). reflexivity.
  - destruct (History.getNext (history s)) as [v h].
    apply inputState_setCursor.
    apply (savedCursors_same s); [|exact Hr].
    rewrite (kept_setInput reactions reactions_kept). reflexivity.
  - apply inputState_setCursor.
    apply (savedCursors_same s); [|exact Hr].
    rewrite (kept_setInput reactions reactions_kept). reflexivity.
Qed.

Lemma inputState_handleInterrupt (s : LocalEchoController) :
  inputState s -> inputState (handleInterrupt s).
Proof.
  intros [_ Hr]. unfold handleInterrupt. split.
  - unfold cursorInBuffer. cbn. lia.
  - apply (savedCursors_same s); [|exact Hr].
    apply (kept_handleInterrupt reactions reactions_kept).
Qed.

Lemma inputState_handleReadComplete (s : LocalEchoController) :
  inputState s -> inputState (handleReadComplete s).
Proof.
  intros [Hc Hr]. unfold handleReadComplete, inputState, cursorInBuffer,
    savedCursors in *.
  cbn [_cursor _input reactions set_active]. redraw.
  cbn [_activePrompt set_history].
  destruct (_activePrompt s); cbn; auto.
Qed.

Lemma inputState_resume (cursor : Z) (s : LocalEchoController) :
  0 <= cursor -> savedCursors s -> inputState (resume cursor s).
Proof.
  intros Hpos Hr. unfold resume. apply inputState_setInput; [exact Hpos|].
  exact Hr.
Qed.

Lemma inputState_printAndRestartPrompt (fuel : nat) (callback : Callback)
  (s s' : LocalEchoController) :
  printAndRestartPrompt fuel callback s = Ok s' ->
  inputState s -> inputState s'.
Proof.
  unfold printAndRestartPrompt. intros H [Hc Hr].
  unfold cursorInBuffer in Hc. destruct callback as [candidates|candidates].
  - destruct (printWide fuel candidates 2 _) as [s2| |] eqn:E;
      cbn [bind] in H; try discriminate.
    injection H as <-. apply inputState_resume; [lia|].
    apply (savedCursors_same s); [|exact Hr].
    rewrite (kept_printWide reactions reactions_kept _ _ _ _ _ E).
    rewrite (kept_write reactions reactions_kept).
    apply (kept_setCursor reactions reactions_kept).
  - unfold readChar in H. injection H as <-.
    destruct (inputState_setCursor (len (_input s)) s Hr) as [Hc' Hr'].
    unfold cursorInBuffer, savedCursors in *. split.
    + unfold cursorInBuffer.
      cbn [_cursor _input set_reactions set_activeCharPrompt]. redraw.
      cbn [_cursor _input set_promises]. redraw.
      cbn [_cursor _input set_cursor]. apply clampCursor_range.
    + unfold savedCursors.
      cbn [reactions set_reactions set_activeCharPrompt]. redraw.
      cbn [reactions set_promises]. redraw. cbn [reactions set_cursor].
      apply Forall_app. split; [exact Hr|].
      constructor; [cbn; lia | constructor].
Qed.

Section CursorInvariant.

Variable parse : string -> list string.

Lemma inputState_handleTab (fuel : nat) (s s' : LocalEchoController) :
  handleTab parse fuel s = Ok s' -> inputState s -> inputState s'.
Proof.
  unfold handleTab.
  destruct (_ >? 0); [|intros [= <-]; apply inputState_handleCursorInsert].
  destruct (_ =? 0).
  { destruct (negb _); intros [= <-];
      [apply inputState_handleCursorInsert | auto]. }
  destruct (_ =? 1).
  { destruct (index _ 0); [|discriminate].
    intros [= <-]. apply inputState_handleCursorInsert. }
  destruct (_ <=? _).
  - destruct (getSharedFragment _ _) as [r| |]; cbn [bind]; try discriminate.
    intros H Hs. apply (inputState_printAndRestartPrompt _ _ _ _ H).
    destruct (truthy r); [|exact Hs].
    destruct r; [apply inputState_handleCursorInsert, Hs | exact Hs].
  - apply inputState_printAndRestartPrompt.
Qed.

Lemma inputState_handleData (fuel : nat) (data : string)
  (s s' : LocalEchoController) :
  handleData parse fuel data s = Ok s' -> inputState s -> inputState s'.
Proof.
  unfold handleData. destruct (negb (_active s)); [intros [= <-]; auto|].
  destruct (match charCodeAt0 data with Some o => o =? 27 | None => false end).
  { intros [= <-]. apply inputState_handleEscape. }
  destruct (match charCodeAt0 data with
            | Some o => (o <? 32) || (o =? 127) | None => false end).
  2: { intros [= <-]. apply inputState_handleCursorInsert. }
  destruct (String.eqb data (chr CR)).
  { destruct (isIncompleteInput (_input s)); intros [= <-].
    - apply inputState_handleCursorInsert.
    - apply inputState_handleReadComplete. }
  destruct (String.eqb data (chr DEL)).
  { intros [= <-]. exact (inputState_handleCursorErase true s). }
  destruct (String.eqb data (chr TAB)); [apply inputState_handleTab|].
  destruct (String.eqb data (chr ETX)).
  { intros [= <-]. apply inputState_handleInterrupt. }
  intros [= <-]. auto.
Qed.

Lemma inputState_handleEach (fuel : nat) (pieces : list string) :
  forall s s',
    handleEach parse fuel pieces s = Ok s' -> inputState s -> inputState s'.
Proof.
  induction pieces as [|c pieces IH]; intros s s'; cbn [handleEach].
  - intros [= <-]. auto.
  - destruct (handleData parse fuel c s) as [s1| |] eqn:E; cbn [bind];
      try discriminate.
    intros H Hs. eapply IH; [exact H|].
    eapply inputState_handleData; eauto.
Qed.

Lemma inputState_runReactions (fuel : nat) (p : nat) (value : string)
  (pending : list (nat * Reaction)) :
  Forall (fun r => match snd r with DisplayAll _ c => 0 <= c end) pending ->
  forall s s',
    runReactions fuel p value pending s = Ok s' ->
    inputState s -> inputState s'.
Proof.
  induction 1 as [|[q [candidates cursor]] pending Hq _ IH]; intros s s';
    cbn [runReactions].
  - intros [= <-]. auto.
  - cbn in Hq. destruct (Nat.eqb q p); [|apply IH].
    destruct (String.eqb value "y" || String.eqb value "Y").
    + destruct (printWide fuel candidates 2 s) as [s1| |] eqn:E; cbn [bind];
        try discriminate.
      intros H [_ Hr]. apply (IH _ _ H). apply inputState_resume; [exact Hq|].
      apply (savedCursors_same s); [|exact Hr].
      apply (kept_printWide reactions reactions_kept _ _ _ _ _ E).
    + cbn [bind]. intros H [_ Hr]. apply (IH _ _ H).
      apply inputState_resume; [exact Hq | exact Hr].
Qed.

Lemma inputState_handleTermData (fuel : nat) (data : string)
  (s s' : LocalEchoController) :
  handleTermData parse fuel data s = Ok s' -> inputState s -> inputState s'.
Proof.
  unfold handleTermData. destruct (negb (_active s)); [intros [= <-]; auto|].
  destruct (_activeCharPrompt s) as [a|].
  - intros H [Hc Hr].
    apply (inputState_runReactions _ _ _ _) in H; [exact H | |].
    + cbn [reactions]. redraw. cbn [reactions set_activeCharPrompt settle
                                      set_settled]. exact Hr.
    + unfold inputState, cursorInBuffer, savedCursors in *.
      cbn [_cursor _input reactions set_reactions]. redraw.
      cbn [_cursor _input set_activeCharPrompt settle set_settled].
      split; [exact Hc|].
      apply Forall_forall. intros r Hin. apply filter_In in Hin.
      destruct Hin as [Hin _]. revert Hin. redraw.
      cbn [reactions set_activeCharPrompt settle set_settled]. intros Hin.
      rewrite Forall_forall in Hr. apply Hr, Hin.
  - destruct (_ && _).
    + apply inputState_handleEach.
    + apply inputState_handleData.
Qed.

Lemma inputState_same (s s' : LocalEchoController) :
  _input s' = _input s -> _cursor s' = _cursor s ->
  reactions s' = reactions s -> inputState s -> inputState s'.
Proof.
  unfold inputState, cursorInBuffer, savedCursors.
  intros -> -> ->. auto.
Qed.

Lemma inputState_perform (fuel : nat) (call : Call)
  (s s' : LocalEchoController) :
  perform parse fuel call s = Ok s' -> inputState s -> inputState s'.
Proof.
  destruct call; cbn [perform].
  - intros [= <-] [_ Hr]. split.
    + unfold cursorInBuffer. cbn. lia.
    + unfold savedCursors, read in *.
      cbn [snd reactions set_active set_cursor set_input set_activePrompt].
      redraw. exact Hr.
  - intros [= <-]. unfold readChar. cbn [snd].
    apply inputState_same; cbn [_input _cursor reactions set_activeCharPrompt];
      redraw; reflexivity.
  - intros [= <-]. unfold abortRead.
    apply inputState_same; cbn [_input _cursor reactions set_active];
      destruct (_activePrompt s) as [a|] eqn:E,
               (_activeCharPrompt s) as [b|] eqn:F;
      redraw; cbn; redraw; rewrite ?E, ?F; cbn; redraw; rewrite ?E, ?F; cbn;
      redraw; reflexivity.
  - intros [= <-]. apply inputState_same; redraw; reflexivity.
  - intros [= <-]. apply inputState_same; redraw; reflexivity.
  - intros H. apply rest_printWide in H. apply rest_fields in H.
    apply inputState_same; tauto.
  - intros [= <-]. apply inputState_same; reflexivity.
  - intros [= <-]. apply inputState_same; reflexivity.
  - apply inputState_handleTermData.
  - intros [= <-] [Hc Hr]. unfold handleTermResize.
    apply inputState_setInput.
    + cbn [_cursor set_termSize]. redraw. unfold cursorInBuffer in Hc. lia.
    + unfold savedCursors. cbn [reactions set_termSize]. redraw. exact Hr.
Qed.

(** X15. Whatever the calls of the client and the events of the terminal
    since the construction of a controller, its cursor is an offset of its
    input buffer: [0 <= _cursor <= _input.length]. *)
Theorem cursor_stays_in_buffer (fuel : nat) (calls : list Call)
  (term : option Terminal) (historySize maxEntries : option Z)
  (s : LocalEchoController) :
  performAll parse fuel calls (constructor term historySize maxEntries) = Ok s ->
  0 <= _cursor s <= len (_input s).
Proof.
  assert (H : forall calls s0 s1,
            performAll parse fuel calls s0 = Ok s1 ->
            inputState s0 -> inputState s1).
  { clear calls s. induction calls as [|call calls IH]; intros s0 s1;
      cbn [performAll].
    - intros [= <-]. auto.
    - destruct (perform parse fuel call s0) as [s2| |] eqn:E; cbn [bind];
        try discriminate.
      intros H Hs. eapply IH; [exact H|].
      eapply inputState_perform; eauto. }
  intros Hrun. apply (H _ _ _ Hrun). split.
  - unfold cursorInBuffer. cbn. lia.
  - constructor.
Qed.

(** X16. Whatever the calls of the client and the events of the terminal
    since the construction of a controller, the engine is active exactly
    while a line read is in flight: [_active] is true if and only if
    [_activePrompt] is set. *)
Theorem active_exactly_while_reading (fuel : nat) (calls : list Call)
  (term : option Terminal) (historySize maxEntries : option Z)
  (s : LocalEchoController) :
  performAll parse fuel calls (constructor term historySize maxEntries) = Ok s ->
  (_active s = true <-> _activePrompt s <> None).
Proof.
  intros Hrun.
  destruct (wellFormed_performAll parse fuel calls _ _ Hrun
              (wellFormed_constructor term historySize maxEntries))
    as [[[Ha Hp]|[Ha Hp]] _].
  - tauto.
  - rewrite Ha, Hp. split; [discriminate | congruence].
Qed.

End CursorInvariant.

Lemma cursor_stays_in_buffer_witness :
  let s := handleCursorErase true
             (handleCursorInsert "s" (handleCursorInsert "l"
                (snd (read "$ " "> " (constructor (Some xterm) None None))))) in
  0 <= _cursor s <= len (_input s).
Proof.
  cbv zeta.
  apply (cursor_stays_in_buffer words 0
           [CallRead "$ " "> "; TermData "l"; TermData "s"; TermData (chr DEL)]
           (Some xterm) None None).
  vm_compute. reflexivity.
Defined.

Lemma active_exactly_while_reading_witness :
  let s := handleReadComplete
             (handleCursorInsert "s" (handleCursorInsert "l"
                (snd (read "$ " "> " (constructor (Some xterm) None None))))) in
  _active s = true <-> _activePrompt s <> None.
Proof.
  cbv zeta.
  apply (active_exactly_while_reading words 0
           [CallRead "$ " "> "; TermData "l"; TermData "s"; TermData (chr CR)]
           (Some xterm) None None).
  vm_compute. reflexivity.
Defined.

(** ** abortRead *)

(** X23. [abortRead reason] rejects the pending line read and the pending
    char read, in this order, with [reason], drops both prompts and makes
    the engine inactive; the terminal receives a line break if a read was
    pending and nothing otherwise; the input is left as it is. *)
Theorem abortRead_rejects_pending (reason : string) (s : LocalEchoController) :
  settled (abortRead reason s)
  = (settled s
     ++ match _activePrompt s with
        | Some a => [(linePromise a, Rejected reason)]
        | None => []
        end
     ++ match _activeCharPrompt s with
        | Some a => [(charPromise a, Rejected reason)]
        | None => []
        end)%list /\
  _active (abortRead reason s) = false /\
  _activePrompt (abortRead reason s) = None /\
  _activeCharPrompt (abortRead reason s) = None /\
  _input (abortRead reason s) = _input s /\
  term (abortRead reason s)
  = match _activePrompt s, _activeCharPrompt s with
    | None, None => term s
    | _, _ => option_map (received (chr CR ++ chr LF)) (term s)
    end.
Proof.
  unfold abortRead.
  destruct (_activePrompt s) as [a|] eqn:E, (_activeCharPrompt s) as [b|] eqn:F.
  all: cbn [settled _active _activePrompt _activeCharPrompt _input term
            set_active].
  all: redraw; rewrite ?E, ?F.
  all: cbn [settled _active _activePrompt _activeCharPrompt _input term
            set_activePrompt set_activeCharPrompt settle set_settled].
  all: redraw; rewrite ?E, ?F.
  all: cbn [settled _active _activePrompt _activeCharPrompt _input term
            set_activePrompt set_activeCharPrompt settle set_settled].
  all: redraw; rewrite ?E, ?F, ?term_write, ?app_nil_r, <- ?app_assoc.
  all: split; [reflexivity|]; split; [reflexivity|]; split; [reflexivity|];
       split; [reflexivity|]; split; reflexivity.
Qed.

(** ** printWide on a terminal that holds a column *)

Lemma concat_grid (c : nat) (items : list string) :
  concat (grid c items) = items.
Proof.
  funelim (grid c items); simp grid; [reflexivity|].
  cbn [concat].
  match goal with IH : concat _ = _ |- _ => rewrite IH end.
  apply firstn_skipn.
Qed.

(** X24. When the column width (longest item plus padding, the padding
    not negative) is positive and at most the cached terminal width,
    [printWide] on a non-empty list returns, given enough loop iterations:
    it has printed with [println], row by row, the items in their order,
    [floor(cols / width)] items a row, each filled with spaces to the
    column width, in [ceil(count / columns)] rows. *)
Theorem printWide_prints_grid (fuel : nat) (items : list string)
  (padding : Z) (s : LocalEchoController) :
  items <> [] ->
  0 <= padding ->
  let w := columnWidth items padding in
  0 < w <= cols (_termSize s) ->
  let c := Z.to_nat (cols (_termSize s) / w) in
  (List.length items + c + 1 <= fuel)%nat ->
  printWide fuel items padding s
  = Ok (fold_left (fun s r => println (rowText w r) s) (grid c items) s) /\
  concat (grid c items) = items /\
  List.length (grid c items) = ((List.length items + c - 1) / c)%nat /\
  Forall (fun item => len (padItem w item) = w) items.
Proof.
  intros Hne Hp w Hw c Hfuel.
  split; [apply printWide_layout; assumption|].
  split; [apply concat_grid|].
  split.
  - apply grid_rows. unfold c.
    assert (0 < cols (_termSize s) / w) by (apply Z.div_str_pos; lia). lia.
  - apply Forall_forall. intros item Hin. apply len_padItem.
    pose proof (fold_max_le items 0 item Hin). unfold w, columnWidth. lia.
Qed.

Lemma printWide_prints_grid_witness :
  let s := constructor (Some xterm) None None in
  let items := ["alpha"; "beta"; "gamma"] in
  printWide 20 items 2 s
  = Ok (fold_left (fun s r => println (rowText 7 r) s) (grid 11 items) s) /\
  concat (grid 11 items) = items /\
  List.length (grid 11 items) = ((3 + 11 - 1) / 11)%nat /\
  Forall (fun item => len (padItem 7 item) = 7) items.
Proof.
  cbv zeta.
  apply (printWide_prints_grid 20 ["alpha"; "beta"; "gamma"] 2
           (constructor (Some xterm) None None)).
  - discriminate.
  - lia.
  - vm_compute. split; [reflexivity | discriminate].
  - vm_compute. lia.
Defined.

(** ** TAB *)

(** X25. While a line is read with a handler registered, the cursor in the
    input, TAB with 2 to [maxAutocompleteEntries] candidates on a terminal
    that holds a column of the candidates returns, given enough loop
    iterations: it has inserted at the cursor the text of the shared
    fragment from the length of the last token on (when
    [getSharedFragment] gives a string that is not empty, nothing
    otherwise), printed the candidates in rows after a line break, and
    redrawn the prompt; the input and the cursor are those after the
    insertion, the read stays in flight. *)
Theorem tab_completes_shared_fragment (parse : string -> list string)
  (s : LocalEchoController) :
  severalCandidates parse s ->
  0 <= _cursor s <= len (_input s) ->
  columnWidth (tabCandidates parse s) 2 <= cols (_termSize s) ->
  let w := columnWidth (tabCandidates parse s) 2 in
  let c := Z.to_nat (cols (_termSize s) / w) in
  let s1 := afterInsertion parse s in
  let printed :=
    fold_left (fun s r => println (rowText w r) s)
      (grid c (tabCandidates parse s))
      (write (chr CR ++ chr LF) (setCursor (len (_input s1)) s1)) in
  exists fuel,
    handleData parse fuel (chr TAB) s = Ok (resume (_cursor s1) printed) /\
    _input (resume (_cursor s1) printed)
    = substr (_input s) 0 (Some (_cursor s)) ++ insertedText parse s
      ++ substr (_input s) (_cursor s) None /\
    _cursor (resume (_cursor s1) printed)
    = _cursor s + len (insertedText parse s) /\
    _activePrompt (resume (_cursor s1) printed) = _activePrompt s /\
    _active (resume (_cursor s1) printed) = true.
Proof. apply tab_partial_completion. Qed.

Lemma tab_completes_shared_fragment_witness :
  let s := handleCursorInsert "he"
             (snd (read "$ " "> "
                     (addAutocompleteHandler helpHandler
                        (constructor (Some xterm) None None)))) in
  exists fuel s',
    handleData words fuel (chr TAB) s = Ok s' /\
    _input s' = "hel" /\ _cursor s' = 3.
Proof.
  cbv zeta.
  destruct (tab_completes_shared_fragment words
              (handleCursorInsert "he"
                 (snd (read "$ " "> "
                         (addAutocompleteHandler helpHandler
                            (constructor (Some xterm) None None))))))
    as (fuel & Hd & Hi & Hc & _).
  - unfold severalCandidates. vm_compute.
    split; [reflexivity | split; [discriminate | split; discriminate]].
  - vm_compute. split; discriminate.
  - vm_compute. discriminate.
  - eexists. eexists. split; [exact Hd|]. split.
    + rewrite Hi. vm_compute. reflexivity.
    + rewrite Hc. vm_compute. reflexivity.
Defined.

(** ** Typing, pasting and erasing *)

Lemma edited_again (i1 i : string) (c1 c : Z) (s s1 : LocalEchoController) :
  rest s1 = edited i1 c1 s -> edited i c s1 = edited i c s.
Proof.
  unfold edited. intros H.
  rewrite (rest_set_input i _ _ (rest_set_cursor c _ _ H)). reflexivity.
Qed.

Lemma handleCursorInsert_edited (d : string) (s : LocalEchoController) :
  cursorInBuffer s ->
  rest (handleCursorInsert d s) = edited (inserted d s) (_cursor s + len d) s.
Proof.
  intros Hc. rewrite rest_handleCursorInsert. cbv zeta.
  unfold edited, inserted.
  destruct (substr_cut (_input s) (_cursor s) Hc) as (_ & Hl & Hr).
  rewrite !len_append, Hl, Hr. unfold cursorInBuffer in Hc.
  match goal with
  | |- context [if ?a >? ?b then _ else _] => destruct (Z.gtb_spec a b)
  end; [lia | reflexivity].
Qed.

Lemma substring_prefix_app (a b : string) :
  String.substring 0 (String.length a) (a ++ b) = a.
Proof.
  induction a as [|x a IH]; cbn; [destruct b; reflexivity | now rewrite IH].
Qed.

Lemma substr_app_left (a b : string) : substr (a ++ b) 0 (Some (len a)) = a.
Proof.
  unfold substr. cbn [Z.ltb Z.compare]. rewrite len_append.
  pose proof (UtilsMore.len_nonneg a). pose proof (UtilsMore.len_nonneg b).
  replace (Z.min 0 (len a + len b)) with 0 by lia.
  replace (Z.min (Z.max (len a) 0) (len a + len b - 0)) with (len a) by lia.
  cbn [Z.to_nat]. unfold len. rewrite Nat2Z.id. apply substring_prefix_app.
Qed.

Lemma substr_app_right (a b : string) : substr (a ++ b) (len a) None = b.
Proof.
  unfold substr. rewrite len_append.
  pose proof (UtilsMore.len_nonneg a). pose proof (UtilsMore.len_nonneg b).
  replace (len a <? 0) with false by (symmetry; apply Z.ltb_ge; lia).
  replace (Z.min (len a) (len a + len b)) with (len a) by lia.
  replace (len a + len b - len a) with (len b) by lia.
  unfold len. rewrite !Nat2Z.id. apply UtilsFacts.substring_skip.
Qed.

Lemma printableChar_codes (c : ascii) :
  printableChar c = true ->
  32 <= Z.of_nat (nat_of_ascii c) /\ Z.of_nat (nat_of_ascii c) <> 127.
Proof.
  unfold printableChar. intros H. apply andb_true_iff in H.
  destruct H as [H32 H127]. apply Nat.leb_le in H32.
  apply negb_true_iff, Nat.eqb_neq in H127. lia.
Qed.

Lemma printableChar_not_newline (c : ascii) :
  printableChar c = true -> isNewline c = false.
Proof.
  intros H. apply printableChar_codes in H. unfold isNewline.
  apply orb_false_iff. split; apply Ascii.eqb_neq; intros ->;
    cbn in H; lia.
Qed.

Lemma replaceRuns_printable (by_ : string) (text : string) :
  printable text = true -> forall inRun, replaceRuns by_ inRun text = text.
Proof.
  induction text as [|c text IH]; intros Hp inRun; [reflexivity|].
  cbn [printable] in Hp. apply andb_true_iff in Hp. destruct Hp as [Hc Ht].
  cbn [replaceRuns]. rewrite (printableChar_not_newline c Hc), (IH Ht).
  reflexivity.
Qed.

Section Keys.

Variable parse : string -> list string.

Lemma handleData_printable (fuel : nat) (c : ascii) (tail : string)
  (s : LocalEchoController) :
  _active s = true -> printableChar c = true ->
  handleData parse fuel (String c tail) s
  = Ok (handleCursorInsert (String c tail) s).
Proof.
  intros Ha Hprint. unfold handleData. rewrite Ha. cbn [negb charCodeAt0].
  apply printableChar_codes in Hprint.
  replace (Z.of_nat (nat_of_ascii c) =? 27) with false
    by (symmetry; apply Z.eqb_neq; lia).
  replace (Z.of_nat (nat_of_ascii c) <? 32) with false
    by (symmetry; apply Z.ltb_ge; lia).
  replace (Z.of_nat (nat_of_ascii c) =? 127) with false
    by (symmetry; apply Z.eqb_neq; lia).
  reflexivity.
Qed.

Lemma edited_same (s : LocalEchoController) :
  edited (_input s) (_cursor s) s = rest s.
Proof. destruct s; reflexivity. Qed.

Lemma handleEach_printable (fuel : nat) (text : string) :
  printable text = true ->
  forall s,
    _active s = true -> cursorInBuffer s ->
    exists s',
      handleEach parse fuel (chars text) s = Ok s' /\
      rest s' = edited (inserted text s) (_cursor s + len text) s.
Proof.
  induction text as [|ch text IH]; intros Hp s Ha Hc.
  - exists s. split; [reflexivity|].
    unfold inserted. cbn [append].
    destruct (substr_cut (_input s) (_cursor s) Hc) as (Hcut & _).
    rewrite Hcut. change (len "") with 0. rewrite Z.add_0_r.
    symmetry. apply edited_same.
  - cbn [printable] in Hp. apply andb_true_iff in Hp. destruct Hp as [Hch Ht].
    cbn [chars handleEach]. unfold chr at 1.
    rewrite (handleData_printable fuel ch "" s Ha Hch). cbn [bind].
    pose proof (handleCursorInsert_edited (chr ch) s Hc) as E1.
    change (String ch "") with (chr ch).
    generalize dependent (handleCursorInsert (chr ch) s). intros s1 E1.
    pose proof (rest_fields _ _ E1) as F. unfold edited in F.
    cbn [history maxAutocompleteEntries _autocompleteHandlers _active _input
         _cursor _activePrompt _activeCharPrompt _termSize promises settled
         reactions set_input set_cursor] in F.
    destruct F as (_ & _ & _ & Fa & Fi & Fc & _).
    destruct (substr_cut (_input s) (_cursor s) Hc) as (_ & Hl & Hr).
    assert (Hc1 : cursorInBuffer s1).
    { unfold cursorInBuffer in *. rewrite Fi, Fc. unfold inserted.
      rewrite !len_append, Hl, Hr. change (len (chr ch)) with 1.
      pose proof (UtilsMore.len_nonneg (_input s)). lia. }
    destruct (IH Ht s1 (eq_trans Fa Ha) Hc1) as (s' & Hrun & Hrest).
    exists s'. split; [exact Hrun|].
    rewrite Hrest, (edited_again _ _ _ _ _ _ E1). f_equal.
    + unfold inserted at 1. rewrite Fi, Fc.
      assert (E : inserted (chr ch) s
                  = (substr (_input s) 0 (Some (_cursor s)) ++ chr ch)
                    ++ substr (_input s) (_cursor s) None).
      { unfold inserted. symmetry. apply UtilsMore.append_assoc. }
      rewrite E.
      replace (_cursor s + len (chr ch))
        with (len (substr (_input s) 0 (Some (_cursor s)) ++ chr ch))
        by (rewrite len_append, Hl; reflexivity).
      rewrite substr_app_left, substr_app_right.
      unfold inserted.
      exact (UtilsMore.append_assoc (substr (_input s) 0 (Some (_cursor s)))
               (chr ch) (text ++ substr (_input s) (_cursor s) None)).
    + rewrite Fc, UtilsMore.len_String. change (len (chr ch)) with 1. lia.
Qed.

(** X18. While a line is edited, a chunk of more than 3 printable
    characters (a paste) is inserted in the input at the cursor as a whole,
    and the cursor moves behind it, exactly as typing does; only the
    terminal, the input and the cursor change. *)
Theorem paste_inserts_at_cursor (fuel : nat) (text : string)
  (s : LocalEchoController) :
  editing s -> cursorInBuffer s ->
  printable text = true -> 3 < len text ->
  exists s',
    handleTermData parse fuel text s = Ok s' /\
    rest s' = edited (inserted text s) (_cursor s + len text) s.
Proof.
  intros [Ha Hp] Hc Hprint Hlen.
  unfold handleTermData. rewrite Ha, Hp. cbn [negb].
  replace (len text >? 3) with true by (symmetry; apply Z.gtb_lt; lia).
  destruct text as [|c text]; [change (len "") with 0 in Hlen; lia|].
  cbn [charCodeAt0].
  pose proof Hprint as Hp'. cbn [printable] in Hp'.
  apply andb_true_iff in Hp'. destruct Hp' as [Hc0 _].
  apply printableChar_codes in Hc0.
  replace (Z.of_nat (nat_of_ascii c) =? 27) with false
    by (symmetry; apply Z.eqb_neq; lia).
  cbn [negb andb]. unfold replaceNewlineRuns.
  rewrite (replaceRuns_printable _ _ Hprint).
  apply handleEach_printable; assumption.
Qed.

(** X17. While a line is edited, a chunk of at most 3 characters that
    starts with a printable character is inserted in the input at the
    cursor, and the cursor moves behind it; only the terminal, the input
    and the cursor change (no promise is settled, the history is left
    alone). *)
Theorem typing_inserts_at_cursor (fuel : nat) (data : string) (c : ascii)
  (tail : string) (s : LocalEchoController) :
  editing s -> cursorInBuffer s ->
  data = String c tail -> printableChar c = true -> len data <= 3 ->
  exists s',
    handleTermData parse fuel data s = Ok s' /\
    rest s' = edited (inserted data s) (_cursor s + len data) s.
Proof.
  intros [Ha Hp] Hc -> Hprint Hlen.
  exists (handleCursorInsert (String c tail) s).
  split; [|apply handleCursorInsert_edited, Hc].
  unfold handleTermData. rewrite Ha, Hp. cbn [negb].
  replace (len (String c tail) >? 3) with false
    by (destruct (Z.gtb_spec (len (String c tail)) 3); [lia | reflexivity]).
  cbn [andb]. unfold handleData. rewrite Ha. cbn [negb charCodeAt0].
  unfold printableChar in Hprint. apply andb_true_iff in Hprint.
  destruct Hprint as [H32 H127]. apply Nat.leb_le in H32.
  apply negb_true_iff, Nat.eqb_neq in H127.
  replace (Z.of_nat (nat_of_ascii c) =? 27) with false
    by (symmetry; apply Z.eqb_neq; lia).
  replace (Z.of_nat (nat_of_ascii c) <? 32) with false
    by (symmetry; apply Z.ltb_ge; lia).
  replace (Z.of_nat (nat_of_ascii c) =? 127) with false
    by (symmetry; apply Z.eqb_neq; lia).
  reflexivity.
Qed.

Lemma handleTermData_short (fuel : nat) (data : string)
  (s : LocalEchoController) :
  editing s -> len data <= 3 ->
  handleTermData parse fuel data s = handleData parse fuel data s.
Proof.
  intros [Ha Hp] Hlen. unfold handleTermData. rewrite Ha, Hp. cbn [negb].
  replace (len data >? 3) with false
    by (destruct (Z.gtb_spec (len data) 3); [lia | reflexivity]).
  reflexivity.
Qed.

(** X19. While a line is edited, BACKSPACE with the cursor at offset 0
    changes nothing at all; otherwise it removes the character before the
    cursor and moves the cursor one place back: the input is one character
    shorter, and only the terminal, the input and the cursor change. *)
Theorem backspace_erases_before_cursor (fuel : nat) (s : LocalEchoController) :
  editing s -> cursorInBuffer s ->
  (_cursor s = 0 -> handleTermData parse fuel (chr DEL) s = Ok s) /\
  (0 < _cursor s ->
   exists s',
     handleTermData parse fuel (chr DEL) s = Ok s' /\
     rest s'
     = edited (substr (_input s) 0 (Some (_cursor s - 1))
               ++ substr (_input s) (_cursor s) None)
         (_cursor s - 1) s /\
     len (_input s') = len (_input s) - 1).
Proof.
  intros He Hc. pose proof He as [Ha _]. unfold cursorInBuffer in Hc.
  assert (Hd : handleTermData parse fuel (chr DEL) s
               = Ok (handleCursorErase true s)).
  { rewrite handleTermData_short; [|exact He | vm_compute; discriminate].
    unfold handleData. rewrite Ha. reflexivity. }
  rewrite Hd. unfold handleCursorErase. split.
  - intros H0. rewrite H0. reflexivity.
  - intros Hpos.
    replace (_cursor s <=? 0) with false by (symmetry; apply Z.leb_gt; lia).
    eexists. split; [reflexivity|].
    destruct (substr_cut (_input s) (_cursor s - 1) ltac:(lia)) as (_ & Hl & _).
    destruct (substr_cut (_input s) (_cursor s) ltac:(lia)) as (_ & _ & Hr).
    assert (Hrest :
      rest (setInput
              (substr (_input s) 0 (Some (_cursor s - 1))
               ++ substr (_input s) (_cursor s) None) false
              (set_cursor (_cursor (clearInput s) - 1) (clearInput s)))
      = edited (substr (_input s) 0 (Some (_cursor s - 1))
                ++ substr (_input s) (_cursor s) None) (_cursor s - 1) s).
    { rewrite rest_setInput. cbn [_cursor set_cursor]. redraw.
      rewrite len_append, Hl, Hr.
      match goal with
      | |- context [if ?a >? ?b then _ else _] => destruct (Z.gtb_spec a b)
      end; [lia|].
      unfold edited. apply rest_set_input.
      transitivity (rest (set_cursor (_cursor s - 1) (clearInput s)));
        [reflexivity|].
      apply rest_set_cursor, rest_clearInput. }
    split; [exact Hrest|].
    pose proof (rest_fields _ _ Hrest) as F. unfold edited in F.
    cbn [history maxAutocompleteEntries _autocompleteHandlers _active _input
         _cursor _activePrompt _activeCharPrompt _termSize promises settled
         reactions set_input set_cursor] in F.
    destruct F as (_ & _ & _ & _ & Fi & _). rewrite Fi, len_append, Hl, Hr. lia.
Qed.

(** X20. While a line is edited, ENTER on an input that
    [isIncompleteInput] finds complete ends the read: the promise of the
    read is resolved with the input, the input is pushed on the history,
    the prompt is dropped, the engine becomes inactive, and the terminal
    receives a line break. *)
Theorem enter_submits_complete_input (fuel : nat) (s : LocalEchoController)
  (a : ActivePrompt) :
  editing s -> _activePrompt s = Some a ->
  isIncompleteInput (_input s) = false ->
  exists s',
    handleTermData parse fuel (chr CR) s = Ok s' /\
    settled s' = (settled s ++ [(linePromise a, Resolved (_input s))])%list /\
    history s' = History.push (_input s) (history s) /\
    _active s' = false /\ _activePrompt s' = None /\
    _input s' = _input s /\
    term s' = option_map (received (chr CR ++ chr LF)) (term s).
Proof.
  intros He Hp Hcomplete. pose proof He as [Ha _].
  exists (handleReadComplete s). split.
  { rewrite handleTermData_short; [|exact He | vm_compute; discriminate].
    unfold handleData. rewrite Ha. cbn [negb]. 
    change (charCodeAt0 (chr CR)) with (Some 13).
    cbn [Z.eqb Z.ltb Z.compare Pos.compare Pos.compare_cont orb].
    rewrite String.eqb_refl, Hcomplete. reflexivity. }
  unfold handleReadComplete.
  cbn [settled history _active _activePrompt _input term set_active].
  rewrite term_write. redraw. cbn [_activePrompt set_history]. rewrite Hp.
  cbn [settled history _active _activePrompt _input term set_activePrompt
       settle set_settled set_history].
  split; [reflexivity|]. split; [reflexivity|]. split; [reflexivity|].
  split; [reflexivity|]. split; reflexivity.
Qed.

(** X21. While a line is edited, ENTER on an input that
    [isIncompleteInput] finds incomplete does not end the read: a line
    feed is inserted at the cursor, as if typed; no promise is settled and
    the engine stays active. *)
Theorem enter_continues_incomplete_input (fuel : nat)
  (s : LocalEchoController) :
  editing s -> cursorInBuffer s ->
  isIncompleteInput (_input s) = true ->
  exists s',
    handleTermData parse fuel (chr CR) s = Ok s' /\
    rest s' = edited (inserted (chr LF) s) (_cursor s + 1) s.
Proof.
  intros He Hc Hinc. pose proof He as [Ha _].
  exists (handleCursorInsert (chr LF) s). split.
  { rewrite handleTermData_short; [|exact He | vm_compute; discriminate].
    unfold handleData. rewrite Ha. cbn [negb].
    change (charCodeAt0 (chr CR)) with (Some 13).
    cbn [Z.eqb Z.ltb Z.compare Pos.compare Pos.compare_cont orb].
    rewrite String.eqb_refl, Hinc. reflexivity. }
  apply (handleCursorInsert_edited (chr LF) s Hc).
Qed.

(** X22. While a line is edited, CTRL+C empties the input, puts the cursor
    at 0 and rewinds the history; the read stays in flight (no promise is
    settled, the engine stays active), and the last text that the terminal
    receives is [^C], a line break and the prompt. *)
Theorem interrupt_resets_input (fuel : nat) (s : LocalEchoController) :
  editing s ->
  exists s',
    handleTermData parse fuel (chr ETX) s = Ok s' /\
    rest s'
    = rest (set_history (History.rewind (history s))
              (set_input "" (set_cursor 0 s))) /\
    term s'
    = option_map
        (received ("^C" ++ chr CR ++ chr LF ++
                   match _activePrompt s with
                   | Some a => prompt a
                   | None => ""
                   end))
        (term (setCursor (len (_input s)) s)).
Proof.
  intros He. pose proof He as [Ha _].
  exists (handleInterrupt s). split; [|split].
  - rewrite handleTermData_short; [|exact He | vm_compute; discriminate].
    unfold handleData. rewrite Ha. reflexivity.
  - unfold handleInterrupt.
    assert (H : rest (write ("^C" ++ chr CR ++ chr LF ++
                        match _activePrompt (setCursor (len (_input s)) s) with
                        | Some a => prompt a
                        | None => ""
                        end) (setCursor (len (_input s)) s))
                = rest (set_cursor (clampCursor (len (_input s)) s) s)).
    { rewrite rest_write. apply rest_setCursor. }
    apply rest_fields in H.
    cbn [history maxAutocompleteEntries _autocompleteHandlers _active _input
         _cursor _activePrompt _activeCharPrompt _termSize promises settled
         reactions set_input set_cursor] in H.
    destruct H as (H1 & H2 & H3 & H4 & H5 & H6 & H7 & H8 & H9 & H10 & H11 & H12).
    unfold rest, set_term, set_history, set_input, set_cursor.
    cbn [term history maxAutocompleteEntries _autocompleteHandlers _active
         _input _cursor _activePrompt _activeCharPrompt _termSize promises
         settled reactions].
    rewrite H1, H2, H3, H4, H7, H8, H9, H10, H11, H12. reflexivity.
  - unfold handleInterrupt.
    cbn [term set_history set_cursor set_input]. rewrite term_write.
    rewrite (kept_setCursor _activePrompt activePrompt_kept). reflexivity.
Qed.

Lemma handleTermData_escape (fuel : nat) (seq : string)
  (s : LocalEchoController) :
  editing s ->
  handleTermData parse fuel (String ESC seq) s = Ok (handleEscape seq s).
Proof.
  intros [Ha Hp]. unfold handleTermData. rewrite Ha, Hp.
  cbn [negb charCodeAt0].
  change (Z.of_nat (nat_of_ascii ESC) =? 27) with true.
  cbn [negb]. rewrite andb_false_r.
  unfold handleData. rewrite Ha. cbn [negb charCodeAt0].
  change (Z.of_nat (nat_of_ascii ESC) =? 27) with true. cbv iota.
  change (String ESC seq) with (chr ESC ++ seq).
  change 1 with (len (chr ESC)) at 1. rewrite substr_app_right. reflexivity.
Qed.

Lemma setCursor_moves (n : Z) (s : LocalEchoController) :
  0 <= n <= len (_input s) -> movesCursorTo n s (setCursor n s).
Proof.
  intros Hn. unfold movesCursorTo, edited. rewrite rest_setCursor.
  unfold clampCursor.
  replace (n <? 0) with false by (symmetry; apply Z.ltb_ge; lia).
  replace (n >? len (_input s)) with false
    by (destruct (Z.gtb_spec n (len (_input s))); [lia | reflexivity]).
  destruct s; reflexivity.
Qed.

(** X26. While a line is edited with the cursor in the input, the cursor
    keys change the cursor only (and the terminal): LEFT moves it to
    [max 0 (cursor - 1)], RIGHT to [min length (cursor + 1)], HOME to 0,
    END to the length, ALT+LEFT to [closestLeftBoundary] and ALT+RIGHT to
    [closestRightBoundary] of the input at the cursor. *)
Theorem cursor_keys_move_cursor (fuel : nat) (s : LocalEchoController) :
  editing s -> cursorInBuffer s ->
  let key seq target :=
    exists s', handleTermData parse fuel (String ESC seq) s = Ok s' /\
               movesCursorTo target s s' in
  key "[D" (Z.max 0 (_cursor s - 1)) /\
  key "[C" (Z.min (len (_input s)) (_cursor s + 1)) /\
  key "[H" 0 /\
  key "[F" (len (_input s)) /\
  key "b" (closestLeftBoundary (_input s) (_cursor s)) /\
  key "f" (closestRightBoundary (_input s) (_cursor s)).
Proof.
  intros He Hc key. unfold key. unfold cursorInBuffer in Hc.
  pose proof (UtilsMore.closestLeftBoundary_range (_input s) (_cursor s))
    as [Hl _].
  pose proof (UtilsMore.closestRightBoundary_range (_input s) (_cursor s))
    as [Hr _].
  repeat match goal with |- _ /\ _ => split end;
    rewrite (handleTermData_escape fuel _ s He); eexists;
    (split; [reflexivity|]).
  - change (handleEscape "[D" s) with (handleCursorMove (-1) s).
    unfold handleCursorMove. cbn [Z.gtb Z.ltb Z.compare].
    replace (_cursor s + Z.max (-1) (- _cursor s))
      with (Z.max 0 (_cursor s - 1)) by lia.
    apply setCursor_moves. lia.
  - change (handleEscape "[C" s) with (handleCursorMove 1 s).
    unfold handleCursorMove. cbn [Z.gtb Z.ltb Z.compare].
    replace (_cursor s + Z.min 1 (len (_input s) - _cursor s))
      with (Z.min (len (_input s)) (_cursor s + 1)) by lia.
    apply setCursor_moves. lia.
  - change (handleEscape "[H" s) with (setCursor 0 s).
    apply setCursor_moves. lia.
  - change (handleEscape "[F" s) with (setCursor (len (_input s)) s).
    apply setCursor_moves. lia.
  - change (handleEscape "b" s)
      with (setCursor (closestLeftBoundary (_input s) (_cursor s)) s).
    apply setCursor_moves. exact Hl.
  - change (handleEscape "f" s)
      with (setCursor (closestRightBoundary (_input s) (_cursor s)) s).
    apply setCursor_moves. exact Hr.
Qed.

(** X27. While a line is edited with the cursor in the input, the word
    kill (ESC DEL) removes the text between [closestLeftBoundary] of the
    input at the cursor and the cursor, and puts the cursor at that
    boundary; only the terminal, the input and the cursor change. *)
Theorem word_kill_removes_to_boundary (fuel : nat) (s : LocalEchoController) :
  editing s -> cursorInBuffer s ->
  let ofs := closestLeftBoundary (_input s) (_cursor s) in
  exists s',
    handleTermData parse fuel (String ESC (chr DEL)) s = Ok s' /\
    rest s'
    = edited (substr (_input s) 0 (Some ofs) ++ substr (_input s) (_cursor s) None)
        ofs s /\
    len (_input s') = len (_input s) - (_cursor s - ofs) /\
    0 <= ofs <= _cursor s.
Proof.
  intros He Hc ofs. unfold cursorInBuffer in Hc.
  pose proof (UtilsMore.closestLeftBoundary_range (_input s) (_cursor s))
    as [Hb Hlt]. fold ofs in Hb, Hlt.
  assert (Hofs : 0 <= ofs <= _cursor s).
  { destruct (Z.eq_dec (_cursor s) 0) as [E|E]; [|lia].
    unfold ofs, closestLeftBoundary.
    destruct (find _ _) as [x|] eqn:F; [|lia].
    apply find_some in F. destruct F as [Hin Hx]. apply Z.ltb_lt in Hx.
    apply in_rev in Hin.
    pose proof (UtilsMore.wordScan_left_bounds (_input s) false 0) as Hw.
    rewrite Forall_forall in Hw. specialize (Hw x Hin). lia. }
  rewrite (handleTermData_escape fuel _ s He). eexists. split; [reflexivity|].
  change (handleEscape (chr DEL) s)
    with (setCursor ofs
            (setInput (substr (_input s) 0 (Some ofs)
                       ++ substr (_input s) (_cursor s) None) true s)).
  destruct (substr_cut (_input s) ofs ltac:(lia)) as (_ & Hl & _).
  destruct (substr_cut (_input s) (_cursor s) Hc) as (_ & _ & Hr).
  set (new := substr (_input s) 0 (Some ofs) ++ substr (_input s) (_cursor s) None).
  assert (Hnew : len new = len (_input s) - (_cursor s - ofs)).
  { unfold new. rewrite len_append, Hl, Hr. lia. }
  assert (Hrest : rest (setCursor ofs (setInput new true s)) = edited new ofs s).
  { rewrite rest_setCursor. unfold clampCursor.
    destruct (setInput_fields new true s) as [Fi _]. rewrite Fi.
    replace (ofs <? 0) with false by (symmetry; apply Z.ltb_ge; lia).
    replace (ofs >? len new) with false
      by (destruct (Z.gtb_spec ofs (len new)); [lia | reflexivity]).
    unfold edited.
    rewrite (rest_set_cursor ofs _ _ (rest_setInput new true s)).
    reflexivity. }
  split; [exact Hrest|]. split; [|exact Hofs].
  pose proof (rest_fields _ _ Hrest) as F. unfold edited in F.
  cbn [history maxAutocompleteEntries _autocompleteHandlers _active _input
       _cursor _activePrompt _activeCharPrompt _termSize promises settled
       reactions set_input set_cursor] in F.
  destruct F as (_ & _ & _ & _ & Fi & _). rewrite Fi. exact Hnew.
Qed.

(** X28. While a line is edited, the UP arrow asks the history for the
    previous entry: if there is none (or an empty one) the input, the
    cursor and the terminal are left as they are; otherwise the entry
    becomes the input, with the cursor at its end.  The DOWN arrow asks
    for the next entry and makes it the input, the empty input when there
    is none, with the cursor at the end. *)
Theorem history_arrows_recall (fuel : nat) (s : LocalEchoController) :
  editing s ->
  (exists s',
     handleTermData parse fuel (String ESC "[A") s = Ok s' /\
     history s' = snd (History.getPrevious (history s)) /\
     match fst (History.getPrevious (history s)) with
     | Some (String c v) =>
         _input s' = String c v /\ _cursor s' = len (String c v)
     | _ => s' = set_history (snd (History.getPrevious (history s))) s
     end) /\
  (exists s',
     handleTermData parse fuel (String ESC "[B") s = Ok s' /\
     history s' = snd (History.getNext (history s)) /\
     let value := match fst (History.getNext (history s)) with
                  | Some v => v
                  | None => ""
                  end in
     _input s' = value /\ _cursor s' = len value).
Proof.
  intros He. split.
  - rewrite (handleTermData_escape fuel _ s He). eexists.
    split; [reflexivity|].
    change (handleEscape "[A" s)
      with (let '(value, h) := History.getPrevious (history s) in
            let s := set_history h s in
            match value with
            | Some v => if String.eqb v "" then s
                        else setCursor (len v) (setInput v true s)
            | None => s
            end).
    destruct (History.getPrevious (history s)) as [[[|c v]|] h];
      cbn [fst snd String.eqb]; try (split; reflexivity).
    split.
    + rewrite history_setCursor, history_setInput. reflexivity.
    + destruct (setCursor_fields (len (String c v))
                  (setInput (String c v) true (set_history h s))) as [Fi Fc].
      destruct (setInput_fields (String c v) true (set_history h s)) as [Gi _].
      rewrite Fi, Fc, Gi. split; [reflexivity|].
      unfold clampCursor. rewrite Gi.
      pose proof (UtilsMore.len_nonneg (String c v)).
      replace (len (String c v) <? 0) with false
        by (symmetry; apply Z.ltb_ge; lia).
      rewrite Z.gtb_ltb, Z.ltb_irrefl. reflexivity.
  - rewrite (handleTermData_escape fuel _ s He). eexists.
    split; [reflexivity|].
    change (handleEscape "[B" s)
      with (let '(value, h) := History.getNext (history s) in
            let s := set_history h s in
            let value := match value with Some v => v | None => "" end in
            setCursor (len value) (setInput value true s)).
    destruct (History.getNext (history s)) as [value h]. cbn [fst snd].
    set (v := match value with Some v => v | None => "" end).
    split; [rewrite history_setCursor, history_setInput; reflexivity|].
    destruct (setCursor_fields (len v) (setInput v true (set_history h s)))
      as [Fi Fc].
    destruct (setInput_fields v true (set_history h s)) as [Gi _].
    cbv zeta. rewrite Fi, Fc, Gi. split; [reflexivity|].
    unfold clampCursor. rewrite Gi.
    pose proof (UtilsMore.len_nonneg v).
    replace (len v <? 0) with false by (symmetry; apply Z.ltb_ge; lia).
    rewrite Z.gtb_ltb, Z.ltb_irrefl. reflexivity.
Qed.

(** X29. While a line is read with the cursor in the input, TAB without a
    registered handler inserts four spaces at the cursor.  With handlers
    and no candidate it inserts one space, unless the input up to the
    cursor has trailing whitespace, in which case nothing at all changes.
    With exactly one candidate it inserts the candidate from the length of
    the last token on, followed by a space. *)
Theorem tab_simple_cases (fuel : nat) (s : LocalEchoController) :
  _active s = true -> cursorInBuffer s ->
  let insertion text :=
    exists s', handleData parse fuel (chr TAB) s = Ok s' /\
               rest s' = edited (inserted text s) (_cursor s + len text) s in
  (_autocompleteHandlers s = [] -> insertion "    ") /\
  (_autocompleteHandlers s <> [] -> tabCandidates parse s = [] ->
   if hasTailingWhitespace (inputFragment s)
   then handleData parse fuel (chr TAB) s = Ok s
   else insertion " ") /\
  (forall c0, _autocompleteHandlers s <> [] -> tabCandidates parse s = [c0] ->
   insertion (substr c0 (len (getLastToken parse (inputFragment s))) None
              ++ " ")).
Proof.
  intros Ha Hc insertion. unfold insertion.
  assert (Htab : handleData parse fuel (chr TAB) s = handleTab parse fuel s).
  { unfold handleData. rewrite Ha. reflexivity. }
  rewrite Htab. unfold handleTab.
  fold (inputFragment s). fold (tabCandidates parse s).
  split; [|split].
  - intros ->. cbn [List.length Z.of_nat Z.gtb Z.compare].
    eexists. split; [reflexivity|]. apply handleCursorInsert_edited, Hc.
  - intros Hh Hnone.
    replace (Z.of_nat (List.length (_autocompleteHandlers s)) >? 0) with true.
    2: { symmetry. apply Z.gtb_lt. destruct (_autocompleteHandlers s);
         [contradiction | simpl List.length; lia]. }
    rewrite Hnone. cbn [List.length Z.of_nat Z.eqb].
    destruct (hasTailingWhitespace (inputFragment s)); cbn [negb];
      [reflexivity|].
    eexists. split; [reflexivity|]. apply handleCursorInsert_edited, Hc.
  - intros c0 Hh Hone.
    replace (Z.of_nat (List.length (_autocompleteHandlers s)) >? 0) with true.
    2: { symmetry. apply Z.gtb_lt. destruct (_autocompleteHandlers s);
         [contradiction | simpl List.length; lia]. }
    rewrite Hone. cbn [List.length Z.of_nat Z.eqb Pos.eqb Pos.of_succ_nat].
    change (index [c0] 0) with (Some c0). cbv iota.
    eexists. split; [reflexivity|]. apply handleCursorInsert_edited, Hc.
Qed.

End Keys.

(** ** TAB with more candidates than are listed without asking *)

Section Bookkeeping.

Variable r : list (nat * Reaction).
Variable a : option ActiveCharPrompt.
Variable l : list (nat * Settlement).

Lemma bookkeeping_write (x : string) (s : LocalEchoController) :
  write x (bookkeeping r a l s) = bookkeeping r a l (write x s).
Proof. unfold write. cbn [term bookkeeping set_reactions set_activeCharPrompt set_settled]. destruct (term s); reflexivity. Qed.

Lemma bookkeeping_writeTimes (n : Z) (x : string) (s : LocalEchoController) :
  writeTimes n x (bookkeeping r a l s) = bookkeeping r a l (writeTimes n x s).
Proof.
  unfold writeTimes. induction (Z.to_nat n) as [|k IH]; [reflexivity|].
  rewrite !Nat.iter_succ, IH. apply bookkeeping_write.
Qed.

Lemma bookkeeping_print (x : string) (s : LocalEchoController) :
  print x (bookkeeping r a l s) = bookkeeping r a l (print x s).
Proof. unfold print. apply bookkeeping_write. Qed.

Lemma bookkeeping_listed (w : Z) (rows : list (list string)) :
  forall s, listed w rows (bookkeeping r a l s) = bookkeeping r a l (listed w rows s).
Proof.
  unfold listed. induction rows as [|row rows IH]; intros s; [reflexivity|].
  cbn [fold_left]. unfold println at 2. rewrite bookkeeping_print.
  rewrite IH. reflexivity.
Qed.

Lemma bookkeeping_clearInput (s : LocalEchoController) :
  clearInput (bookkeeping r a l s) = bookkeeping r a l (clearInput s).
Proof.
  unfold clearInput.
  change (applyPrompts (_input (bookkeeping r a l s)) (bookkeeping r a l s))
    with (applyPrompts (_input s) s).
  change (applyPromptOffset (_input (bookkeeping r a l s)) (_cursor (bookkeeping r a l s)) (bookkeeping r a l s))
    with (applyPromptOffset (_input s) (_cursor s) s).
  change (_termSize (bookkeeping r a l s)) with (_termSize s).
  rewrite bookkeeping_writeTimes, bookkeeping_write, bookkeeping_writeTimes.
  reflexivity.
Qed.

Lemma bookkeeping_set_cursor (c : Z) (s : LocalEchoController) :
  set_cursor c (bookkeeping r a l s) = bookkeeping r a l (set_cursor c s).
Proof. reflexivity. Qed.

Lemma bookkeeping_setInput (i : string) (c : bool) (s : LocalEchoController) :
  setInput i c (bookkeeping r a l s) = bookkeeping r a l (setInput i c s).
Proof.
  unfold setInput.
  assert (Hc : (if c then clearInput (bookkeeping r a l s) else bookkeeping r a l s)
               = bookkeeping r a l (if c then clearInput s else s)).
  { destruct c; [apply bookkeeping_clearInput | reflexivity]. }
  rewrite Hc. generalize (if c then clearInput s else s). intros s0.
  change (applyPrompts i (bookkeeping r a l s0)) with (applyPrompts i s0).
  rewrite bookkeeping_print.
  generalize (print (applyPrompts i s0) s0). intros s1.
  change (_cursor (bookkeeping r a l s1)) with (_cursor s1).
  assert (Hk : (if _cursor s1 >? len i then set_cursor (len i) (bookkeeping r a l s1)
                else bookkeeping r a l s1)
               = bookkeeping r a l (if _cursor s1 >? len i then set_cursor (len i) s1
                       else s1)).
  { destruct (_cursor s1 >? len i); reflexivity. }
  rewrite Hk.
  generalize (if _cursor s1 >? len i then set_cursor (len i) s1 else s1).
  intros s2.
  change (applyPromptOffset i (_cursor (bookkeeping r a l s2)) (bookkeeping r a l s2))
    with (applyPromptOffset i (_cursor s2) s2).
  change (_termSize (bookkeeping r a l s2)) with (_termSize s2).
  rewrite bookkeeping_write, !bookkeeping_writeTimes. reflexivity.
Qed.

Lemma bookkeeping_resume (c : Z) (s : LocalEchoController) :
  resume c (bookkeeping r a l s) = bookkeeping r a l (resume c s).
Proof.
  unfold resume. rewrite bookkeeping_set_cursor.
  change (_input (bookkeeping r a l (set_cursor c s))) with (_input (set_cursor c s)).
  apply bookkeeping_setInput.
Qed.

End Bookkeeping.

Lemma rest_listed (w : Z) (rows : list (list string)) :
  forall s, rest (listed w rows s) = rest s.
Proof.
  unfold listed. induction rows as [|row rows IH]; intros s; [reflexivity|].
  cbn [fold_left]. rewrite IH. apply rest_println.
Qed.

Lemma runReactions_skip (fuel : nat) (p : nat) (value : string)
  (older newer : list (nat * Reaction)) (s : LocalEchoController) :
  Forall (fun r => fst r <> p) older ->
  runReactions fuel p value (older ++ newer)%list s
  = runReactions fuel p value newer s.
Proof.
  induction 1 as [|[q [cands cur]] older Hq _ IH]; [reflexivity|].
  cbn [runReactions app]. cbn [fst] in Hq.
  apply Nat.eqb_neq in Hq. rewrite Hq. exact IH.
Qed.

Lemma filter_older (p : nat) (x : Reaction) (older : list (nat * Reaction)) :
  Forall (fun r => fst r <> p) older ->
  filter (fun r => negb (Nat.eqb (fst r) p)) (older ++ [(p, x)])%list = older.
Proof.
  induction 1 as [|[q y] older Hq _ IH].
  - cbn. rewrite Nat.eqb_refl. reflexivity.
  - cbn [app filter fst]. cbn [fst] in Hq.
    apply Nat.eqb_neq in Hq. rewrite Hq. cbn [negb]. rewrite IH. reflexivity.
Qed.

Lemma answered_rest (answer : string) (x : Reaction)
  (a : option ActiveCharPrompt) (n : Z) (s : LocalEchoController) :
  _activeCharPrompt s = None ->
  rest (bookkeeping (reactions s) None
          (settled s ++ [(promises s, Resolved answer)])%list
          (set_reactions (reactions s ++ [(promises s, x)])%list
             (set_activeCharPrompt a
                (set_promises (S (promises s)) (set_cursor n s)))))
  = rest (answered answer (set_cursor n s)).
Proof. intros H. destruct s. cbn in H. subst. reflexivity. Qed.

Section Confirm.

Variable parse : string -> list string.

Lemma handleData_tab_many (fuel : nat) (s : LocalEchoController) :
  manyCandidates parse s ->
  handleData parse fuel (chr TAB) s
  = printAndRestartPrompt fuel (ConfirmThenPrint (tabCandidates parse s)) s.
Proof.
  intros (Ha & Hh & Hn & Hm). unfold handleData. rewrite Ha.
  cbn [negb charCodeAt0 chr]. change (Z.of_nat (nat_of_ascii TAB)) with 9.
  cbn -[handleTab]. unfold handleTab.
  replace (Z.of_nat (List.length (_autocompleteHandlers s)) >? 0) with true.
  2: { symmetry. apply Z.gtb_lt. destruct (_autocompleteHandlers s);
       [contradiction | simpl List.length; lia]. }
  fold (inputFragment s). fold (tabCandidates parse s).
  replace (Z.of_nat (List.length (tabCandidates parse s)) =? 0) with false
    by (symmetry; apply Z.eqb_neq; lia).
  replace (Z.of_nat (List.length (tabCandidates parse s)) =? 1) with false
    by (symmetry; apply Z.eqb_neq; lia).
  replace (Z.of_nat (List.length (tabCandidates parse s)) <=? maxAutocompleteEntries s)
    with false by (symmetry; apply Z.leb_gt; lia).
  reflexivity.
Qed.

Lemma rest_through (f : LocalEchoController -> LocalEchoController)
  (Hf : forall s, rest (f s) = f (rest s)) (s s' : LocalEchoController) :
  rest s = rest s' -> rest (f s) = rest (f s').
Proof. intros H. rewrite !Hf, H. reflexivity. Qed.

(** X30. TAB with at least two candidates and more than
    [maxAutocompleteEntries], while a line is edited with the cursor in the
    input, returns with a character read pending whose prompt asks whether
    to display all of them.  The next data chunk is the answer: it
    resolves the promise of that read and the read is over.  On [y] or [Y]
    (on a terminal that holds a column, given enough loop iterations) the
    candidates are printed as a grid after a line break, on any other
    answer only the line break, and then the prompt is drawn again.  Apart
    from the terminal, the controller differs from the one before the TAB
    by the promise created and resolved only: input, cursor and pending
    reactions are as they were. *)
Theorem tab_asks_before_listing_many (fuel : nat) (answer : string)
  (s : LocalEchoController) :
  editing s -> manyCandidates parse s -> cursorInBuffer s ->
  reactionsOnCreated s ->
  let candidates := tabCandidates parse s in
  let w := columnWidth candidates 2 in
  let c := Z.to_nat (cols (_termSize s) / w) in
  (yes answer = true ->
   w <= cols (_termSize s) /\ (List.length candidates + c + 1 <= fuel)%nat) ->
  exists s1 s2,
    handleTermData parse fuel (chr TAB) s = Ok s1 /\
    _activeCharPrompt s1
    = Some {| charPrompt := confirmQuestion candidates;
              charPromise := promises s |} /\
    settled s1 = settled s /\
    handleTermData parse fuel answer s1 = Ok s2 /\
    rest s2 = rest (answered answer s) /\
    term s2
    = term (resume (_cursor s)
              (if yes answer
               then listed w (grid c candidates) (write (chr CR ++ chr LF) s1)
               else write (chr CR ++ chr LF) s1)).
Proof.
  intros He Hm Hc Hr candidates w c Hy.
  rewrite (handleTermData_short parse fuel (chr TAB) s He)
    by (vm_compute; discriminate).
  rewrite (handleData_tab_many fuel s Hm).
  unfold printAndRestartPrompt, readChar. fold candidates.
  remember (write (chr CR ++ chr LF) (setCursor (len (_input s)) s)) as s0 eqn:E0.
  assert (H0 : rest s0 = rest (set_cursor (len (_input s)) s)).
  { subst s0. rewrite rest_write, rest_setCursor. unfold clampCursor.
    pose proof (UtilsMore.len_nonneg (_input s)).
    replace (len (_input s) <? 0) with false by (symmetry; apply Z.ltb_ge; lia).
    replace (len (_input s) >? len (_input s)) with false
      by (destruct (Z.gtb_spec (len (_input s)) (len (_input s)));
          [lia | reflexivity]).
    reflexivity. }
  destruct (rest_fields _ _ H0)
    as (_ & _ & _ & Ha0 & Hi0 & Hc0 & Hp0 & Hq0 & Ht0 & Hn0 & Hs0 & Hr0).
  cbn [_active _input _cursor _activePrompt _activeCharPrompt _termSize
       promises settled reactions set_cursor] in *.
  destruct Hm as (Ha & Hh & Hn & Hmax). destruct He as [_ Hnone].
  remember (confirmQuestion candidates) as q eqn:Eq.
  remember (DisplayAll candidates (_cursor s)) as reaction eqn:Er.
  rewrite Hn0.
  set (asking := Some {| charPrompt := q; charPromise := promises s |}).
  assert (HX : reactions (set_activeCharPrompt asking
                            (write q (set_promises (S (promises s)) s0)))
               = reactions s).
  { cbn [reactions set_activeCharPrompt]. frame. exact Hr0. }
  rewrite HX.
  remember (set_reactions (reactions s ++ [(promises s, reaction)])%list
              (set_activeCharPrompt asking
                 (write q (set_promises (S (promises s)) s0)))) as s1 eqn:E1.
  assert (H1 : rest s1
               = rest (set_reactions (reactions s ++ [(promises s, reaction)])%list
                         (set_activeCharPrompt asking
                            (set_promises (S (promises s))
                               (set_cursor (len (_input s)) s))))).
  { subst s1.
    apply (rest_through (set_reactions _) (fun _ => eq_refl)).
    apply (rest_through (set_activeCharPrompt _) (fun _ => eq_refl)).
    rewrite rest_write.
    apply (rest_through (set_promises _) (fun _ => eq_refl)). exact H0. }
  destruct (rest_fields _ _ H1)
    as (_ & _ & _ & Ha1 & Hi1 & Hc1 & Hp1 & Hq1 & Ht1 & Hn1 & Hs1 & Hr1).
  cbn [_active _input _cursor _activePrompt _activeCharPrompt _termSize
       promises settled reactions set_cursor set_promises
       set_activeCharPrompt set_reactions] in Ha1, Hi1, Hc1, Hp1, Hq1, Ht1,
       Hn1, Hs1, Hr1.
  assert (Holder : Forall (fun r => fst r <> promises s) (reactions s)).
  { eapply Forall_impl; [|exact Hr]. cbv beta. intros r Hlt. lia. }
  set (closed :=
         bookkeeping (reactions s) None
           (settled s ++ [(promises s, Resolved answer)])%list
           (write (chr CR ++ chr LF) s1)).
  assert (Hrun : handleTermData parse fuel answer s1
                 = (s' <- (if yes answer then printWide fuel candidates 2 closed
                           else Ok closed) ;;
                    Ok (resume (_cursor s) s'))).
  { unfold handleTermData. rewrite Ha1, Ha, Hq1. unfold asking.
    cbn [negb charPromise]. cbv zeta.
    assert (Hre : reactions (write (chr CR ++ chr LF)
                      (set_activeCharPrompt None
                         (settle (promises s) (Resolved answer) s1)))
                  = (reactions s ++ [(promises s, reaction)])%list).
    { frame. exact Hr1. }
    rewrite Hre, (filter_older _ _ _ Holder),
      (runReactions_skip _ _ _ _ _ _ Holder).
    subst reaction. cbn [runReactions]. rewrite Nat.eqb_refl.
    fold (yes answer).
    assert (Hcl : set_reactions (reactions s)
                    (write (chr CR ++ chr LF)
                       (set_activeCharPrompt None
                          (settle (promises s) (Resolved answer) s1)))
                  = closed).
    { unfold closed, bookkeeping, settle, write. rewrite Hs1.
      cbn [term set_activeCharPrompt set_settled].
      destruct (term s1); reflexivity. }
    rewrite Hcl. destruct (yes answer);
      [destruct (printWide fuel candidates 2 closed)|]; reflexivity. }
  assert (Hrc : rest closed = rest (answered answer (set_cursor (len (_input s)) s))).
  { unfold closed.
    set (keep := bookkeeping (reactions s) None
                   (settled s ++ [(promises s, Resolved answer)])%list).
    rewrite (rest_through keep (fun _ => eq_refl) _ _ (rest_write _ s1)).
    rewrite (rest_through keep (fun _ => eq_refl) _ _ H1).
    apply answered_rest, Hnone. }
  assert (Hfinal : forall L : LocalEchoController -> LocalEchoController,
             (forall x, rest (L x) = rest x) ->
             (forall r a l x, L (bookkeeping r a l x) = bookkeeping r a l (L x)) ->
             rest (resume (_cursor s) (L closed)) = rest (answered answer s) /\
             term (resume (_cursor s) (L closed))
             = term (resume (_cursor s) (L (write (chr CR ++ chr LF) s1)))).
  { intros L HL HLk. split.
    - unfold resume. rewrite rest_setInput.
      cbn [_cursor _input set_cursor].
      assert (HLc : rest (L closed)
                    = rest (answered answer (set_cursor (len (_input s)) s)))
        by (rewrite HL; exact Hrc).
      destruct (rest_fields _ _ HLc) as (_ & _ & _ & _ & Hi & _).
      cbn [_input answered set_settled set_promises set_cursor] in Hi.
      rewrite Hi. unfold cursorInBuffer in Hc.
      destruct (Z.gtb_spec (_cursor s) (len (_input s))); [lia|].
      rewrite (rest_set_input _ _ _
                 (rest_set_cursor (_cursor s) _ _
                    (rest_set_cursor (_cursor s) _ _ HLc))).
      unfold answered, rest. destruct s; reflexivity.
    - unfold closed. rewrite HLk, bookkeeping_resume. reflexivity. }
  exists s1. rewrite Hrun.
  destruct (yes answer) eqn:Ey.
  - destruct (Hy eq_refl) as [Hw Hfuel].
    assert (Hne : candidates <> []).
    { intros E. unfold candidates in E. rewrite E in Hn. simpl in Hn. lia. }
    assert (Htc : _termSize closed = _termSize s).
    { destruct (rest_fields _ _ Hrc) as (_ & _ & _ & _ & _ & _ & _ & _ & Ht & _).
      exact Ht. }
    rewrite (printWide_layout fuel candidates 2 closed Hne ltac:(lia));
      rewrite ?Htc; fold w; fold c;
      [| split; [apply columnWidth_positive | exact Hw] | exact Hfuel].
    cbn [bind]. fold (listed w (grid c candidates) closed).
    eexists. split; [reflexivity|]. split; [exact Hq1|]. split; [exact Hs1|].
    split; [reflexivity|].
    apply (Hfinal (listed w (grid c candidates))).
    + apply rest_listed.
    + intros. apply bookkeeping_listed.
  - cbn [bind]. eexists. split; [reflexivity|]. split; [exact Hq1|].
    split; [exact Hs1|]. split; [reflexivity|].
    apply (Hfinal (fun x => x)); reflexivity.
Qed.

End Confirm.


Lemma paste_inserts_at_cursor_witness :
  let s := handleCursorInsert "ls " (snd (read "$ " "> "
             (constructor (Some xterm) None None))) in
  exists s',
    handleTermData words 0 "/tmp/x" s = Ok s' /\
    rest s' = edited (inserted "/tmp/x" s) (_cursor s + len "/tmp/x") s.
Proof.
  cbv zeta.
  apply (paste_inserts_at_cursor words 0 "/tmp/x");
    [split; reflexivity | vm_compute; split; discriminate
     | reflexivity | reflexivity].
Defined.

Lemma typing_inserts_at_cursor_witness :
  let s := handleCursorInsert "ls" (snd (read "$ " "> "
             (constructor (Some xterm) None None))) in
  exists s',
    handleTermData words 0 "x" s = Ok s' /\
    rest s' = edited (inserted "x" s) (_cursor s + len "x") s.
Proof.
  cbv zeta.
  apply (typing_inserts_at_cursor words 0 "x" "x"%char "");
    [split; reflexivity | vm_compute; split; discriminate
     | reflexivity | reflexivity | vm_compute; discriminate].
Defined.

Lemma backspace_erases_before_cursor_witness :
  let s := handleCursorInsert "ls" (snd (read "$ " "> "
             (constructor (Some xterm) None None))) in
  exists s',
    handleTermData words 0 (chr DEL) s = Ok s' /\
    len (_input s') = len (_input s) - 1.
Proof.
  cbv zeta.
  destruct (backspace_erases_before_cursor words 0
              (handleCursorInsert "ls" (snd (read "$ " "> "
                 (constructor (Some xterm) None None)))))
    as [_ H]; [split; reflexivity | vm_compute; split; discriminate|].
  destruct H as (s' & Hd & _ & Hl); [reflexivity|].
  exists s'. split; assumption.
Defined.

Lemma enter_submits_complete_input_witness :
  let s := handleCursorInsert "ls" (snd (read "$ " "> "
             (constructor (Some xterm) None None))) in
  exists s',
    handleTermData words 0 (chr CR) s = Ok s' /\
    settled s' = [(0%nat, Resolved "ls")] /\ _active s' = false.
Proof.
  cbv zeta.
  destruct (enter_submits_complete_input words 0
              (handleCursorInsert "ls" (snd (read "$ " "> "
                 (constructor (Some xterm) None None))))
              {| prompt := "$ "; continuationPrompt := "> "; linePromise := 0 |})
    as (s' & Hd & Hs & _ & Ha & _); [split; reflexivity | reflexivity
                                      | reflexivity |].
  exists s'. split; [exact Hd | split; [exact Hs | exact Ha]].
Defined.

Lemma enter_continues_incomplete_input_witness :
  let s := handleCursorInsert "ls |" (snd (read "$ " "> "
             (constructor (Some xterm) None None))) in
  exists s',
    handleTermData words 0 (chr CR) s = Ok s' /\
    rest s' = edited (inserted (chr LF) s) (_cursor s + 1) s.
Proof.
  cbv zeta.
  apply (enter_continues_incomplete_input words 0);
    [split; reflexivity | vm_compute; split; discriminate | reflexivity].
Defined.

Lemma interrupt_resets_input_witness :
  let s := handleCursorInsert "ls" (snd (read "$ " "> "
             (constructor (Some xterm) None None))) in
  exists s',
    handleTermData words 0 (chr ETX) s = Ok s' /\
    rest s'
    = rest (set_history (History.rewind (history s))
              (set_input "" (set_cursor 0 s))).
Proof.
  cbv zeta.
  destruct (interrupt_resets_input words 0
              (handleCursorInsert "ls" (snd (read "$ " "> "
                 (constructor (Some xterm) None None)))))
    as (s' & Hd & Hr & _); [split; reflexivity|].
  exists s'. split; assumption.
Defined.

Lemma typedGitStatus_editing :
  editing typedGitStatus /\ cursorInBuffer typedGitStatus.
Proof.
  split; [split; reflexivity | vm_compute; split; discriminate].
Qed.

Lemma cursor_keys_move_cursor_witness :
  exists s',
    handleTermData words 0 (String ESC "b") typedGitStatus = Ok s' /\
    movesCursorTo (closestLeftBoundary "git status" 10) typedGitStatus s'.
Proof.
  destruct typedGitStatus_editing as [He Hc].
  destruct (cursor_keys_move_cursor words 0 typedGitStatus He Hc)
    as (_ & _ & _ & _ & Hb & _).
  exact Hb.
Defined.

Lemma word_kill_removes_to_boundary_witness :
  exists s',
    handleTermData words 0 (String ESC (chr DEL)) typedGitStatus = Ok s' /\
    len (_input s')
    = len (_input typedGitStatus)
      - (_cursor typedGitStatus
         - closestLeftBoundary (_input typedGitStatus) (_cursor typedGitStatus)).
Proof.
  destruct typedGitStatus_editing as [He Hc].
  destruct (word_kill_removes_to_boundary words 0 typedGitStatus He Hc)
    as (s' & Hd & _ & Hl & _).
  exists s'. split; assumption.
Defined.

Lemma history_arrows_recall_witness :
  exists s',
    handleTermData words 0 (String ESC "[A") typedGitStatus = Ok s' /\
    s' = set_history
           (snd (History.getPrevious (history typedGitStatus))) typedGitStatus.
Proof.
  destruct typedGitStatus_editing as [He _].
  destruct (history_arrows_recall words 0 typedGitStatus He)
    as [(s' & Hd & _ & Hv) _].
  exists s'. split; [exact Hd | exact Hv].
Defined.

Lemma tab_simple_cases_witness :
  exists s',
    handleData words 0 (chr TAB) typedGitStatus = Ok s' /\
    rest s'
    = edited (inserted "    " typedGitStatus)
        (_cursor typedGitStatus + len "    ") typedGitStatus.
Proof.
  destruct typedGitStatus_editing as [[Ha _] Hc].
  destruct (tab_simple_cases words 0 typedGitStatus Ha Hc) as [H _].
  apply H. reflexivity.
Defined.

Lemma tab_asks_before_listing_many_witness :
  exists s1 s2,
    handleTermData words 0 (chr TAB) typedGitStAsking = Ok s1 /\
    handleTermData words 0 "n" s1 = Ok s2 /\
    rest s2 = rest (answered "n" typedGitStAsking).
Proof.
  destruct (tab_asks_before_listing_many words 0 "n" typedGitStAsking)
    as (s1 & s2 & Ht & _ & _ & Hn & Hr & _).
  - split; reflexivity.
  - unfold manyCandidates. vm_compute.
    split; [reflexivity | split; [discriminate | split; [discriminate | reflexivity]]].
  - vm_compute. split; discriminate.
  - vm_compute. constructor.
  - vm_compute. discriminate.
  - exists s1, s2. split; [exact Ht | split; [exact Hn | exact Hr]].
Defined.

End EngineMore.
